(** * AHS alarm analysis: extraction and correlation engine

    A shallow embedding of [backend/alarm_extractor.py] (class
    [AlarmDataExtractor]), of the validators of [backend/models.py], of
    the stored configuration of [backend/alarm_config.py] and of the job
    handling and the endpoints of [backend/main.py], with the properties
    of the design document, and further properties of the code, proved
    over it.

    Modelling conventions.
    - Python [str] is [string], a sequence of bytes; [lower] and [split]
      act on the ASCII range (letters A-Z; blanks 9-13, 28-31 and 32).
    - A [datetime] is an instant in microseconds since 1970-01-01T00:00:00
      UTC, a [timedelta] a number of microseconds, both in [Z].
    - A Python [float] read from the store is a rational in [Q]; the
      arithmetic is exact, binary rounding is not modelled.  The speed
      reduction is given a second time on binary64 floats ([Binary64]),
      to evaluate the sample of the design document bit for bit.
    - The extractor runs in a world that records the cancellation flag,
      the queries sent to the store and the pauses taken; the other
      threads and the store are oracles of an environment. *)

From Stdlib Require Import ZArith QArith Qabs Qround List Ascii String Bool Lia.
From Stdlib Require Import DecimalString.
From Stdlib Require Import PrimFloat.
From Stdlib Require Import Lqa.
From stdpp Require Import gmap strings.

Import ListNotations.
Local Open Scope string_scope.
Local Open Scope Z_scope.

(** ** Python strings *)

Module PyStr.

Definition is_upper (c : ascii) : bool :=
  ((65 <=? N_of_ascii c) && (N_of_ascii c <=? 90))%N.

(** [str.isspace] on the ASCII range. *)
Definition is_space (c : ascii) : bool :=
  let n := N_of_ascii c in
  (((9 <=? n) && (n <=? 13)) || ((28 <=? n) && (n <=? 32)))%N.

Definition lower_char (c : ascii) : ascii :=
  if is_upper c then ascii_of_N (N_of_ascii c + 32) else c.

(** [s.lower()] *)
Fixpoint lower (s : string) : string :=
  match s with
  | EmptyString => EmptyString
  | String c s' => String (lower_char c) (lower s')
  end.

(** [s.startswith(p)] *)
Fixpoint startswith (p s : string) : bool :=
  match p, s with
  | EmptyString, _ => true
  | String _ _, EmptyString => false
  | String a p', String b s' => Ascii.eqb a b && startswith p' s'
  end.

(** [k in s] for strings: [k] occurs in [s] at some offset. *)
Fixpoint contains (k s : string) : bool :=
  startswith k s ||
  match s with
  | EmptyString => false
  | String _ s' => contains k s'
  end.

(** [s.split()]: the maximal runs of non-blank characters.  [cur] is
    the word being read. *)
Fixpoint split_from (cur s : string) : list string :=
  match s with
  | EmptyString => if String.eqb cur "" then [] else [cur]
  | String c s' =>
      if is_space c
      then (if String.eqb cur "" then split_from "" s'
            else cur :: split_from "" s')
      else split_from (cur ++ String c "") s'
  end.

Definition split (s : string) : list string := split_from "" s.

(** [s.replace(" ", r)] *)
Fixpoint replace_space (r s : string) : string :=
  match s with
  | EmptyString => EmptyString
  | String c s' =>
      if Ascii.eqb c " " then r ++ replace_space r s'
      else String c (replace_space r s')
  end.

(** [sep.join(l)] *)
Fixpoint join (sep : string) (l : list string) : string :=
  match l with
  | [] => ""
  | [x] => x
  | x :: l' => x ++ sep ++ join sep l'
  end.

(** [x in l] for a list of strings. *)
Definition mem (x : string) (l : list string) : bool :=
  existsb (String.eqb x) l.

(** The substring relation, as a proposition. *)
Definition occurs_in (k s : string) : Prop :=
  exists pre post, s = pre ++ k ++ post.

(** A word: not empty, no blank in it. *)
Fixpoint no_space (s : string) : bool :=
  match s with
  | EmptyString => true
  | String c s' => negb (is_space c) && no_space s'
  end.

End PyStr.

(** ** The alarm classifier *)

(** [AlarmDataExtractor._classify_alarm], with [self.ALARM_TYPES] as the
    catalog: the loop returns at the first type all of whose keywords
    occur in the lowered title. *)
Definition keywords_match (alarm_type title_lower : string) : bool :=
  forallb (fun keyword => PyStr.contains keyword title_lower)
          (PyStr.split (PyStr.lower alarm_type)).

Fixpoint classify_loop (types : list string) (title_lower : string)
  : option string :=
  match types with
  | [] => None
  | alarm_type :: rest =>
      if keywords_match alarm_type title_lower then Some alarm_type
      else classify_loop rest title_lower
  end.

Definition _classify_alarm (ALARM_TYPES : list string) (title : string)
  : option string :=
  classify_loop ALARM_TYPES (PyStr.lower title).

(** A string that is empty or begins with a blank, and a string that ends
    with a blank. *)
Definition starts_blank (s : string) : Prop :=
  match s with
  | EmptyString => True
  | String c _ => PyStr.is_space c = true
  end.

Definition ends_blank (s : string) : Prop :=
  exists s' c, s = s' ++ String c "" /\ PyStr.is_space c = true.

(** [k] is a blank-delimited keyword of [s]: a non-empty run of non-blank
    characters of [s], with a blank or an end of [s] on either side. *)
Definition is_keyword (k s : string) : Prop :=
  k <> "" /\ PyStr.no_space k = true /\
  exists pre post, s = pre ++ k ++ post /\
                   (pre = "" \/ ends_blank pre) /\ starts_blank post.

(** The words of the design document: an entry qualifies for a title
    when each of its lowercase blank-delimited keywords is a substring of
    the lowered title. *)
Definition qualifies (entry title : string) : Prop :=
  forall k, is_keyword k (PyStr.lower entry) ->
            PyStr.occurs_in k (PyStr.lower title).

(** ** Instants and their rendering *)

Module PyTime.

Definition us_per_second : Z := 1000000.
Definition us_per_day : Z := 86400 * us_per_second.

Definition digit (n : Z) : ascii := ascii_of_N (48 + Z.to_N (n mod 10)).

(** The last [width] decimal digits of [n], zero padded. *)
Fixpoint zpad (width : nat) (n : Z) : string :=
  match width with
  | O => ""
  | S w => zpad w (n / 10) ++ String (digit n) ""
  end.

(** Proleptic Gregorian date of a day number counted from 1970-01-01. *)
Definition civil_from_days (days : Z) : Z * Z * Z :=
  let z := days + 719468 in
  let era := z / 146097 in
  let doe := z - era * 146097 in
  let yoe := (doe - doe / 1460 + doe / 36524 - doe / 146096) / 365 in
  let doy := doe - (365 * yoe + yoe / 4 - yoe / 100) in
  let mp := (5 * doy + 2) / 153 in
  let d := doy - (153 * mp + 2) / 5 + 1 in
  let m := if mp <? 10 then mp + 3 else mp - 9 in
  let y := yoe + era * 400 + (if m <=? 2 then 1 else 0) in
  (y, m, d).

(** [t.strftime('%Y-%m-%dT%H:%M:%S')] *)
Definition date_time (t : Z) : string :=
  let '(y, m, d) := civil_from_days (t / us_per_day) in
  let s := (t mod us_per_day) / us_per_second in
  zpad 4 y ++ "-" ++ zpad 2 m ++ "-" ++ zpad 2 d ++ "T" ++
  zpad 2 (s / 3600) ++ ":" ++ zpad 2 ((s / 60) mod 60) ++ ":" ++
  zpad 2 (s mod 60).

(** [t.strftime('%Y-%m-%dT%H:%M:%SZ')] *)
Definition strftime_seconds (t : Z) : string := date_time t ++ "Z".

(** [t.strftime('%Y-%m-%dT%H:%M:%S.%fZ')] *)
Definition strftime_micros (t : Z) : string :=
  date_time t ++ "." ++ zpad 6 (t mod us_per_second) ++ "Z".

(** [(end - start).total_seconds() / 3600] *)
Definition duration_hours (start_time end_time : Z) : Q :=
  (end_time - start_time) # 3600000000.

End PyTime.

(** ** Python numbers *)

Module PyNum.

Local Open Scope Q_scope.

Definition gt (x y : Q) : bool := negb (Qle_bool x y).
Definition lt (x y : Q) : bool := negb (Qle_bool y x).

(** [max(l)] on a non-empty list: the running maximum is replaced by a
    later item only when that item is greater. *)
Definition max_from (m : Q) (l : list Q) : Q :=
  fold_left (fun best item => if gt item best then item else best) l m.

(** [min(l)] on a non-empty list. *)
Definition min_from (m : Q) (l : list Q) : Q :=
  fold_left (fun best item => if lt item best then item else best) l m.

(** Nearest integer, ties to the even one. *)
Definition round_half_even (q : Q) : Z :=
  let f := Qfloor q in
  match Qcompare (q - inject_Z f) (1 # 2) with
  | Lt => f
  | Gt => (f + 1)%Z
  | Eq => if Z.even f then f else (f + 1)%Z
  end.

(** [round(q, 2)] *)
Definition round2 (q : Q) : Q := round_half_even (q * 100) # 100.

(** [f"{n}"] for an [int]. *)
Definition str_int (n : Z) : string :=
  NilZero.string_of_int (Z.to_int n).

Definition eq_opt (a b : option Q) : Prop :=
  match a, b with
  | Some x, Some y => x == y
  | None, None => True
  | _, _ => False
  end.

End PyNum.

(** ** The speed reduction on binary64 floats *)

Module Binary64.

#[local] Set Warnings "-inexact-float".

Definition gt (x y : float) : bool := PrimFloat.ltb y x.

(** [max(l)] on a non-empty list of floats. *)
Definition max_from (m : float) (l : list float) : float :=
  fold_left (fun best item => if gt item best then item else best) l m.

(** [max(abs(float(v)) for v in values) * 3.6], nothing for no value. *)
Definition speed_of_values (values : list float) : option float :=
  match map PrimFloat.abs values with
  | [] => None
  | x :: rest => Some (PrimFloat.mul (max_from x rest) 3.6%float)
  end.

(** The samples of the design document and the speed it gives for them. *)
Definition samples : list float := [(-2.0)%float; 1.0%float; (-3.5)%float].
Definition expected : float := 12.6%float.

End Binary64.

(** ** Rows of the store and the extractor's dictionaries *)

(** A row of [result.get_points()]; a column that is missing or null is
    [None].  [Title] is a field, [Vehicle] a tag, [Value],
    [Value.Latitude] and [Value.Longitude] are float fields; [p_time] is
    the instant that [datetime.fromisoformat] reads from the time
    column. *)
Record Point := mkPoint {
  p_time : Z;
  p_Title : option string;
  p_Vehicle : option string;
  p_Value : option Q;
  p_Latitude : option Q;
  p_Longitude : option Q
}.

(** The [telemetry_data] dictionary. *)
Record Telemetry := mkTelemetry {
  latitude : option Q;
  longitude : option Q;
  speed_kmh : option Q;
  off_path_error_m : option Q;
  steering_command : option Q;
  throttle_command : option Q;
  pitch_deg : option Q;
  pitch_min_deg : option Q;
  pitch_max_deg : option Q;
  roll_deg : option Q;
  roll_min_deg : option Q;
  roll_max_deg : option Q
}.

Definition telemetry_init : Telemetry :=
  mkTelemetry None None None None None None None None None None None None.

(** The event dictionary built by the locator; [vehicle] is
    [point.get('Vehicle')], which may be [None]. *)
Record Event := mkEvent {
  alarm_type : string;
  vehicle : option string;
  timestamp : Z;
  title : string
}.

(** [{**event, **telemetry}] *)
Record EnrichedEvent := mkEnriched {
  event : Event;
  telemetry : Telemetry
}.

(** [f"{vehicle}"] *)
Definition str_vehicle (v : option string) : string :=
  match v with Some s => s | None => "None" end.

(** ** Exceptions, the store and the world *)

Inductive ExnClass :=
| Exception
| ValueError
| RuntimeError
| FutureTimeoutError.

(** A raised exception; [exn_msg] is [str(e)].  All four classes are caught
    by [except Exception]. *)
Record Exn := mkExn { exn_class : ExnClass; exn_msg : string }.

(** What the store answers to one query: [latency] seconds after the
    submission, either rows or an error raised by the client. *)
Inductive Outcome := Rows (points : list Point) | Failure (message : string).

Record Response := mkResponse { latency : nat; outcome : Outcome }.

(** The environment of a run.  [cancel_req t]: another thread calls
    [cancel()] just before the look number [t] at [self.cancelled] (the
    looks of a run are counted by the clock of the world); [store n q] is
    the answer to the query text [q] sent as the query number [n]. *)
Record Env := mkEnv {
  cancel_req : nat -> bool;
  store : nat -> string -> Response
}.

(** The state the extractor reads and writes.  [observed] is a ghost
    field: some look at the cancellation state has answered yes. *)
Record World := mkWorld {
  cancelled : bool;
  client : bool;
  clock : nat;
  issued : list string;
  slept : Q;
  observed : bool
}.

Inductive Res (A : Type) := Ok (a : A) | Raise (e : Exn).
Arguments Ok {A} a.
Arguments Raise {A} e.

Definition M (A : Type) : Type := World -> Res A * World.

Definition ret {A} (a : A) : M A := fun w => (Ok a, w).

Definition bind {A B} (m : M A) (k : A -> M B) : M B :=
  fun w => match m w with
           | (Ok a, w') => k a w'
           | (Raise e, w') => (Raise e, w')
           end.

Definition raise {A} (e : Exn) : M A := fun w => (Raise e, w).

(** [try: m  except Exception as e: h e] *)
Definition try_except {A} (m : M A) (h : Exn -> M A) : M A :=
  fun w => match m w with
           | (Ok a, w') => (Ok a, w')
           | (Raise e, w') => h e w'
           end.

Notation "x <- m ;; k" := (bind m (fun x => k))
  (at level 63, m at next level, right associativity).
Notation "m ;;; k" := (bind m (fun _ => k))
  (at level 63, right associativity).

(** The settings an extractor is built with; [telemetry_window] is the
    [timedelta(seconds=self.telemetry_window)], in microseconds. *)
Record Extractor := mkExtractor {
  ALARM_TYPES : list string;
  query_delay : Q;
  max_points_per_query : Z;
  telemetry_window : Z
}.

(** [self.deg_factor] and [self.query_timeout], fixed by [__init__]. *)
Definition deg_factor : Q := 174444 # 10000000.
Definition query_timeout : nat := 10.

(** [range(0, stop, step)] *)
Definition range0 (stop step : nat) : list nat :=
  map (Nat.mul step) (seq 0 ((stop + step - 1) / step)).

(** The cancellation predicate handed to the extractor, asked at a given
    tick of the clock. *)
Definition CancelCheck := option (nat -> bool).

Section Gateway.

Variable env : Env.

(** A look at [self.cancelled]. *)
Definition read_cancelled : M bool := fun w =>
  let c := cancelled w || cancel_req env (clock w) in
  (Ok c, mkWorld c (client w) (S (clock w)) (issued w) (slept w)
                 (observed w || c)).

(** [cancellation_check and cancellation_check()] *)
Definition poll (cancellation_check : CancelCheck) : M bool := fun w =>
  match cancellation_check with
  | None => (Ok false, w)
  | Some f =>
      let b := f (clock w) in
      (Ok b, mkWorld (cancelled w) (client w) (S (clock w)) (issued w)
                     (slept w) (observed w || b))
  end.

(** [self.cancelled or (cancellation_check and cancellation_check())] *)
Definition cancel_requested (cancellation_check : CancelCheck) : M bool :=
  c <- read_cancelled ;;
  if c then ret true else poll cancellation_check.

(** [self.cancelled = False] *)
Definition reset_cancelled : M unit := fun w =>
  (Ok tt, mkWorld false (client w) (clock w) (issued w) (slept w)
                  (observed w)).

(** [self.client = InfluxDBClient(...)] *)
Definition open_client : M unit := fun w =>
  (Ok tt, mkWorld (cancelled w) true (clock w) (issued w) (slept w)
                  (observed w)).

Definition has_client : M bool := fun w => (Ok (client w), w).

(** [time.sleep(d)] *)
Definition sleep (d : Q) : M unit := fun w =>
  (Ok tt, mkWorld (cancelled w) (client w) (clock w) (issued w)
                  (slept w + d)%Q (observed w)).

(** [self.thread_pool.submit(run_query)]: the query leaves for the
    store. *)
Definition submit (query : string) : M Response := fun w =>
  (Ok (store env (length (issued w)) query),
   mkWorld (cancelled w) (client w) (clock w) (issued w ++ [query])
           (slept w) (observed w)).

(** [future.result(timeout=...)] asked when [deadline] seconds have
    passed since the submission. *)
Definition future_result (future : Response) (deadline : nat)
  : M (list Point) :=
  if (latency future <=? deadline)%nat then
    match outcome future with
    | Rows points => ret points
    | Failure message => raise (mkExn Exception message)
    end
  else raise (mkExn FutureTimeoutError "").

Definition cancelled_during (query_name : string) : Exn :=
  mkExn Exception ("Extraction cancelled during " ++ query_name).

Definition cancelled_before (query_name : string) : Exn :=
  mkExn Exception ("Extraction cancelled before " ++ query_name).

Definition timeout_interval : nat := 2.

(** The waiting loop of [_execute_query_with_cancellation] and the last
    attempt that follows it. *)
Fixpoint wait_loop (elapsed : list nat) (future : Response)
         (query_name : string) : M (list Point) :=
  match elapsed with
  | [] =>
      c <- read_cancelled ;;
      if negb c then future_result future (query_timeout + 1)
      else raise (cancelled_during query_name)
  | e :: rest =>
      c <- read_cancelled ;;
      if c then raise (cancelled_during query_name)
      else
        try_except (future_result future (e + timeout_interval))
          (fun err =>
             match exn_class err with
             | FutureTimeoutError => wait_loop rest future query_name
             | _ => raise err
             end)
  end.

Definition mentions_cancelled (e : Exn) : bool :=
  PyStr.contains "cancelled" (PyStr.lower (exn_msg e)).

Definition _execute_query_with_cancellation (query query_name : string)
  : M (list Point) :=
  c <- read_cancelled ;;
  if c then raise (cancelled_before query_name)
  else
    try_except
      (future <- submit query ;;
       wait_loop (range0 query_timeout timeout_interval) future query_name)
      (fun e =>
         match exn_class e with
         | FutureTimeoutError =>
             raise (mkExn Exception
                      ("Query timeout after "
                         ++ PyNum.str_int (Z.of_nat query_timeout)
                         ++ "s: " ++ query_name))
         | _ =>
             c <- read_cancelled ;;
             if c || mentions_cancelled e
             then raise (cancelled_during query_name)
             else raise e
         end).

Definition _query_with_cancellation (query query_name : string)
  : M (list Point) :=
  c <- read_cancelled ;;
  if c then raise (cancelled_before query_name)
  else
    try_except
      (result <- _execute_query_with_cancellation query query_name ;;
       c <- read_cancelled ;;
       if c then raise (cancelled_during query_name) else ret result)
      (fun e =>
         c <- read_cancelled ;;
         if c then raise (cancelled_during query_name) else raise e).

End Gateway.

(** ** Query texts *)

Module QueryText.

Definition dq : string := String (ascii_of_N 34) "".
Definition nl : string := String (ascii_of_N 10) "".
Definition indent8 : string := "        ".
Definition indent12 : string := "            ".

(** A name between double quotes. *)
Definition quoted (name : string) : string := dq ++ name ++ dq.

(** ["MobiusLog"."defaultMobiusPolicy"."<measurement>"] *)
Definition source (measurement : string) : string :=
  quoted "MobiusLog" ++ "." ++ quoted "defaultMobiusPolicy" ++ "."
    ++ quoted measurement.

(** The regular expression of an alarm type, between its slashes:
    the text as it is, each space replaced by [.*]. *)
Definition alarm_regex (alarm : string) : string :=
  "/.*" ++ PyStr.replace_space ".*" alarm ++ ".*/".

(** [f'"Title" =~ /.*{alarm.replace(" ", ".*")}.*/'] *)
Definition alarm_condition (alarm : string) : string :=
  quoted "Title" ++ " =~ " ++ alarm_regex alarm.

(** The string literal of a vehicle, between its quotes: the text as
    it is. *)
Definition vehicle_literal (vehicle : string) : string :=
  "'" ++ vehicle ++ "'".

(** [f'"Vehicle" = \'{vehicle}\''] *)
Definition vehicle_condition (vehicle : string) : string :=
  quoted "Vehicle" ++ " = " ++ vehicle_literal vehicle.

(** The conditions of the selected alarms that are in the catalog. *)
Definition alarm_conditions (catalog selected_alarms : list string)
  : list string :=
  map alarm_condition
      (List.filter (fun alarm => PyStr.mem alarm catalog) selected_alarms).

Definition vehicle_filter (selected_vehicles : option (list string))
  : string :=
  match selected_vehicles with
  | None | Some [] => ""
  | Some vehicles =>
      " AND (" ++ PyStr.join " OR " (map vehicle_condition vehicles) ++ ")"
  end.

Definition time_predicate (start_str end_str : string) : string :=
  "WHERE time >= '" ++ start_str ++ "' AND time < '" ++ end_str ++ "'".

(** The query of the alarm locator. *)
Definition alarm_query (start_str end_str alarm_filter vehicles : string)
  : string :=
  nl ++ indent8 ++ "SELECT " ++ quoted "Title" ++ ", " ++ quoted "Vehicle"
     ++ ", time" ++ nl
     ++ indent8 ++ "FROM " ++ source "Notification State" ++ nl
     ++ indent8 ++ time_predicate start_str end_str ++ nl
     ++ indent8 ++ "AND (" ++ alarm_filter ++ ")" ++ vehicles ++ nl
     ++ indent8 ++ "ORDER BY time DESC" ++ nl
     ++ indent8.

(** The common head of the five windowed queries. *)
Definition window_head (columns measurement start_str end_str : string)
           (vehicle : option string) : string :=
  nl ++ indent12 ++ "SELECT " ++ columns ++ nl
     ++ indent12 ++ "FROM " ++ source measurement ++ nl
     ++ indent12 ++ time_predicate start_str end_str ++ " AND "
     ++ vehicle_condition (str_vehicle vehicle) ++ nl.

Definition order_and_limit (max_points : Z) : string :=
  indent12 ++ "ORDER BY time DESC" ++ nl
    ++ indent12 ++ "LIMIT " ++ PyNum.str_int max_points ++ nl.

Definition gps_query (start_str end_str : string) (vehicle : option string)
  : string :=
  window_head (quoted "Value.Latitude" ++ ", " ++ quoted "Value.Longitude")
              "PositionGroup.GlobalPosition" start_str end_str vehicle
    ++ indent12 ++ "LIMIT 1" ++ nl ++ indent12.

Definition speed_query (start_str end_str : string)
           (vehicle : option string) : string :=
  window_head (quoted "Value") "Velocity X" start_str end_str vehicle
    ++ indent12.

Definition offpath_query (max_points : Z) (start_str end_str : string)
           (vehicle : option string) : string :=
  window_head (quoted "Value") "Off Path Error" start_str end_str vehicle
    ++ order_and_limit max_points ++ indent12.

Definition pitch_query (max_points : Z) (start_str end_str : string)
           (vehicle : option string) : string :=
  window_head (quoted "Value") "Attitude Pitch" start_str end_str vehicle
    ++ order_and_limit max_points ++ indent12.

Definition roll_query (max_points : Z) (start_str end_str : string)
           (vehicle : option string) : string :=
  window_head (quoted "Value") "Attitude Roll" start_str end_str vehicle
    ++ order_and_limit max_points ++ indent12.

(** The speed query of the sibling method [_get_telemetry_at_timestamp],
    which the extraction does not call. *)
Definition speed_query_plain (max_points : Z) (start_str end_str : string)
           (vehicle : option string) : string :=
  window_head (quoted "Value") "Velocity X" start_str end_str vehicle
    ++ order_and_limit max_points ++ indent12.

End QueryText.

(** ** Reductions of the telemetry rows *)

Module Reduce.

Local Open Scope Q_scope.

(** [[p['Value'] for p in points if p.get('Value') is not None]] *)
Definition values (points : list Point) : list Q :=
  flat_map (fun p => match p_Value p with Some v => [v] | None => [] end)
           points.

Definition maximum (l : list Q) : option Q :=
  match l with
  | [] => None
  | x :: rest => Some (PyNum.max_from x rest)
  end.

Definition minimum (l : list Q) : option Q :=
  match l with
  | [] => None
  | x :: rest => Some (PyNum.min_from x rest)
  end.

Definition set_position (points : list Point) (td : Telemetry) : Telemetry :=
  match points with
  | [] => td
  | p :: _ =>
      mkTelemetry (p_Latitude p) (p_Longitude p) (speed_kmh td)
        (off_path_error_m td) (steering_command td) (throttle_command td)
        (pitch_deg td) (pitch_min_deg td) (pitch_max_deg td)
        (roll_deg td) (roll_min_deg td) (roll_max_deg td)
  end.

(** [max(speed_values) * 3.6] over the absolute values. *)
Definition speed_of (points : list Point) : option Q :=
  match maximum (map Qabs (values points)) with
  | Some m => Some (m * (36 # 10))
  | None => None
  end.

Definition set_speed (points : list Point) (td : Telemetry) : Telemetry :=
  match speed_of points with
  | None => td
  | Some v =>
      mkTelemetry (latitude td) (longitude td) (Some v)
        (off_path_error_m td) (steering_command td) (throttle_command td)
        (pitch_deg td) (pitch_min_deg td) (pitch_max_deg td)
        (roll_deg td) (roll_min_deg td) (roll_max_deg td)
  end.

(** [round(max(offpath_values), 2)] over the absolute values. *)
Definition offpath_of (points : list Point) : option Q :=
  match maximum (map Qabs (values points)) with
  | Some m => Some (PyNum.round2 m)
  | None => None
  end.

Definition set_offpath (points : list Point) (td : Telemetry) : Telemetry :=
  match offpath_of points with
  | None => td
  | Some v =>
      mkTelemetry (latitude td) (longitude td) (speed_kmh td)
        (Some v) (steering_command td) (throttle_command td)
        (pitch_deg td) (pitch_min_deg td) (pitch_max_deg td)
        (roll_deg td) (roll_min_deg td) (roll_max_deg td)
  end.

(** [[p['Value'] / self.deg_factor for p in points if ...]] *)
Definition degrees (points : list Point) : list Q :=
  map (fun v => v / deg_factor) (values points).

(** The three attitude figures: [round(max(abs values), 2)],
    [round(min(values), 2)], [round(max(values), 2)]. *)
Definition attitude_of (points : list Point) : option (Q * Q * Q) :=
  let degs := degrees points in
  match maximum (map Qabs degs), minimum degs, maximum degs with
  | Some a, Some lo, Some hi =>
      Some (PyNum.round2 a, PyNum.round2 lo, PyNum.round2 hi)
  | _, _, _ => None
  end.

Definition set_pitch (points : list Point) (td : Telemetry) : Telemetry :=
  match attitude_of points with
  | None => td
  | Some (a, lo, hi) =>
      mkTelemetry (latitude td) (longitude td) (speed_kmh td)
        (off_path_error_m td) (steering_command td) (throttle_command td)
        (Some a) (Some lo) (Some hi)
        (roll_deg td) (roll_min_deg td) (roll_max_deg td)
  end.

Definition set_roll (points : list Point) (td : Telemetry) : Telemetry :=
  match attitude_of points with
  | None => td
  | Some (a, lo, hi) =>
      mkTelemetry (latitude td) (longitude td) (speed_kmh td)
        (off_path_error_m td) (steering_command td) (throttle_command td)
        (pitch_deg td) (pitch_min_deg td) (pitch_max_deg td)
        (Some a) (Some lo) (Some hi)
  end.

End Reduce.

(** ** Alarm locator, telemetry correlator and the extraction loop *)

Section Extraction.

Variable env : Env.
Variable self : Extractor.

Definition exception (message : string) : Exn := mkExn Exception message.

(** The loop of the locator over the rows: a checkpoint, then the
    classification; a row without a type, or with the empty type, is
    dropped. *)
Fixpoint classify_points (cancellation_check : CancelCheck)
         (points : list Point) (alarm_events : list Event)
  : M (list Event) :=
  match points with
  | [] => ret alarm_events
  | point :: rest =>
      c <- cancel_requested env cancellation_check ;;
      if c then
        raise (exception
                 "Extraction cancelled during alarm timestamp processing")
      else
        let title := default "" (p_Title point) in
        match _classify_alarm (ALARM_TYPES self) title with
        | Some alarm_type =>
            if String.eqb alarm_type "" then
              classify_points cancellation_check rest alarm_events
            else
              classify_points cancellation_check rest
                (alarm_events
                   ++ [mkEvent alarm_type (p_Vehicle point) (p_time point)
                               title])
        | None => classify_points cancellation_check rest alarm_events
        end
  end.

Definition _get_alarm_timestamps_with_cancellation
           (start_time end_time : Z) (selected_alarms : list string)
           (selected_vehicles : option (list string))
           (cancellation_check : CancelCheck) : M (list Event) :=
  c <- cancel_requested env cancellation_check ;;
  if c then
    raise (exception "Extraction cancelled before alarm timestamp query")
  else
    let start_str := PyTime.strftime_seconds start_time in
    let end_str := PyTime.strftime_seconds end_time in
    let alarm_conditions :=
      QueryText.alarm_conditions (ALARM_TYPES self) selected_alarms in
    match alarm_conditions with
    | [] => ret []
    | _ :: _ =>
        let alarm_filter := PyStr.join " OR " alarm_conditions in
        let vehicle_filter := QueryText.vehicle_filter selected_vehicles in
        let query :=
          QueryText.alarm_query start_str end_str alarm_filter
                                vehicle_filter in
        try_except
          (points <- _query_with_cancellation env query
                       "alarm timestamps query" ;;
           c <- cancel_requested env cancellation_check ;;
           if c then
             raise (exception
                      "Extraction cancelled after alarm timestamp query")
           else classify_points cancellation_check points [])
          (fun e =>
             c <- read_cancelled env ;;
             if c || mentions_cancelled e then
               raise (exception
                 "Extraction cancelled during alarm timestamp retrieval")
             else ret [])
    end.

(** One of the five [try] blocks of the correlator: a checkpoint, the
    query, the reduction of its rows into [telemetry_data], the pause;
    a failure that is not a cancellation leaves the dictionary as it
    was. *)
Definition telemetry_block (cancellation_check : CancelCheck)
           (before during query query_name : string)
           (reduce : list Point -> Telemetry -> Telemetry)
           (telemetry_data : Telemetry) : M Telemetry :=
  try_except
    (c <- cancel_requested env cancellation_check ;;
     if c then raise (exception before)
     else
       points <- _query_with_cancellation env query query_name ;;
       let updated := reduce points telemetry_data in
       sleep (query_delay self) ;;;
       ret updated)
    (fun e =>
       c <- read_cancelled env ;;
       if c || mentions_cancelled e then raise (exception during)
       else ret telemetry_data).

Definition _get_telemetry_at_timestamp_with_cancellation
           (vehicle : option string) (timestamp : Z)
           (cancellation_check : CancelCheck) : M Telemetry :=
  c <- cancel_requested env cancellation_check ;;
  if c then raise (exception "Extraction cancelled before telemetry query")
  else
    let start_str :=
      PyTime.strftime_micros (timestamp - telemetry_window self) in
    let end_str :=
      PyTime.strftime_micros (timestamp + telemetry_window self) in
    let name := str_vehicle vehicle in
    let limit := max_points_per_query self in
    td <- telemetry_block cancellation_check
            "Extraction cancelled before GPS query"
            "Extraction cancelled during GPS telemetry query"
            (QueryText.gps_query start_str end_str vehicle)
            ("GPS query for " ++ name)
            Reduce.set_position telemetry_init ;;
    td <- telemetry_block cancellation_check
            "Extraction cancelled before speed query"
            "Extraction cancelled during speed telemetry query"
            (QueryText.speed_query start_str end_str vehicle)
            ("speed query for " ++ name)
            Reduce.set_speed td ;;
    td <- telemetry_block cancellation_check
            "Extraction cancelled before off-path query"
            "Extraction cancelled during off-path telemetry query"
            (QueryText.offpath_query limit start_str end_str vehicle)
            ("off-path query for " ++ name)
            Reduce.set_offpath td ;;
    td <- telemetry_block cancellation_check
            "Extraction cancelled before pitch query"
            "Extraction cancelled during pitch telemetry query"
            (QueryText.pitch_query limit start_str end_str vehicle)
            ("pitch query for " ++ name)
            Reduce.set_pitch td ;;
    telemetry_block cancellation_check
      "Extraction cancelled before roll query"
      "Extraction cancelled during roll telemetry query"
      (QueryText.roll_query limit start_str end_str vehicle)
      ("roll query for " ++ name)
      Reduce.set_roll td.

(** The enrichment loop of [extract_alarm_events]. *)
Fixpoint enrich_loop (cancellation_check : CancelCheck)
         (alarm_events : list Event) (enriched_events : list EnrichedEvent)
  : M (list EnrichedEvent) :=
  match alarm_events with
  | [] => ret enriched_events
  | ev :: rest =>
      c <- cancel_requested env cancellation_check ;;
      if c then raise (exception "Extraction cancelled by user")
      else
        td <- _get_telemetry_at_timestamp_with_cancellation
                (vehicle ev) (timestamp ev) cancellation_check ;;
        sleep (query_delay self) ;;;
        enrich_loop cancellation_check rest
                    (enriched_events ++ [mkEnriched ev td])
  end.

Definition format_hours (h : Q) : string :=
  let tenths := PyNum.round_half_even (h * 10) in
  (if tenths <? 0 then "-" else "")
    ++ PyNum.str_int (Z.abs tenths / 10) ++ "."
    ++ PyNum.str_int (Z.abs tenths mod 10).

Definition extract_alarm_events
           (start_time end_time : Z) (selected_alarms : list string)
           (selected_vehicles : option (list string)) (max_hours : Q)
           (cancellation_check : CancelCheck) : M (list EnrichedEvent) :=
  reset_cancelled ;;;
  let duration_hours := PyTime.duration_hours start_time end_time in
  if PyNum.gt duration_hours max_hours then
    raise (mkExn ValueError
             ("Time range (" ++ format_hours duration_hours
                ++ "h) exceeds maximum " ++ format_hours max_hours ++ "h"))
  else
    connected <- has_client ;;
    if negb connected then
      raise (mkExn RuntimeError "Not connected to InfluxDB")
    else
      try_except
        (alarm_events <- _get_alarm_timestamps_with_cancellation
                           start_time end_time selected_alarms
                           selected_vehicles cancellation_check ;;
         match alarm_events with
         | [] => ret []
         | _ :: _ => enrich_loop cancellation_check alarm_events []
         end)
        (fun e =>
           c <- read_cancelled env ;;
           if c || mentions_cancelled e then
             raise (exception "Extraction cancelled by user")
           else raise e).

(** [connect]: the client is created and the smoke-test query is run;
    any failure gives [False]. *)
Definition connect : M bool :=
  try_except
    (open_client ;;;
     _execute_query_with_cancellation env "SHOW MEASUREMENTS LIMIT 1"
                                      "connection_test" ;;;
     ret true)
    (fun _ => ret false).

End Extraction.

(** ** Request models ([models.py]) *)

(** [s.strip()] *)
Fixpoint lstrip (s : string) : string :=
  match s with
  | EmptyString => EmptyString
  | String c s' => if PyStr.is_space c then lstrip s' else s
  end.

Fixpoint rstrip (s : string) : string :=
  match s with
  | EmptyString => EmptyString
  | String c s' =>
      let r := rstrip s' in
      if String.eqb r "" && PyStr.is_space c then "" else String c r
  end.

Definition strip (s : string) : string := rstrip (lstrip s).

Record TimeRange := mkTimeRange { tr_start : Z; tr_end : Z }.

Record AlarmFilter := mkAlarmFilter {
  selected_alarms : list string;
  include_autonomous : bool;
  selected_vehicles : option (list string)
}.

Record AlarmExtractionRequest := mkRequest {
  time_range : TimeRange;
  alarm_filter : AlarmFilter
}.

(** [TimeRange.validate_time_range], the validator of [end]: [v] is the
    end, [start] the start already accepted. *)
Definition validate_time_range (start v : Z) : Res Z :=
  if v <=? start then
    Raise (mkExn ValueError "End time must be after start time")
  else
    let duration_hours := PyTime.duration_hours start v in
    if PyNum.gt duration_hours (30 # 1) then
      Raise (mkExn ValueError
               ("Time range cannot exceed 30 hours (got "
                  ++ format_hours duration_hours ++ " hours)"))
    else if PyNum.lt duration_hours (2 # 1000) then
      Raise (mkExn ValueError "Time range must be at least 6 seconds")
    else Ok v.

(** [AlarmFilter.validate_alarm_types], after the [min_items=1] of the
    field. *)
Definition validate_alarm_types (v : list string) : Res (list string) :=
  match v with
  | [] => Raise (mkExn ValueError "ensure this value has at least 1 items")
  | _ :: _ =>
      if forallb (fun alarm => negb (String.eqb (strip alarm) "")) v
      then Ok (map strip v)
      else Raise (mkExn ValueError "Alarm types cannot be empty strings")
  end.

(** The body of a request as it arrives, the instants already parsed. *)
Record RequestBody := mkBody {
  body_start : Z;
  body_end : Z;
  body_selected_alarms : list string;
  body_include_autonomous : bool;
  body_selected_vehicles : option (list string)
}.

(** Construction of the [AlarmExtractionRequest] from the body: the
    validators run, the first failure rejects the body. *)
Definition parse_request (body : RequestBody) : Res AlarmExtractionRequest :=
  match validate_time_range (body_start body) (body_end body) with
  | Raise e => Raise e
  | Ok end_time =>
      match validate_alarm_types (body_selected_alarms body) with
      | Raise e => Raise e
      | Ok alarms =>
          Ok (mkRequest (mkTimeRange (body_start body) end_time)
                (mkAlarmFilter alarms (body_include_autonomous body)
                               (body_selected_vehicles body)))
      end
  end.

(** [AlarmTelemetry] and [AlarmEvent], the response models. *)
Record AlarmTelemetry := mkAlarmTelemetry {
  at_latitude : option Q;
  at_longitude : option Q;
  at_speed_kmh : option Q;
  at_off_path_error_m : option Q;
  at_pitch_min_deg : option Q;
  at_pitch_max_deg : option Q;
  at_roll_min_deg : option Q;
  at_roll_max_deg : option Q
}.

Record AlarmEvent := mkAlarmEvent {
  ae_alarm_type : string;
  ae_vehicle : string;
  ae_timestamp : Z;
  ae_title : string;
  ae_telemetry : AlarmTelemetry
}.

(** ** The job registry and the job handler ([main.py]) *)

(** The summary dictionary; [list(set(...))] is taken in order of first
    occurrence, the wall-clock duration is left out. *)
Record Summary := mkSummary {
  total_events : nat;
  unique_vehicles : nat;
  vehicles : list string;
  alarm_types_found : list string;
  summary_time_range : string
}.

(** An entry of [active_extractions]. *)
Record JobData := mkJob {
  status : string;
  message : string;
  progress : Z;
  start_time : Z;
  request : AlarmExtractionRequest;
  alarm_events : list AlarmEvent;
  current_operation : string;
  summary : option Summary
}.

Record AlarmExtractionResponse := mkResponseModel {
  r_status : string;
  r_message : string;
  r_alarm_events : list AlarmEvent;
  r_summary : Summary
}.

(** The two global dictionaries. *)
Record Server := mkServer {
  active_extractions : gmap string JobData;
  extraction_results : gmap string AlarmExtractionResponse
}.

Definition create_extraction_job (job_id : string) (now : Z)
           (req : AlarmExtractionRequest) (srv : Server) : Server :=
  mkServer
    (<[job_id := mkJob "pending" "Extraction job created" 0 now req []
                       "Initializing alarm extraction" None]>
       (active_extractions srv))
    (extraction_results srv).

(** [active_extractions[job_id].update({...})] *)
Definition update_job (job_id : string) (f : JobData -> JobData)
           (srv : Server) : Server :=
  mkServer (alter f job_id (active_extractions srv)) (extraction_results srv).

Definition set_running (j : JobData) : JobData :=
  mkJob "running" "Connecting to InfluxDB..." 10 (start_time j) (request j)
        (alarm_events j) "Establishing InfluxDB connection" (summary j).

Definition set_connected (j : JobData) : JobData :=
  mkJob (status j) "Connected to InfluxDB, extracting alarm events..." 20
        (start_time j) (request j) (alarm_events j)
        "Extracting alarm events from time range" (summary j).

Definition set_completed (events : list AlarmEvent) (s : Summary)
           (j : JobData) : JobData :=
  mkJob "completed"
        ("Completed: " ++ PyNum.str_int (Z.of_nat (length events))
                       ++ " alarm events extracted")
        100 (start_time j) (request j) events
        "Alarm extraction completed successfully" (Some s).

(** The update of the [except] clause of [run_alarm_extraction]. *)
Definition set_failed (e : Exn) (j : JobData) : JobData :=
  mkJob "failed" ("Extraction failed: " ++ exn_msg e) (progress j)
        (start_time j) (request j) (alarm_events j)
        ("Failed: " ++ exn_msg e) (summary j).

(** The conversion of a raw event into the response models; a raw event
    whose vehicle is [None] does not validate as an [AlarmEvent]. *)
Definition to_alarm_event (raw : EnrichedEvent) : Res AlarmEvent :=
  let td := telemetry raw in
  let tel := mkAlarmTelemetry (latitude td) (longitude td) (speed_kmh td)
               (off_path_error_m td) (pitch_min_deg td) (pitch_max_deg td)
               (roll_min_deg td) (roll_max_deg td) in
  match vehicle (event raw) with
  | Some v =>
      Ok (mkAlarmEvent (alarm_type (event raw)) v (timestamp (event raw))
                       (title (event raw)) tel)
  | None =>
      Raise (mkExn ValueError "1 validation error for AlarmEvent: vehicle")
  end.

Fixpoint to_alarm_events (raws : list EnrichedEvent) : Res (list AlarmEvent) :=
  match raws with
  | [] => Ok []
  | raw :: rest =>
      match to_alarm_event raw with
      | Raise e => Raise e
      | Ok ev =>
          match to_alarm_events rest with
          | Raise e => Raise e
          | Ok evs => Ok (ev :: evs)
          end
      end
  end.

Definition make_summary (req : AlarmExtractionRequest)
           (events : list AlarmEvent) : Summary :=
  let vs := nodup string_dec (map ae_vehicle events) in
  mkSummary (length events) (length vs) vs
    (nodup string_dec (map ae_alarm_type events))
    (format_hours (PyTime.duration_hours (tr_start (time_range req))
                                         (tr_end (time_range req)))
       ++ " hours").

(** The extractor as [__init__] leaves it. *)
Definition new_world : World := mkWorld false false 0 [] 0%Q false.

(** [run_alarm_extraction]: the task of one job.  The extractor is built
    from the configuration ([self]); the job handler passes no cancellation
    predicate.  Closing the connection changes neither the registry nor
    the fields of the world and is left out. *)
Definition run_alarm_extraction (env : Env) (self : Extractor)
           (job_id : string) (srv : Server) : Server * World :=
  match active_extractions srv !! job_id with
  | None => (srv, new_world)
  | Some job_data =>
      let req := request job_data in
      let srv := update_job job_id set_running srv in
      match connect env new_world with
      | (Raise e, w) => (update_job job_id (set_failed e) srv, w)
      | (Ok false, w) =>
          (update_job job_id
             (set_failed (exception "Failed to connect to InfluxDB")) srv, w)
      | (Ok true, w) =>
          let srv := update_job job_id set_connected srv in
          match extract_alarm_events env self
                  (tr_start (time_range req)) (tr_end (time_range req))
                  (selected_alarms (alarm_filter req))
                  (selected_vehicles (alarm_filter req)) (30 # 1) None w with
          | (Raise e, w') => (update_job job_id (set_failed e) srv, w')
          | (Ok alarm_events_raw, w') =>
              match to_alarm_events alarm_events_raw with
              | Raise e => (update_job job_id (set_failed e) srv, w')
              | Ok events =>
                  let s := make_summary req events in
                  let response :=
                    mkResponseModel "success"
                      ("Successfully extracted "
                         ++ PyNum.str_int (Z.of_nat (length events))
                         ++ " alarm events")
                      events s in
                  (update_job job_id (set_completed events s)
                     (mkServer (active_extractions srv)
                               (<[job_id := response]>
                                  (extraction_results srv))),
                   w')
              end
          end
      end
  end.

(** Answers of the HTTP layer. *)
Inductive Reply (A : Type) :=
| Http200 (a : A)
| HttpError (code : Z) (detail : string).
Arguments Http200 {A} a.
Arguments HttpError {A} code detail.

(** [POST /extract-data]: the body is validated first; a job is created
    and its task scheduled only for a valid request.  The result gives the
    reply, the registry and the job scheduled for execution, if any. *)
Definition extract_alarm_data (job_id : string) (now : Z)
           (body : RequestBody) (srv : Server)
  : Reply string * Server * option string :=
  match parse_request body with
  | Raise e => (HttpError 422 (exn_msg e), srv, None)
  | Ok req =>
      match selected_alarms (alarm_filter req) with
      | [] =>
          (HttpError 500
             "Failed to start extraction: 400: At least one alarm type must be selected",
           srv, None)
      | _ :: _ =>
          (Http200 job_id, create_extraction_job job_id now req srv,
           Some job_id)
      end
  end.

(** The dictionary returned by [GET /extract/{job_id}]. *)
Record StatusView := mkStatusView {
  sv_status : string;
  sv_message : string;
  sv_progress : Z;
  sv_current_operation : string;
  sv_alarm_events_found : nat;
  sv_vehicles_found : nat;
  sv_data_points_extracted : nat
}.

Definition get_extraction_status (job_id : string) (srv : Server)
  : Reply StatusView :=
  match active_extractions srv !! job_id with
  | None => HttpError 404 "Extraction job not found"
  | Some job_data =>
      Http200
        (mkStatusView (status job_data) (message job_data)
           (progress job_data) (current_operation job_data)
           (length (alarm_events job_data))
           (length (nodup string_dec
                          (map ae_vehicle (alarm_events job_data))))
           (length (alarm_events job_data)))
  end.

(** The whole life of a request: submission, then the scheduled task. *)
Definition serve (env : Env) (self : Extractor) (job_id : string) (now : Z)
           (body : RequestBody) (srv : Server)
  : Reply string * Server * World :=
  match extract_alarm_data job_id now body srv with
  | (reply, srv', Some job) =>
      let '(srv'', w) := run_alarm_extraction env self job srv' in
      (reply, srv'', w)
  | (reply, srv', None) => (reply, srv', new_world)
  end.

(** ** String literals as the store reads them *)





(** ** Vocabulary of the properties *)

(** The greatest and the least element of a list. *)
Definition is_greatest (m : Q) (l : list Q) : Prop :=
  In m l /\ forall x, In x l -> (x <= m)%Q.


(** [r] is a whole number of hundredths within half a hundredth of [q]. *)
Definition rounded_to_hundredths (q r : Q) : Prop :=
  exists n : Z, r = (n # 100)%Q /\ (Qabs (q * 100 - inject_Z n) <= 1 # 2)%Q.

(** Nobody calls [cancel()] during the run. *)
Definition quiet (env : Env) : Prop := forall t, cancel_req env t = false.

(** The cancellation predicate, if there is one, always answers no. *)
Definition never (cancellation_check : CancelCheck) : Prop :=
  match cancellation_check with
  | None => True
  | Some f => forall t, f t = false
  end.

(** No error of the store has the word "cancelled" in its message. *)
Definition benign (env : Env) : Prop :=
  forall n q m, outcome (store env n q) = Failure m ->
                PyStr.contains "cancelled" (PyStr.lower m) = false.

(** What the gateway hands back for an answer of the store when nobody
    cancels: the rows when they arrive within the [query_timeout] plus the
    last second, nothing for an error or a late answer. *)
Definition answer (r : Response) : option (list Point) :=
  if (latency r <=? query_timeout + 1)%nat then
    match outcome r with
    | Rows points => Some points
    | Failure _ => None
    end
  else None.

Definition apply_answer (reduce : list Point -> Telemetry -> Telemetry)
           (r : Response) (td : Telemetry) : Telemetry :=
  match answer r with
  | Some points => reduce points td
  | None => td
  end.


(** Whenever a look at the cancellation state answers yes during [m], the
    computation [m] raises an exception satisfying [P]. *)
Definition cancel_raises {A} (P : Exn -> Prop) (m : M A) : Prop :=
  forall w, observed w = false -> observed (snd (m w)) = true ->
            exists e, fst (m w) = Raise e /\ P e.


(** The lookup of one field of a job in the registry. *)
Definition job_field {A} (f : JobData -> A) (job_id : string) (srv : Server)
  : option A :=
  f <$> (active_extractions srv !! job_id).

(** [w'] is [w] after the queries [qs] have been sent, with nobody having
    cancelled: only the clock and the pauses may differ otherwise. *)
Definition advanced (qs : list string) (w w' : World) : Prop :=
  cancelled w' = false /\ client w' = client w /\
  issued w' = (issued w ++ qs)%list /\ observed w' = observed w.

(** What [_query_with_cancellation] gives for an answer of the store when
    nobody cancels: the rows; the error of the store, taken for a
    cancellation when its message has the word in it; a timeout after the
    last attempt. *)
Definition gateway_result (r : Response) (query_name : string)
  : Res (list Point) :=
  if (latency r <=? query_timeout + 1)%nat then
    match outcome r with
    | Rows points => Ok points
    | Failure m =>
        if PyStr.contains "cancelled" (PyStr.lower m)
        then Raise (cancelled_during query_name)
        else Raise (mkExn Exception m)
    end
  else
    Raise (mkExn Exception ("Query timeout after 10s: " ++ query_name)).

(** The five windowed queries of one correlation, in the order in which
    they are sent. *)
Definition window_queries (self : Extractor) (vehicle : option string)
           (timestamp : Z) : list string :=
  let start_str := PyTime.strftime_micros (timestamp - telemetry_window self) in
  let end_str := PyTime.strftime_micros (timestamp + telemetry_window self) in
  let limit := max_points_per_query self in
  [ QueryText.gps_query start_str end_str vehicle;
    QueryText.speed_query start_str end_str vehicle;
    QueryText.offpath_query limit start_str end_str vehicle;
    QueryText.pitch_query limit start_str end_str vehicle;
    QueryText.roll_query limit start_str end_str vehicle ].

(** The answers of the store to these five queries, sent as the queries
    number [n] to [n + 4]. *)
Definition window_answers (env : Env) (self : Extractor) (n : nat)
           (vehicle : option string) (timestamp : Z) : list Response :=
  map (fun iq => store env (n + fst iq) (snd iq))
      (combine (seq 0 5) (window_queries self vehicle timestamp)).

(** The telemetry that five answers reduce to, each field from its own
    answer. *)
Definition correlate (answers : list Response) : Telemetry :=
  match answers with
  | [gps; speed; offpath; pitch; roll] =>
      apply_answer Reduce.set_roll roll
        (apply_answer Reduce.set_pitch pitch
           (apply_answer Reduce.set_offpath offpath
              (apply_answer Reduce.set_speed speed
                 (apply_answer Reduce.set_position gps telemetry_init))))
  | _ => telemetry_init
  end.

(** The rows of an answer, none when it fails or comes late. *)
Definition rows_of (r : Response) : list Point :=
  match answer r with Some points => points | None => [] end.

(** The word "cancelled" does not occur in a vehicle name, whatever the
    case of its letters. *)
Definition calm (vehicle : option string) : Prop :=
  PyStr.contains "cancelled" (PyStr.lower (str_vehicle vehicle)) = false.

(** The query text of the alarm locator for a request. *)
Definition locator_query (self : Extractor) (req : AlarmExtractionRequest)
  : string :=
  QueryText.alarm_query
    (PyTime.strftime_seconds (tr_start (time_range req)))
    (PyTime.strftime_seconds (tr_end (time_range req)))
    (PyStr.join " OR "
       (QueryText.alarm_conditions (ALARM_TYPES self)
                                   (selected_alarms (alarm_filter req))))
    (QueryText.vehicle_filter (selected_vehicles (alarm_filter req))).

Definition connection_test : string := "SHOW MEASUREMENTS LIMIT 1".

(** The store answers the smoke test of [connect] with rows, in time. *)
Definition reachable (env : Env) : Prop :=
  exists points, answer (store env 0 connection_test) = Some points.

(** How a task ends: in the [except] clause, from the record as the last
    progress update left it, or with the completion update. *)
Inductive job_end (env : Env) (self : Extractor) (job : JobData)
  : JobData -> World -> Prop :=
| end_no_connection w :
    connect env new_world = (Ok false, w) ->
    job_end env self job
      (set_failed (exception "Failed to connect to InfluxDB")
                  (set_running job)) w
| end_extraction_raised w w' e :
    connect env new_world = (Ok true, w) ->
    extract_alarm_events env self
      (tr_start (time_range (request job)))
      (tr_end (time_range (request job)))
      (selected_alarms (alarm_filter (request job)))
      (selected_vehicles (alarm_filter (request job))) (30 # 1) None w
    = (Raise e, w') ->
    job_end env self job
      (set_failed e (set_connected (set_running job))) w'
| end_conversion_raised w w' raws e :
    connect env new_world = (Ok true, w) ->
    extract_alarm_events env self
      (tr_start (time_range (request job)))
      (tr_end (time_range (request job)))
      (selected_alarms (alarm_filter (request job)))
      (selected_vehicles (alarm_filter (request job))) (30 # 1) None w
    = (Ok raws, w') ->
    to_alarm_events raws = Raise e ->
    job_end env self job
      (set_failed e (set_connected (set_running job))) w'
| end_completed w w' raws events :
    connect env new_world = (Ok true, w) ->
    extract_alarm_events env self
      (tr_start (time_range (request job)))
      (tr_end (time_range (request job)))
      (selected_alarms (alarm_filter (request job)))
      (selected_vehicles (alarm_filter (request job))) (30 # 1) None w
    = (Ok raws, w') ->
    to_alarm_events raws = Ok events ->
    job_end env self job
      (set_completed events (make_summary (request job) events)
                     (set_connected (set_running job))) w'.


(** ** Sample data *)

(** [AlarmDataExtractor.DEFAULT_ALARM_TYPES] *)
Definition DEFAULT_ALARM_TYPES : list string :=
  [ "Dump Bed Cannot Be Raised While Vehicle Tilted";
    "Tilt exceeded with dump bed raised";
    "Off Path";
    "Steering Restricted";
    "Bump Detected: Dump";
    "Bump Detected: Close";
    "Undocumented Error c419";
    "Failed to Drive When Commanded";
    "Slippery Conditions Caused Vehicle To Stop" ].

Module Sample.

(** The extractor of the default configuration: 0.1 s between queries,
    1000 points per query, a window of 0.5 s. *)
Definition extractor : Extractor :=
  mkExtractor DEFAULT_ALARM_TYPES (1 # 10) 1000 500000.

(** 2024-01-15T10:00:00Z *)
Definition t0 : Z := 1705312800000000.

Definition one_hour : Z := 3600000000.

Definition body (alarms : list string) : RequestBody :=
  mkBody t0 (t0 + one_hour) alarms true None.

Definition request (alarms : list string) : AlarmExtractionRequest :=
  mkRequest (mkTimeRange t0 (t0 + one_hour))
            (mkAlarmFilter alarms true None).

Definition no_jobs : Server := mkServer ∅ ∅.

Definition value_point (v : Q) : Point :=
  mkPoint t0 None None (Some v) None None.

Definition alarm_point (t : Z) (text : string) (v : string) : Point :=
  mkPoint t (Some text) (Some v) None None None.

(** A store that answers every query at once, with no row. *)
Definition empty_store : nat -> string -> Response :=
  fun _ _ => mkResponse 0 (Rows []).

(** Nobody cancels, the store is empty. *)
Definition env_idle : Env := mkEnv (fun _ => false) empty_store.


(** The second query, the one of the locator, gets no answer within a
    minute. *)
Definition env_timeout : Env :=
  mkEnv (fun _ => false)
        (fun n _ => match n with
                    | 1%nat => mkResponse 60 (Rows [])
                    | _ => mkResponse 0 (Rows [])
                    end).

(** The store refuses the connection. *)
Definition env_down : Env :=
  mkEnv (fun _ => false)
        (fun _ _ => mkResponse 0 (Failure "Connection refused")).

(** Two alarms of DT059 in the hour; the speed samples of the design
    document for every windowed query. *)
Definition env_two_alarms : Env :=
  mkEnv (fun _ => false)
        (fun n _ =>
           match n with
           | 0%nat => mkResponse 0 (Rows [])
           | 1%nat =>
               mkResponse 1
                 (Rows [alarm_point (t0 + 1800000000) "Vehicle Off Path"
                                    "DT059";
                        alarm_point (t0 + 600000000) "off path alarm"
                                    "DT059"])
           | _ =>
               mkResponse 0
                 (Rows [value_point (-2); value_point 1;
                        value_point (-35 # 10)])
           end).

(** Every query is answered at once with the speed samples of the
    design document. *)
Definition env_speed : Env :=
  mkEnv (fun _ => false)
        (fun _ _ =>
           mkResponse 0
             (Rows [value_point (-2); value_point 1;
                    value_point (-35 # 10)])).


(** The job record that the submission of [body alarms] creates. *)
Definition pending (alarms : list string) : JobData :=
  mkJob "pending" "Extraction job created" 0 0 (request alarms) []
        "Initializing alarm extraction" None.

Definition one_job (alarms : list string) : Server :=
  create_extraction_job "job-1" 0 (request alarms) no_jobs.

End Sample.


(** The speed reported for the rows of the speed query: nothing when no
    row has a value, otherwise the greatest absolute value times 3.6. *)
Definition speed_summary (rows : list Point) (speed : option Q) : Prop :=
  match Reduce.values rows with
  | [] => speed = None
  | _ :: _ =>
      exists m, is_greatest m (map Qabs (Reduce.values rows)) /\
                speed = Some (m * (36 # 10))%Q
  end.

(** ** The rows the locator keeps and the events the loop enriches *)

(** The event that the loop over the rows builds from one row, in
    [_get_alarm_timestamps] as in the locator of the extraction: the row is
    kept when its title gets a type that is not the empty string. *)
Definition event_of_row (catalog : list string) (point : Point)
  : option Event :=
  let title := default "" (p_Title point) in
  match _classify_alarm catalog title with
  | Some alarm_type =>
      if String.eqb alarm_type "" then None
      else Some (mkEvent alarm_type (p_Vehicle point) (p_time point) title)
  | None => None
  end.

(** The loop of [_get_alarm_timestamps] over the rows. *)
Fixpoint located (catalog : list string) (points : list Point)
  : list Event :=
  match points with
  | [] => []
  | point :: rest =>
      match event_of_row catalog point with
      | Some ev => ev :: located catalog rest
      | None => located catalog rest
      end
  end.

(** The events with the telemetry of their own five answers, the first
    window query being the query number [n]. *)
Fixpoint enriched_from (env : Env) (self : Extractor) (n : nat)
         (events : list Event) : list EnrichedEvent :=
  match events with
  | [] => []
  | ev :: rest =>
      mkEnriched ev
        (correlate (window_answers env self n (vehicle ev) (timestamp ev)))
        :: enriched_from env self (n + 5) rest
  end.

(** The windowed queries of a list of events, in the order in which the
    loop sends them. *)
Definition enrichment_queries (self : Extractor) (events : list Event)
  : list string :=
  flat_map (fun ev => window_queries self (vehicle ev) (timestamp ev)) events.

(** The number of pauses of the enrichment: one after each windowed
    query that is answered in time with rows, one after each event. *)
Definition answered (r : Response) : nat :=
  match answer r with Some _ => 1 | None => 0 end.

Fixpoint pauses (env : Env) (self : Extractor) (n : nat)
         (events : list Event) : nat :=
  match events with
  | [] => 0
  | ev :: rest =>
      (list_sum (map answered
                     (window_answers env self n (vehicle ev) (timestamp ev)))
       + 1 + pauses env self (n + 5) rest)%nat
  end.

(** A computation that takes no pause. *)
Definition steady {A} (m : M A) : Prop :=
  forall w, slept (snd (m w)) = slept w.

(** The query of the locator for a selection. *)
Definition locator_text (self : Extractor) (start_time end_time : Z)
           (selected : list string) (vehicles : option (list string))
  : string :=
  QueryText.alarm_query
    (PyTime.strftime_seconds start_time)
    (PyTime.strftime_seconds end_time)
    (PyStr.join " OR "
       (QueryText.alarm_conditions (ALARM_TYPES self) selected))
    (QueryText.vehicle_filter vehicles).

(** An event of the locator comes from the row [point]. *)
Definition from_row (ev : Event) (point : Point) : Prop :=
  title ev = default "" (p_Title point) /\ vehicle ev = p_Vehicle point /\
  timestamp ev = p_time point.

(** The extractor connected, as [connect] leaves it. *)
Definition connected_world : World :=
  mkWorld false true 2 [connection_test] 0%Q false.

(** The off-path error reported for the rows of the off-path query:
    nothing when no row has a value, otherwise the greatest absolute value
    rounded to hundredths. *)
Definition offpath_summary (rows : list Point) (error : option Q) : Prop :=
  match Reduce.values rows with
  | [] => error = None
  | _ :: _ =>
      exists m, is_greatest m (map Qabs (Reduce.values rows)) /\
                error = Some (PyNum.round2 m) /\
                rounded_to_hundredths m (PyNum.round2 m)
  end.

(** The five answers of one correlation, by name. *)
Definition window_answer (env : Env) (self : Extractor) (n : nat)
           (vehicle : option string) (timestamp : Z) (i : nat) : Response :=
  nth i (window_answers env self n vehicle timestamp)
      (mkResponse 0 (Failure "")).

(** ** The methods without cancellation checkpoints *)

(** [round(max_speed_ms * 3.6, 2)] of [_get_telemetry_at_timestamp]. *)
Definition speed_of_rounded (points : list Point) : option Q :=
  match Reduce.maximum (map Qabs (Reduce.values points)) with
  | Some max_speed_ms => Some (PyNum.round2 (max_speed_ms * (36 # 10)))
  | None => None
  end.

Definition set_speed_rounded (points : list Point) (td : Telemetry)
  : Telemetry :=
  match speed_of_rounded points with
  | None => td
  | Some v =>
      mkTelemetry (latitude td) (longitude td) (Some v)
        (off_path_error_m td) (steering_command td) (throttle_command td)
        (pitch_deg td) (pitch_min_deg td) (pitch_max_deg td)
        (roll_deg td) (roll_min_deg td) (roll_max_deg td)
  end.

Section PlainExtraction.

Variable env : Env.
Variable self : Extractor.

(** [_get_alarm_timestamps]: the same query as the locator of the
    extraction, sent without a checkpoint; the loop over the rows is
    [located]; every failure is logged and gives the empty list. *)
Definition _get_alarm_timestamps
           (start_time end_time : Z) (selected_alarms : list string)
           (selected_vehicles : option (list string)) : M (list Event) :=
  let start_str := PyTime.strftime_seconds start_time in
  let end_str := PyTime.strftime_seconds end_time in
  let alarm_conditions :=
    QueryText.alarm_conditions (ALARM_TYPES self) selected_alarms in
  match alarm_conditions with
  | [] => ret []
  | _ :: _ =>
      let alarm_filter := PyStr.join " OR " alarm_conditions in
      let vehicle_filter := QueryText.vehicle_filter selected_vehicles in
      let query :=
        QueryText.alarm_query start_str end_str alarm_filter
                              vehicle_filter in
      try_except
        (points <- _execute_query_with_cancellation env query
                     "alarm_events_query" ;;
         ret (located (ALARM_TYPES self) points))
        (fun _ => ret [])
  end.

(** One of the [try] blocks of [_get_telemetry_at_timestamp] and of
    [_get_attitude_data]: the query, the reduction of its rows, the pause;
    any failure is logged and leaves the dictionary as it was. *)
Definition plain_block (query query_name : string)
           (reduce : list Point -> Telemetry -> Telemetry)
           (telemetry_data : Telemetry) : M Telemetry :=
  try_except
    (points <- _execute_query_with_cancellation env query query_name ;;
     let updated := reduce points telemetry_data in
     sleep (query_delay self) ;;;
     ret updated)
    (fun _ => ret telemetry_data).

Definition _get_attitude_data (vehicle : option string)
           (start_str end_str : string) (telemetry_data : Telemetry)
  : M Telemetry :=
  let name := str_vehicle vehicle in
  let limit := max_points_per_query self in
  td <- plain_block (QueryText.pitch_query limit start_str end_str vehicle)
          ("pitch_query_" ++ name) Reduce.set_pitch telemetry_data ;;
  plain_block (QueryText.roll_query limit start_str end_str vehicle)
    ("roll_query_" ++ name) Reduce.set_roll td.

Definition _get_telemetry_at_timestamp (vehicle : option string)
           (timestamp : Z) : M Telemetry :=
  let start_str :=
    PyTime.strftime_micros (timestamp - telemetry_window self) in
  let end_str :=
    PyTime.strftime_micros (timestamp + telemetry_window self) in
  let name := str_vehicle vehicle in
  let limit := max_points_per_query self in
  td <- plain_block (QueryText.gps_query start_str end_str vehicle)
          ("GPS_query_" ++ name) Reduce.set_position telemetry_init ;;
  td <- plain_block (QueryText.speed_query_plain limit start_str end_str
                                                 vehicle)
          ("speed_query_" ++ name) set_speed_rounded td ;;
  td <- plain_block (QueryText.offpath_query limit start_str end_str vehicle)
          ("offpath_query_" ++ name) Reduce.set_offpath td ;;
  _get_attitude_data vehicle start_str end_str td.

End PlainExtraction.

(** A computation that never raises. *)
Definition never_raises {A} (m : M A) : Prop :=
  forall w, exists a, fst (m w) = Ok a.

(** A computation that, started with the cancellation flag set, returns
    [a] and leaves the flag set, the queries sent and the pauses as they
    were. *)
Definition idle_when_cancelled {A} (m : M A) (a : A) : Prop :=
  forall w, cancelled w = true ->
            fst (m w) = Ok a /\ cancelled (snd (m w)) = true /\
            issued (snd (m w)) = issued w /\ slept (snd (m w)) = slept w.



Module Fixture.

(** Every query is answered at once with two position rows. *)
Definition env_position : Env :=
  mkEnv (fun _ => false)
        (fun _ _ =>
           mkResponse 0
             (Rows [mkPoint Sample.t0 None None None
                            (Some (-318755 # 10000)%Q)
                            (Some (1162245 # 10000)%Q);
                    mkPoint (Sample.t0 + 1) None None None
                            (Some (-318756 # 10000)%Q) None])).

(** The extractor after [cancel()]. *)
Definition cancelled_world : World :=
  mkWorld true true 2 [connection_test] 0%Q false.

(** The rows of two alarms, the second without its vehicle tag. *)
Definition rows_unnamed : list Point :=
  [Sample.alarm_point (Sample.t0 + 1800000000) "Vehicle Off Path" "DT059";
   mkPoint (Sample.t0 + 600000000) (Some "off path alarm") None None None
           None].

(** The locator's query is answered with these rows, the other queries
    with no row. *)
Definition env_unnamed : Env :=
  mkEnv (fun _ => false)
        (fun n _ =>
           match n with
           | 1%nat => mkResponse 0 (Rows rows_unnamed)
           | _ => mkResponse 0 (Rows [])
           end).

(** The rows that [Sample.env_two_alarms] answers to the locator. *)
Definition rows_two_alarms : list Point :=
  [Sample.alarm_point (Sample.t0 + 1800000000) "Vehicle Off Path" "DT059";
   Sample.alarm_point (Sample.t0 + 600000000) "off path alarm" "DT059"].

End Fixture.

(** ** The catalog of alarm types ([alarm_extractor.py]) *)

Module Catalog.

(** The extractor with [self.ALARM_TYPES] replaced. *)
Definition with_alarm_types (types : list string) (self : Extractor)
  : Extractor :=
  mkExtractor types (query_delay self) (max_points_per_query self)
              (telemetry_window self).

Definition get_alarm_types (self : Extractor) : list string :=
  ALARM_TYPES self.

Definition get_default_alarm_types : list string := DEFAULT_ALARM_TYPES.

(** The loop of [set_alarm_types]: the entries that are not blank,
    stripped. *)
Fixpoint valid_types (alarm_types : list string) : list string :=
  match alarm_types with
  | [] => []
  | alarm_type :: rest =>
      if (0 <? String.length (strip alarm_type))%nat
      then strip alarm_type :: valid_types rest
      else valid_types rest
  end.

(** Each operation returns its result and the extractor as it leaves
    it. *)
Definition set_alarm_types (alarm_types : list string) (self : Extractor)
  : bool * Extractor :=
  match alarm_types with
  | [] => (true, with_alarm_types DEFAULT_ALARM_TYPES self)
  | _ :: _ =>
      match valid_types alarm_types with
      | [] => (false, self)
      | (_ :: _) as valid => (true, with_alarm_types valid self)
      end
  end.

Definition add_alarm_type (alarm_type : string) (self : Extractor)
  : bool * Extractor :=
  if (String.length (strip alarm_type) =? 0)%nat then (false, self)
  else
    let alarm_type := strip alarm_type in
    if PyStr.mem alarm_type (ALARM_TYPES self) then (false, self)
    else (true, with_alarm_types (ALARM_TYPES self ++ [alarm_type]) self).

(** [l.remove(x)] for a list that holds [x]: the first item equal to [x]
    goes. *)
Fixpoint remove (x : string) (l : list string) : list string :=
  match l with
  | [] => []
  | y :: rest => if String.eqb y x then rest else y :: remove x rest
  end.

Definition remove_alarm_type (alarm_type : string) (self : Extractor)
  : bool * Extractor :=
  if PyStr.mem alarm_type (ALARM_TYPES self)
  then (true, with_alarm_types (remove alarm_type (ALARM_TYPES self)) self)
  else (false, self).

Definition reset_to_defaults (self : Extractor) : bool * Extractor :=
  (true, with_alarm_types DEFAULT_ALARM_TYPES self).

End Catalog.

(** A string made of blanks only. *)
Fixpoint all_space (s : string) : bool :=
  match s with
  | EmptyString => true
  | String c s' => PyStr.is_space c && all_space s'
  end.

(** An entry with a character that is not a blank at either end; such an
    entry is not empty. *)
Definition trimmed (entry : string) : Prop :=
  ~ starts_blank entry /\ ~ ends_blank entry.

(** A catalog whose entries are all trimmed. *)
Definition tidy (catalog : list string) : Prop := Forall trimmed catalog.

(** ** The stored configuration ([alarm_config.py]) *)

Module AlarmTypeManager.

(** A value of the settings dictionary as JSON gives it; [JOther] stands
    for an array or an object. *)
Inductive JVal :=
| JNull
| JBool (b : bool)
| JInt (n : Z)
| JFloat (x : Q)
| JStr (s : string)
| JOther.

Definition Settings := gmap string JVal.

(** The configuration dictionary; a key that is missing is [None].  The
    two lists are lists of strings, as the manager writes them. *)
Record Config := mkConfig {
  default_alarm_types : option (list string);
  current_alarm_types : option (list string);
  extraction_settings : option Settings
}.

(** The configuration file: [content] is what [json.load] reads, [None]
    when the file is missing or cannot be read; [writable] tells whether
    the file can be opened for writing. *)
Record Disk := mkDisk { content : option Config; writable : bool }.

Definition default_settings : Settings :=
  <["query_delay_seconds" := JFloat (1 # 10)]>
    (<["max_points_per_query" := JInt 1000]>
       (<["telemetry_window_seconds" := JFloat (5 # 10)]>
          (<["description" :=
               JStr "Configurable settings for data extraction. query_delay_seconds controls the delay between InfluxDB queries to protect server performance. Lower values = faster extraction but higher server load."]>
             ∅))).

Definition _get_default_config : Config :=
  mkConfig (Some DEFAULT_ALARM_TYPES) (Some DEFAULT_ALARM_TYPES)
           (Some default_settings).

(** Any failure to load gives the default configuration. *)
Definition _load_config (d : Disk) : Config :=
  match content d with
  | Some config => config
  | None => _get_default_config
  end.

(** The error of [open] is raised again; the file is then as it was. *)
Definition _save_config (config : Config) (d : Disk) : Res unit * Disk :=
  if writable d then (Ok tt, mkDisk (Some config) true)
  else (Raise (mkExn Exception "Permission denied"), d).

Definition with_current (types : list string) (config : Config) : Config :=
  mkConfig (default_alarm_types config) (Some types)
           (extraction_settings config).

(** [try: ... self._save_config(config); return True
     except Exception: return False] *)
Definition saved (config : Config) (d : Disk) : bool * Disk :=
  match _save_config config d with
  | (Ok _, d') => (true, d')
  | (Raise _, d') => (false, d')
  end.

Definition get_current_alarm_types (d : Disk) : list string :=
  default [] (current_alarm_types (_load_config d)).

Definition get_default_alarm_types (d : Disk) : list string :=
  default [] (default_alarm_types (_load_config d)).

Definition set_alarm_types (alarm_types : list string) (d : Disk)
  : bool * Disk :=
  saved (with_current alarm_types (_load_config d)) d.

Definition add_alarm_type (alarm_type : string) (d : Disk) : bool * Disk :=
  let config := _load_config d in
  let current_types := default [] (current_alarm_types config) in
  if negb (PyStr.mem alarm_type current_types) then
    saved (with_current (current_types ++ [alarm_type]) config) d
  else (true, d).

Definition remove_alarm_type (alarm_type : string) (d : Disk)
  : bool * Disk :=
  let config := _load_config d in
  let current_types := default [] (current_alarm_types config) in
  if PyStr.mem alarm_type current_types then
    saved (with_current (Catalog.remove alarm_type current_types) config) d
  else (true, d).

(** [config["default_alarm_types"]] raises [KeyError] when the key is
    missing. *)
Definition reset_to_defaults (d : Disk) : bool * Disk :=
  let config := _load_config d in
  match default_alarm_types config with
  | Some defaults => saved (with_current defaults config) d
  | None => (false, d)
  end.

Record Stats := mkStats {
  current_count : nat;
  default_count : nat;
  is_using_defaults : bool;
  custom_additions : list string;
  removed_defaults : list string
}.

Definition get_stats (d : Disk) : Stats :=
  let config := _load_config d in
  let current_types := default [] (current_alarm_types config) in
  let default_types := default [] (default_alarm_types config) in
  mkStats (length current_types) (length default_types)
    (bool_decide (current_types = default_types))
    (List.filter (fun t => negb (PyStr.mem t default_types)) current_types)
    (List.filter (fun t => negb (PyStr.mem t current_types)) default_types).

Definition get_extraction_settings (d : Disk) : Settings :=
  default default_settings (extraction_settings (_load_config d)).

(** [isinstance(v, (int, float))]; a [bool] is an [int]. *)
Definition is_number (v : JVal) : bool :=
  match v with
  | JBool _ | JInt _ | JFloat _ => true
  | _ => false
  end.

(** [isinstance(v, int)] *)
Definition is_int (v : JVal) : bool :=
  match v with
  | JBool _ | JInt _ => true
  | _ => false
  end.

(** The value of a number in a comparison. *)
Definition number (v : JVal) : Q :=
  match v with
  | JBool b => if b then 1 else 0
  | JInt n => inject_Z n
  | JFloat x => x
  | _ => 0
  end.

Definition required_fields : list string :=
  ["query_delay_seconds"; "max_points_per_query";
   "telemetry_window_seconds"].

(** The checks of [update_extraction_settings]; each [raise ValueError]
    ends in the [except] clause, which returns [False]. *)
Definition valid_settings (settings : Settings) : bool :=
  forallb (fun field => bool_decide (is_Some (settings !! field)))
          required_fields
  && match settings !! "query_delay_seconds",
           settings !! "max_points_per_query",
           settings !! "telemetry_window_seconds" with
     | Some delay, Some points, Some window =>
         negb (negb (is_number delay) || PyNum.lt (number delay) 0)
         && negb (negb (is_int points) || PyNum.lt (number points) 1)
         && negb (negb (is_number window) || PyNum.lt (number window) 0)
     | _, _, _ => false
     end.

Definition update_extraction_settings (settings : Settings) (d : Disk)
  : bool * Disk :=
  let config := _load_config d in
  if valid_settings settings then
    saved (mkConfig (default_alarm_types config) (current_alarm_types config)
                    (Some settings)) d
  else (false, d).

End AlarmTypeManager.

(** ** The endpoints of the configuration ([main.py]) *)

Module Api.

Import AlarmTypeManager.

(** [POST /alarm-types]; [request] is the [alarm_types] key of the body.
    The [HTTPException] of the validation is caught by the [except
    Exception] of the endpoint and comes out as a 500. *)
Definition set_alarm_types (request : option (list string)) (d : Disk)
  : Reply (list string) * Disk :=
  let alarm_types := default [] request in
  match Catalog.valid_types alarm_types with
  | [] =>
      (HttpError 500
         "Failed to set alarm types: 400: No valid alarm types provided", d)
  | (_ :: _) as valid_types =>
      match AlarmTypeManager.set_alarm_types valid_types d with
      | (true, d') => (Http200 valid_types, d')
      | (false, d') =>
          (HttpError 500
             "Failed to set alarm types: 500: Failed to save alarm types to configuration",
           d')
      end
  end.

(** [POST /alarm-types/add]; [request] is the [alarm_type] key. *)
Definition add_alarm_type (request : option string) (d : Disk)
  : Reply (list string) * Disk :=
  let alarm_type := strip (default "" request) in
  if String.eqb alarm_type "" then
    (HttpError 400 "alarm_type is required", d)
  else if PyStr.mem alarm_type (get_current_alarm_types d) then
    (HttpError 409 ("Alarm type '" ++ alarm_type ++ "' already exists"), d)
  else
    match AlarmTypeManager.add_alarm_type alarm_type d with
    | (true, d') => (Http200 (get_current_alarm_types d'), d')
    | (false, d') =>
        (HttpError 500 "Failed to add alarm type to configuration", d')
    end.

(** [DELETE /alarm-types/{alarm_type}] *)
Definition remove_alarm_type (alarm_type : string) (d : Disk)
  : Reply (list string) * Disk :=
  let alarm_type := strip alarm_type in
  let current_types := get_current_alarm_types d in
  match current_types with
  | [] => (HttpError 404 "No alarm types configured", d)
  | _ :: _ =>
      if negb (PyStr.mem alarm_type current_types) then
        (HttpError 404 ("Alarm type '" ++ alarm_type ++ "' not found"), d)
      else
        match AlarmTypeManager.remove_alarm_type alarm_type d with
        | (true, d') => (Http200 (get_current_alarm_types d'), d')
        | (false, d') =>
            (HttpError 500 "Failed to remove alarm type from configuration",
             d')
        end
  end.

(** [POST /alarm-types/reset] *)
Definition reset_alarm_types (d : Disk) : Reply (list string) * Disk :=
  match AlarmTypeManager.reset_to_defaults d with
  | (true, d') => (Http200 (get_default_alarm_types d'), d')
  | (false, d') =>
      (HttpError 500
         "Failed to reset alarm types: 500: Failed to reset alarm types to defaults",
       d')
  end.

(** [POST /extraction-settings]; [request] is the [extraction_settings]
    key of the body, a dictionary. *)
Definition update_extraction_settings (request : option Settings) (d : Disk)
  : Reply Settings * Disk :=
  let settings := default ∅ request in
  match AlarmTypeManager.update_extraction_settings settings d with
  | (true, d') => (Http200 settings, d')
  | (false, d') =>
      (HttpError 500 "Failed to save extraction settings to configuration",
       d')
  end.

End Api.

(** The status code of a reply. *)
Definition status_code {A} (r : Reply A) : Z :=
  match r with
  | Http200 _ => 200
  | HttpError code _ => code
  end.

(** Settings that [update_extraction_settings] takes: the three fields
    are there, the delay and the window are numbers that are not negative,
    the number of points is an integer that is at least 1 (a JSON boolean
    counts as the integer 0 or 1). *)
Definition acceptable (settings : AlarmTypeManager.Settings) : Prop :=
  exists delay points window,
    settings !! "query_delay_seconds" = Some delay /\
    settings !! "max_points_per_query" = Some points /\
    settings !! "telemetry_window_seconds" = Some window /\
    AlarmTypeManager.is_number delay = true /\
    (0 <= AlarmTypeManager.number delay)%Q /\
    AlarmTypeManager.is_int points = true /\
    (1 <= AlarmTypeManager.number points)%Q /\
    AlarmTypeManager.is_number window = true /\
    (0 <= AlarmTypeManager.number window)%Q.

(** ** Stored results ([main.py]) *)

(** [GET /results/{job_id}] *)
Definition get_extraction_results (job_id : string) (srv : Server)
  : Reply AlarmExtractionResponse :=
  match extraction_results srv !! job_id with
  | None => HttpError 404 "Extraction results not found"
  | Some response => Http200 response
  end.

(** ** Shapes ([main.py]) *)

Module Geo.

Local Open Scope Q_scope.

(** What a call gives: a value, or one of the two errors that the ray
    casting can raise. *)
Inductive Error := IndexError | UnboundLocalError.

Inductive Result (A : Type) := Returns (a : A) | Raises (e : Error).
Arguments Returns {A} a.
Arguments Raises {A} e.

(** [min(a, b)] and [max(a, b)] on floats. *)
Definition min (a b : Q) : Q := if PyNum.lt b a then b else a.
Definition max (a b : Q) : Q := if PyNum.gt b a then b else a.

(** The abscissa at which the line through two vertices meets the
    horizontal of [y]. *)
Definition intersection (y : Q) (p1 p2 : Q * Q) : Q :=
  (y - snd p1) * (fst p2 - fst p1) / (snd p2 - snd p1) + fst p1.

(** The loop of [point_in_polygon] over the vertices that follow [p1];
    [xinters] is the local variable of that name, unbound until its first
    assignment, and keeps its value from one turn to the next. *)
Fixpoint ray_loop (x y : Q) (vertices : list (Q * Q)) (p1 : Q * Q)
         (xinters : option Q) (inside : bool) : Result bool :=
  match vertices with
  | [] => Returns inside
  | p2 :: rest =>
      if PyNum.gt y (min (snd p1) (snd p2)) then
        if Qle_bool y (max (snd p1) (snd p2)) then
          if Qle_bool x (max (fst p1) (fst p2)) then
            let xinters :=
              if negb (Qeq_bool (snd p1) (snd p2))
              then Some (intersection y p1 p2) else xinters in
            if Qeq_bool (fst p1) (fst p2) then
              ray_loop x y rest p2 xinters (negb inside)
            else
              match xinters with
              | None => Raises UnboundLocalError
              | Some xi =>
                  ray_loop x y rest p2 xinters
                           (if Qle_bool x xi then negb inside else inside)
              end
          else ray_loop x y rest p2 xinters inside
        else ray_loop x y rest p2 xinters inside
      else ray_loop x y rest p2 xinters inside
  end.

(** [point_in_polygon]: the vertices are pairs of a longitude and a
    latitude; the loop visits [polygon_coords[i % n]] for [i] from 1 to
    [n]. *)
Definition point_in_polygon (point_lat point_lon : Q)
           (polygon_coords : list (Q * Q)) : Result bool :=
  match polygon_coords with
  | [] => Raises IndexError
  | p0 :: rest => ray_loop point_lon point_lat (rest ++ [p0]) p0 None false
  end.

(** The geometry of a feature: the rings of a polygon, the polygons of a
    multi-polygon, [null], or another type of geometry. *)
Inductive Geometry :=
| Polygon (coordinates : list (list (Q * Q)))
| MultiPolygon (coordinates : list (list (list (Q * Q))))
| NullGeometry
| OtherGeometry.

(** A feature whose [properties] is an object; the three properties are
    strings or missing. *)
Record Feature := mkFeature {
  geometry : Geometry;
  AsiName : option string;
  Name : option string;
  name : option string
}.

(** [a or b] on values that are strings or [None]. *)
Definition or_else (a b : option string) : option string :=
  match a with
  | Some s => if String.eqb s "" then b else a
  | None => b
  end.

Definition shape_name (f : Feature) : string :=
  default "Unnamed Shape"
          (or_else (AsiName f)
             (or_else (Name f) (or_else (name f) (Some "Unnamed Shape")))).

(** The loop over the polygons of a multi-polygon: [Returns true] when
    the outer ring of one of them holds the point. *)
Fixpoint any_polygon (lat lon : Q) (multi_coords : list (list (list (Q * Q))))
  : Result bool :=
  match multi_coords with
  | [] => Returns false
  | polygon_coords :: rest =>
      match polygon_coords with
      | [] => any_polygon lat lon rest
      | ring :: _ =>
          match point_in_polygon lat lon ring with
          | Raises e => Raises e
          | Returns true => Returns true
          | Returns false => any_polygon lat lon rest
          end
      end
  end.

(** The loop over the features; [None] stands for the [AttributeError]
    of a [null] geometry. *)
Fixpoint search (lat lon : Q) (features : list Feature)
  : option (Result string) :=
  match features with
  | [] => Some (Returns "")
  | feature :: rest =>
      match geometry feature with
      | Polygon [] => search lat lon rest
      | Polygon (ring :: _) =>
          match point_in_polygon lat lon ring with
          | Raises e => Some (Raises e)
          | Returns true => Some (Returns (shape_name feature))
          | Returns false => search lat lon rest
          end
      | MultiPolygon multi_coords =>
          match any_polygon lat lon multi_coords with
          | Raises e => Some (Raises e)
          | Returns true => Some (Returns (shape_name feature))
          | Returns false => search lat lon rest
          end
      | NullGeometry => None
      | OtherGeometry => search lat lon rest
      end
  end.

(** [not v] for a float that may be [None]. *)
Definition falsy (v : option Q) : bool :=
  match v with
  | None => true
  | Some q => Qeq_bool q 0
  end.

(** [find_shape_name]; [geo_json_data] is the list of features of the
    collection, [None] when there is no collection. *)
Definition find_shape_name (lat lon : option Q)
           (geo_json_data : option (list Feature)) : string :=
  match geo_json_data, lat, lon with
  | Some features, Some la, Some lo =>
      if falsy lat || falsy lon then ""
      else
        match search la lo features with
        | Some (Returns shape) => shape
        | _ => ""
        end
  | _, _, _ => ""
  end.

(** The edges of a ring, each vertex with the next one, the last with
    the first. *)
Definition edges (ring : list (Q * Q)) : list ((Q * Q) * (Q * Q)) :=
  match ring with
  | [] => []
  | p0 :: rest => combine ring (rest ++ [p0])
  end.

(** The half-line from the point towards greater abscissas meets the
    edge, by the tests of the loop. *)
Definition crosses (x y : Q) (edge : (Q * Q) * (Q * Q)) : bool :=
  let '(p1, p2) := edge in
  PyNum.gt y (min (snd p1) (snd p2))
  && Qle_bool y (max (snd p1) (snd p2))
  && Qle_bool x (max (fst p1) (fst p2))
  && (Qeq_bool (fst p1) (fst p2) || Qle_bool x (intersection y p1 p2)).

(** The parity of the number of [true] in a list. *)
Definition odd_count (l : list bool) : bool := fold_left xorb l false.

End Geo.

(** The ring of the box with the corners [(x0, y0)] and [(x1, y1)],
    closed as GeoJSON has it: the first vertex comes again at the end. *)
Definition box_ring (x0 y0 x1 y1 : Q) : list (Q * Q) :=
  [(x0, y0); (x1, y0); (x1, y1); (x0, y1); (x0, y0)].

(** A feature does not hold the point: the search goes on after it. *)
Definition passes_by (lat lon : Q) (feature : Geo.Feature) : Prop :=
  Geo.search lat lon [feature] = Some (Geo.Returns "").

(** ** The validators of hosts and asset identifiers ([models.py]) *)

Module Re.

Fixpoint all_in (cls : ascii -> bool) (s : string) : bool :=
  match s with
  | EmptyString => true
  | String c s' => cls c && all_in cls s'
  end.

(** The string without its last character, when that is a newline. *)
Fixpoint before_final_newline (s : string) : option string :=
  match s with
  | EmptyString => None
  | String c EmptyString =>
      if Ascii.eqb c (ascii_of_N 10) then Some "" else None
  | String c s' =>
      match before_final_newline s' with
      | Some t => Some (String c t)
      | None => None
      end
  end.

(** [re.match(r'^[...]+$', s)] for a character class: one or more
    characters of the class up to the end of the string, where [$] also
    matches just before a newline that ends the string. *)
Definition match_plus (cls : ascii -> bool) (s : string) : bool :=
  let plus t := negb (String.eqb t "") && all_in cls t in
  plus s
  || match before_final_newline s with
     | Some t => plus t
     | None => false
     end.

Definition is_lower (c : ascii) : bool :=
  ((97 <=? N_of_ascii c) && (N_of_ascii c <=? 122))%N.

Definition is_digit (c : ascii) : bool :=
  ((48 <=? N_of_ascii c) && (N_of_ascii c <=? 57))%N.


(** [[A-Z0-9_-]] *)
Definition asset_char (c : ascii) : bool :=
  PyStr.is_upper c || is_digit c || Ascii.eqb c "_" || Ascii.eqb c "-".

End Re.

Definition upper_char (c : ascii) : ascii :=
  if Re.is_lower c then ascii_of_N (N_of_ascii c - 32) else c.

(** [s.upper()] on the ASCII range. *)
Fixpoint upper (s : string) : string :=
  match s with
  | EmptyString => EmptyString
  | String c s' => String (upper_char c) (upper s')
  end.


(** The loop of [AssetFilter.validate_asset_ids]. *)
Fixpoint validate_each (v validated_assets : list string)
  : Res (list string) :=
  match v with
  | [] => Ok validated_assets
  | asset_id :: rest =>
      if String.eqb asset_id "" then
        Raise (mkExn ValueError "Asset IDs must be non-empty strings")
      else
        let asset_id := upper (strip asset_id) in
        if (20 <? String.length asset_id)%nat then
          Raise (mkExn ValueError
                   ("Asset ID too long: " ++ asset_id
                      ++ " (max 20 characters)"))
        else if negb (Re.match_plus Re.asset_char asset_id) then
          Raise (mkExn ValueError
                   ("Invalid asset ID format: " ++ asset_id
                      ++ " (use alphanumeric, underscore, dash only)"))
        else validate_each rest (validated_assets ++ [asset_id])
  end.

(** [AssetFilter.validate_asset_ids] *)
Definition validate_asset_ids (v : list string) : Res (list string) :=
  if (100 <? length v)%nat then
    Raise (mkExn ValueError "Too many specific assets (max 100 allowed)")
  else validate_each v [].

(** An identifier as [validate_asset_ids] lets it through. *)
Definition asset_id_ok (asset_id : string) : Prop :=
  asset_id <> "" /\ (String.length asset_id <= 20)%nat /\
  Re.all_in Re.asset_char asset_id = true.

(** The events of a job in a run where nobody cancels: the rows that the
    store answers to the locator's query, sent as the query number 1 after
    the smoke test of the connection, classified. *)
Definition job_events (env : Env) (self : Extractor) (job : JobData)
  : list Event :=
  located (ALARM_TYPES self)
          (rows_of (store env 1 (locator_query self (request job)))).

(** The response model of an event has the fields of the event. *)
Definition same_event (ev : Event) (model : AlarmEvent) : Prop :=
  ae_alarm_type model = alarm_type ev /\
  Some (ae_vehicle model) = vehicle ev /\
  ae_timestamp model = timestamp ev /\ ae_title model = title ev.

(** The lower bound of [validate_time_range] on binary64 floats: the
    test [duration_hours < 0.002] for a range of so many seconds. *)
Module Binary64Range.

#[local] Set Warnings "-inexact-float".

Definition too_short (seconds : float) : bool :=
  PrimFloat.ltb (PrimFloat.div seconds 3600%float) 0.002%float.

Definition samples : list float :=
  [6.0%float; 7.199999%float; 7.2%float; 7.200001%float].

End Binary64Range.

(** * Properties *)

(** ** Strings *)

Lemma startswith_spec (p s : string) :
  PyStr.startswith p s = true <-> exists post, s = p ++ post.
Proof.
  revert s; induction p as [|a p IH]; intros s; simpl.
  - split; [intros _; now exists s | reflexivity].
  - destruct s as [|b s]; simpl.
    + split; [discriminate | intros [post H]; discriminate].
    + rewrite andb_true_iff, IH. split.
      * intros [Hab [post ->]]. apply Ascii.eqb_eq in Hab. subst b.
        now exists post.
      * intros [post H]. injection H as -> ->. split.
        -- apply Ascii.eqb_refl.
        -- now exists post.
Qed.

Lemma contains_spec (k s : string) :
  PyStr.contains k s = true <-> PyStr.occurs_in k s.
Proof.
  unfold PyStr.occurs_in. split.
  - induction s as [|c s IH]; simpl; rewrite orb_true_iff.
    + intros [H | H]; [|discriminate].
      apply startswith_spec in H as [post ->]. now exists "", post.
    + intros [H | H].
      * apply startswith_spec in H as [post ->]. now exists "", post.
      * destruct (IH H) as (pre & post & ->).
        now exists (String c pre), post.
  - intros (pre & post & ->).
    induction pre as [|c pre IH]; simpl.
    + assert (H : PyStr.startswith k (k ++ post) = true)
        by (apply startswith_spec; now exists post).
      destruct (k ++ post); simpl; rewrite H; reflexivity.
    + rewrite IH. apply orb_true_r.
Qed.

Lemma append_assoc (a b c : string) : (a ++ b) ++ c = a ++ (b ++ c).
Proof.
  induction a as [|x a IH]; [reflexivity|].
  change (String x ((a ++ b) ++ c) = String x (a ++ (b ++ c))).
  now rewrite IH.
Qed.

Lemma app_empty_r (s : string) : s ++ "" = s.
Proof.
  induction s as [|c s IH]; [reflexivity|].
  change (String c (s ++ "") = String c s). now rewrite IH.
Qed.

Lemma app_cons (c : ascii) (a b : string) :
  String c a ++ b = String c (a ++ b).
Proof. reflexivity. Qed.

Lemma no_space_app (a b : string) :
  PyStr.no_space (a ++ b) = PyStr.no_space a && PyStr.no_space b.
Proof.
  induction a as [|c a IH]; [reflexivity|].
  rewrite app_cons. simpl. now rewrite IH, andb_assoc.
Qed.

Lemma ends_blank_cons (c : ascii) (s : string) :
  ends_blank s -> ends_blank (String c s).
Proof.
  intros (s' & x & -> & Hx). exists (String c s'), x. now split.
Qed.

Lemma ends_blank_single (c : ascii) :
  PyStr.is_space c = true -> ends_blank (String c "").
Proof. intros H. exists "", c. now split. Qed.

Lemma ends_blank_uncons (c : ascii) (s : string) :
  ends_blank (String c s) ->
  (s = "" /\ PyStr.is_space c = true) \/ ends_blank s.
Proof.
  intros (s' & x & E & Hx). destruct s' as [|y s'].
  - simpl in E. injection E as -> <-. now left.
  - rewrite app_cons in E. injection E as -> ->. right.
    now exists s', x.
Qed.

Lemma ends_blank_nonempty (s : string) : ends_blank s -> s <> "".
Proof. intros (s' & x & -> & _). now destruct s'. Qed.

Lemma app_eq_empty (a b : string) : a ++ b = "" -> a = "" /\ b = "".
Proof. destruct a; [simpl; auto | discriminate]. Qed.

(** The words that [split_from cur s] returns: the word that continues
    [cur], and the words that start later in [s]. *)
Lemma split_from_spec (s cur k : string) :
  PyStr.no_space cur = true ->
  In k (PyStr.split_from cur s) <->
  (k <> "" /\ exists w post, s = w ++ post /\ PyStr.no_space w = true /\
                          starts_blank post /\ k = cur ++ w) \/
  (k <> "" /\ PyStr.no_space k = true /\
   exists pre post, s = pre ++ k ++ post /\ ends_blank pre /\
                    starts_blank post).
Proof.
  revert cur. induction s as [|c s IH]; intros cur Hcur.
  - simpl. split.
    + destruct (String.eqb_spec cur ""); [intros []|].
      intros [<- | []]. left. split; [assumption|].
      exists "", "". repeat split. symmetry. apply app_empty_r.
    + intros [(Hk & w & post & E & _ & _ & ->)
             | (_ & _ & pre & post & E & Hp & _)].
      * symmetry in E. apply app_eq_empty in E as (-> & _).
        rewrite app_empty_r in *.
        destruct (String.eqb_spec cur ""); [contradiction | now left].
      * symmetry in E. apply app_eq_empty in E as (-> & _).
        now apply ends_blank_nonempty in Hp.
  - simpl. destruct (PyStr.is_space c) eqn:Hc.
    + (* a blank closes the current word *)
      assert (Hrest : In k (PyStr.split_from "" s) <->
                (k <> "" /\ PyStr.no_space k = true /\
                 exists pre post, String c s = pre ++ k ++ post /\
                                  ends_blank pre /\ starts_blank post)).
      { rewrite (IH "" eq_refl). split.
        - intros [(Hk & w & post & -> & Hw & Hp & ->)
                 | (Hk & Hn & pre & post & -> & Hpre & Hp)].
          + split; [assumption|]. split; [assumption|].
            exists (String c ""), post. repeat split; try assumption.
            now apply ends_blank_single.
          + split; [assumption|]. split; [assumption|].
            exists (String c pre), post. repeat split; try assumption.
            now apply ends_blank_cons.
        - intros (Hk & Hn & pre & post & E & Hpre & Hp).
          destruct pre as [|x pre];
            [now apply ends_blank_nonempty in Hpre|].
          rewrite app_cons in E. injection E as <- ->.
          apply ends_blank_uncons in Hpre as [(-> & _) | Hpre].
          + left. split; [assumption|]. exists k, post. now repeat split.
          + right. split; [assumption|]. split; [assumption|].
            exists pre, post. now repeat split. }
      assert (Hcurr : forall w post, String c s = w ++ post ->
                        PyStr.no_space w = true -> w = "").
      { intros w post E Hw. destruct w as [|x w]; [reflexivity|].
        rewrite app_cons in E. injection E as <- _.
        simpl in Hw. rewrite Hc in Hw. discriminate. }
      split.
      * intros Hin.
        assert (Hcases : (cur <> "" /\ k = cur) \/
                         In k (PyStr.split_from "" s)).
        { destruct (String.eqb_spec cur ""); [now right|].
          destruct Hin as [<- | Hin]; [left | right]; auto. }
        destruct Hcases as [(Hne & ->) | Hin'].
        -- left. split; [assumption|]. exists "", (String c s).
           repeat split; [exact Hc | symmetry; apply app_empty_r].
        -- right. now apply Hrest.
      * intros [(Hk & w & post & E & Hw & Hp & ->) | Hright].
        -- rewrite (Hcurr w post E Hw), app_empty_r in *.
           destruct (String.eqb_spec cur ""); [contradiction | now left].
        -- apply Hrest in Hright.
           destruct (String.eqb_spec cur ""); [assumption | now right].
    + (* a character of the current word *)
      assert (Hcur' : PyStr.no_space (cur ++ String c "") = true).
      { rewrite no_space_app, Hcur. simpl. now rewrite Hc. }
      rewrite (IH _ Hcur'). split.
      * intros [(Hk & w & post & -> & Hw & Hp & ->)
               | (Hk & Hn & pre & post & -> & Hpre & Hp)].
        -- left. split; [assumption|]. exists (String c w), post.
           repeat split; try assumption.
           ++ simpl. now rewrite Hc.
           ++ now rewrite append_assoc.
        -- right. split; [assumption|]. split; [assumption|].
           exists (String c pre), post. repeat split; try assumption.
           now apply ends_blank_cons.
      * intros [(Hk & w & post & E & Hw & Hp & ->)
               | (Hk & Hn & pre & post & E & Hpre & Hp)].
        -- destruct w as [|x w].
           ++ change ("" ++ post) with post in E. rewrite <- E in Hp.
              simpl in Hp. congruence.
           ++ rewrite app_cons in E. injection E as <- ->.
              left. split; [assumption|].
              exists w, post. simpl in Hw. rewrite Hc in Hw.
              repeat split; try assumption. now rewrite append_assoc.
        -- destruct pre as [|x pre];
             [now apply ends_blank_nonempty in Hpre|].
           rewrite app_cons in E. injection E as <- ->.
           apply ends_blank_uncons in Hpre as [(-> & Hx) | Hpre];
             [congruence|].
           right. split; [assumption|]. split; [assumption|].
           exists pre, post. now repeat split.
Qed.

(** [s.split()] returns exactly the blank-delimited keywords of [s]. *)
Lemma split_spec (s k : string) : In k (PyStr.split s) <-> is_keyword k s.
Proof.
  unfold PyStr.split, is_keyword. rewrite (split_from_spec s "" k eq_refl).
  split.
  - intros [(Hk & w & post & -> & Hw & Hp & ->)
           | (Hk & Hn & pre & post & -> & Hpre & Hp)].
    + split; [assumption|]. split; [assumption|].
      exists "", post. repeat split; auto.
    + split; [assumption|]. split; [assumption|].
      exists pre, post. repeat split; auto.
  - intros (Hk & Hn & pre & post & -> & [-> | Hpre] & Hp).
    + left. split; [assumption|]. exists k, post. now repeat split.
    + right. split; [assumption|]. split; [assumption|].
      exists pre, post. now repeat split.
Qed.

Lemma keywords_match_spec (entry title : string) :
  keywords_match entry (PyStr.lower title) = true <-> qualifies entry title.
Proof.
  unfold keywords_match, qualifies. rewrite forallb_forall.
  split; intros H k Hk.
  - apply contains_spec, H, split_spec, Hk.
  - apply contains_spec, H, split_spec, Hk.
Qed.

(** ** The classifier *)

(** C1. For every title and every catalog, the classifier returns the
    entry of lowest index all of whose lowercase blank-delimited keywords
    occur as substrings of the lowered title, in the order of the catalog,
    and returns nothing exactly when no entry qualifies.  The keywords of
    an entry are the maximal runs of non-blank characters of its lowered
    text ([split_spec]). *)
Theorem classify_returns_first_qualifying_entry
        (catalog : list string) (title : string) :
  match _classify_alarm catalog title with
  | Some a =>
      exists i, nth_error catalog i = Some a /\ qualifies a title /\
                forall j b, (j < i)%nat -> nth_error catalog j = Some b ->
                            ~ qualifies b title
  | None => forall a, In a catalog -> ~ qualifies a title
  end.
Proof.
  unfold _classify_alarm.
  induction catalog as [|t types IH]; simpl.
  - intros a [].
  - destruct (keywords_match t (PyStr.lower title)) eqn:Hm.
    + exists 0%nat. split; [reflexivity|]. split.
      * now apply keywords_match_spec.
      * intros j b Hj. lia.
    + assert (Hnot : ~ qualifies t title).
      { intros Hq. apply keywords_match_spec in Hq. congruence. }
      destruct (classify_loop types (PyStr.lower title)) as [a|].
      * destruct IH as (i & Hi & Hq & Hfirst).
        exists (S i). split; [exact Hi|]. split; [exact Hq|].
        intros [|j] b Hj Hb; simpl in Hb.
        -- injection Hb as <-. exact Hnot.
        -- apply (Hfirst j b); [lia | exact Hb].
      * intros a [<- | Ha]; [exact Hnot | now apply IH].
Qed.

(** ** Numbers *)

Lemma gt_true (x y : Q) : PyNum.gt x y = true <-> (y < x)%Q.
Proof.
  unfold PyNum.gt. rewrite negb_true_iff. split.
  - intros H. apply Qnot_le_lt. intros Hle. apply Qle_bool_iff in Hle.
    congruence.
  - intros H. destruct (Qle_bool x y) eqn:E; [|reflexivity].
    apply Qle_bool_iff in E. exfalso. exact (Qlt_not_le _ _ H E).
Qed.

Lemma gt_false (x y : Q) : PyNum.gt x y = false <-> (x <= y)%Q.
Proof.
  unfold PyNum.gt. rewrite negb_false_iff. apply Qle_bool_iff.
Qed.

Lemma lt_true (x y : Q) : PyNum.lt x y = true <-> (x < y)%Q.
Proof. unfold PyNum.lt. apply (gt_true y x). Qed.

Lemma lt_false (x y : Q) : PyNum.lt x y = false <-> (y <= x)%Q.
Proof. unfold PyNum.lt. apply (gt_false y x). Qed.

Lemma max_from_spec (l : list Q) (m : Q) :
  In (PyNum.max_from m l) (m :: l) /\
  forall x, In x (m :: l) -> (x <= PyNum.max_from m l)%Q.
Proof.
  revert m. induction l as [|y l IH]; intros m; unfold PyNum.max_from; simpl.
  - split; [now left|]. intros x [<- | []]. apply Qle_refl.
  - fold (PyNum.max_from (if PyNum.gt y m then y else m) l).
    destruct (IH (if PyNum.gt y m then y else m)) as [Hin Hle].
    split.
    + destruct Hin as [Hin | Hin]; [|now right; right].
      rewrite <- Hin. destruct (PyNum.gt y m); [right; now left | now left].
    + intros x Hx.
      assert (Hm : (m <= PyNum.max_from (if PyNum.gt y m then y else m) l)%Q).
      { destruct (PyNum.gt y m) eqn:E.
        - apply gt_true in E. apply Qle_trans with y.
          + now apply Qlt_le_weak.
          + apply Hle. now left.
        - apply Hle. now left. }
      assert (Hy : (y <= PyNum.max_from (if PyNum.gt y m then y else m) l)%Q).
      { destruct (PyNum.gt y m) eqn:E.
        - apply Hle. now left.
        - apply gt_false in E. apply Qle_trans with m; [exact E|].
          apply Hle. now left. }
      destruct Hx as [<- | [<- | Hx]]; [exact Hm | exact Hy |].
      apply Hle. now right.
Qed.


Lemma maximum_spec (l : list Q) :
  match Reduce.maximum l with
  | Some m => is_greatest m l
  | None => l = []
  end.
Proof. destruct l as [|x l]; simpl; [reflexivity | apply max_from_spec]. Qed.


(** [round_half_even] is within one half of its argument. *)
Lemma round_half_even_near (q : Q) :
  (Qabs (q - inject_Z (PyNum.round_half_even q)) <= 1 # 2)%Q.
Proof.
  unfold PyNum.round_half_even.
  pose proof (Qfloor_le q) as Hlo. pose proof (Qlt_floor q) as Hhi.
  set (f := Qfloor q) in *.
  rewrite inject_Z_plus in Hhi.
  destruct (Qcompare (q - inject_Z f) (1 # 2)) eqn:E.
  - apply Qeq_alt in E.
    destruct (Z.even f).
    + rewrite E. apply Qle_refl.
    + rewrite inject_Z_plus. apply Qabs_Qle_condition. split.
      * assert (H : (q - (inject_Z f + inject_Z 1)
                     == (q - inject_Z f) - 1)%Q) by ring.
        rewrite H, E. discriminate.
      * assert (H : (q - (inject_Z f + inject_Z 1)
                     == (q - inject_Z f) - 1)%Q) by ring.
        rewrite H, E. discriminate.
  - apply Qlt_alt in E. apply Qabs_Qle_condition. split.
    + apply Qle_trans with 0%Q; [discriminate|].
      rewrite <- (Qplus_opp_r (inject_Z f)).
      apply Qplus_le_l. exact Hlo.
    + now apply Qlt_le_weak.
  - apply Qgt_alt in E. rewrite inject_Z_plus.
    assert (H : (q - (inject_Z f + inject_Z 1)
                 == (q - inject_Z f) - 1)%Q) by ring.
    rewrite H. apply Qabs_Qle_condition. split.
    + apply Qlt_le_weak.
      assert (H1 : (- (1 # 2) == (1 # 2) - 1)%Q) by reflexivity.
      rewrite H1. apply Qplus_lt_l. exact E.
    + apply Qle_trans with 0%Q; [|discriminate].
      apply Qlt_le_weak.
      assert (H0 : (0 == (inject_Z f + inject_Z 1) - inject_Z f - 1)%Q)
        by (unfold inject_Z at 2; ring).
      rewrite H0. apply Qplus_lt_l. apply Qplus_lt_l. exact Hhi.
Qed.

Lemma round2_spec (q : Q) : rounded_to_hundredths q (PyNum.round2 q).
Proof.
  exists (PyNum.round_half_even (q * 100)). split; [reflexivity|].
  apply round_half_even_near.
Qed.

(** ** The gateway when nobody cancels *)

Lemma advanced_refl (w : World) : cancelled w = false -> advanced [] w w.
Proof. intros H. unfold advanced. now rewrite app_nil_r. Qed.

Lemma advanced_trans (q1 q2 : list string) (w w1 w2 : World) :
  advanced q1 w w1 -> advanced q2 w1 w2 -> advanced (q1 ++ q2) w w2.
Proof.
  intros (a1 & b1 & c1 & d1) (a2 & b2 & c2 & d2). unfold advanced.
  rewrite a2, b2, c2, d2, b1, c1, d1, app_assoc. auto.
Qed.

Section Quiet.

Variable env : Env.
Hypothesis Hquiet : quiet env.

Lemma read_cancelled_quiet (w : World) :
  cancelled w = false ->
  exists w', read_cancelled env w = (Ok false, w') /\ advanced [] w w'.
Proof.
  intros H. unfold read_cancelled. rewrite H, Hquiet. simpl.
  eexists. split; [reflexivity|]. unfold advanced. simpl.
  now rewrite app_nil_r, orb_false_r.
Qed.

Lemma cancel_requested_quiet (check : CancelCheck) (w : World) :
  never check -> cancelled w = false ->
  exists w', cancel_requested env check w = (Ok false, w') /\
             advanced [] w w'.
Proof.
  intros Hn H. unfold cancel_requested, bind.
  destruct (read_cancelled_quiet w H) as (w1 & -> & Ha).
  destruct check as [f|]; simpl in *.
  - rewrite Hn. eexists. split; [reflexivity|].
    destruct Ha as (a & b & c & d). unfold advanced. simpl.
    now rewrite orb_false_r.
  - exists w1. now split.
Qed.

Lemma future_result_eq (future : Response) (deadline : nat) (w : World) :
  future_result future deadline w =
    (if (latency future <=? deadline)%nat
     then match outcome future with
          | Rows points => Ok points
          | Failure m => Raise (mkExn Exception m)
          end
     else Raise (mkExn FutureTimeoutError ""), w).
Proof.
  unfold future_result.
  destruct (latency future <=? deadline)%nat; [|reflexivity].
  now destruct (outcome future).
Qed.

(** The waiting loop returns the outcome as soon as a deadline reaches
    the latency, and times out when none does. *)
Lemma wait_loop_quiet (elapsed : list nat) (future : Response)
      (name : string) (w : World) :
  cancelled w = false ->
  exists w',
    wait_loop env elapsed future name w =
      (if existsb (fun e => latency future <=? e + timeout_interval)%nat
                  elapsed
          || (latency future <=? query_timeout + 1)%nat
       then match outcome future with
            | Rows points => Ok points
            | Failure m => Raise (mkExn Exception m)
            end
       else Raise (mkExn FutureTimeoutError ""), w') /\
    advanced [] w w'.
Proof.
  revert w. induction elapsed as [|e rest IH]; intros w H; simpl.
  - unfold bind. destruct (read_cancelled_quiet w H) as (w1 & -> & Ha).
    simpl. exists w1. split; [|exact Ha].
    now rewrite future_result_eq.
  - unfold bind. destruct (read_cancelled_quiet w H) as (w1 & -> & Ha).
    simpl. unfold try_except. rewrite future_result_eq.
    destruct (latency future <=? e + timeout_interval)%nat; simpl.
    + exists w1. split; [|exact Ha]. now destruct (outcome future).
    + destruct (IH w1) as (w2 & -> & Hb); [apply Ha|].
      exists w2. split; [reflexivity|].
      apply (advanced_trans [] [] w w1 w2 Ha Hb).
Qed.

Lemma deadlines_covered (l : nat) :
  existsb (fun e => l <=? e + timeout_interval)%nat
          (range0 query_timeout timeout_interval)
    || (l <=? query_timeout + 1)%nat
  = (l <=? query_timeout + 1)%nat.
Proof.
  destruct (l <=? query_timeout + 1)%nat eqn:E; [apply orb_true_r|].
  rewrite orb_false_r. apply Nat.leb_gt in E.
  unfold range0, query_timeout, timeout_interval in *. simpl.
  repeat match goal with
         | |- context [(l <=? ?n)%nat] =>
             let F := fresh in
             destruct (l <=? n)%nat eqn:F;
             [apply Nat.leb_le in F; lia | clear F]
         end.
  reflexivity.
Qed.

#[local] Arguments wait_loop : simpl never.

Lemma execute_quiet (query name : string) (w : World) :
  cancelled w = false ->
  exists w',
    _execute_query_with_cancellation env query name w =
      (gateway_result (store env (length (issued w)) query) name, w') /\
    advanced [query] w w'.
Proof.
  intros H. unfold _execute_query_with_cancellation, bind at 1.
  destruct (read_cancelled_quiet w H) as (w1 & -> & Ha). simpl.
  unfold try_except, bind, submit. cbv beta iota.
  set (w2 := mkWorld (cancelled w1) (client w1) (clock w1)
                     (issued w1 ++ [query]) (slept w1) (observed w1)).
  assert (Hw2 : advanced [query] w w2).
  { destruct Ha as (a & b & c & d). unfold advanced, w2. simpl.
    rewrite c, app_nil_r. auto. }
  assert (Hlen : length (issued w1) = length (issued w)).
  { destruct Ha as (_ & _ & c & _). now rewrite c, app_nil_r. }
  rewrite Hlen. set (r := store env (length (issued w)) query).
  destruct (wait_loop_quiet (range0 query_timeout timeout_interval) r name w2)
    as (w3 & -> & Hb); [apply Hw2|].
  rewrite deadlines_covered. unfold gateway_result.
  assert (Hw3 : advanced [query] w w3).
  { apply (advanced_trans [query] [] w w2 w3) in Hb; [|exact Hw2].
    now rewrite app_nil_r in Hb. }
  destruct (latency r <=? query_timeout + 1)%nat.
  - destruct (outcome r) as [points | m] eqn:Ho.
    + exists w3. now split.
    + cbn [exn_class]. unfold bind.
      destruct (read_cancelled_quiet w3) as (w4 & -> & Hc);
        [apply Hw3|].
      unfold mentions_cancelled. cbn [exn_msg orb].
      apply (advanced_trans [query] [] w w3 w4) in Hc; [|exact Hw3].
      rewrite app_nil_r in Hc.
      destruct (PyStr.contains "cancelled" (PyStr.lower m));
        exists w4; now split.
  - simpl. exists w3. now split.
Qed.

Lemma query_quiet (query name : string) (w : World) :
  cancelled w = false ->
  exists w',
    _query_with_cancellation env query name w =
      (gateway_result (store env (length (issued w)) query) name, w') /\
    advanced [query] w w'.
Proof.
  intros H. unfold _query_with_cancellation, bind at 1.
  destruct (read_cancelled_quiet w H) as (w1 & -> & Ha). simpl.
  unfold try_except, bind.
  destruct (execute_quiet query name w1) as (w2 & -> & Hb); [apply Ha|].
  assert (Hlen : length (issued w1) = length (issued w)).
  { destruct Ha as (_ & _ & c & _). now rewrite c, app_nil_r. }
  rewrite Hlen.
  pose proof (advanced_trans [] [query] w w1 w2 Ha Hb) as Hw2.
  simpl in Hw2.
  destruct (read_cancelled_quiet w2) as (w3 & E3 & Hc); [apply Hw2|].
  pose proof (advanced_trans [query] [] w w2 w3 Hw2 Hc) as Hw3.
  rewrite app_nil_r in Hw3.
  destruct (gateway_result _ name) as [points | e]; rewrite E3; simpl;
    exists w3; now split.
Qed.

End Quiet.

(** ** The correlator when nobody cancels *)

Lemma timeout_message_calm (label name : string) :
  In label ["GPS query for "; "speed query for "; "off-path query for ";
            "pitch query for "; "roll query for "] ->
  PyStr.contains "cancelled"
    (PyStr.lower ("Query timeout after 10s: " ++ label ++ name))
  = PyStr.contains "cancelled" (PyStr.lower name).
Proof.
  intros [<- | [<- | [<- | [<- | [<- | []]]]]]; reflexivity.
Qed.

Section QuietCorrelator.

Variable env : Env.
Variable self : Extractor.
Hypothesis Hquiet : quiet env.
Hypothesis Hbenign : benign env.

Lemma telemetry_block_quiet (check : CancelCheck)
      (before during query name : string)
      (reduce : list Point -> Telemetry -> Telemetry) (td : Telemetry)
      (w : World) :
  never check -> cancelled w = false ->
  PyStr.contains "cancelled"
    (PyStr.lower ("Query timeout after 10s: " ++ name)) = false ->
  exists w',
    telemetry_block env self check before during query name reduce td w
    = (Ok (apply_answer reduce (store env (length (issued w)) query) td),
       w') /\
    advanced [query] w w'.
Proof.
  intros Hn H Hname. unfold telemetry_block, try_except, bind.
  destruct (cancel_requested_quiet env Hquiet check w Hn H)
    as (w1 & -> & Ha).
  destruct (query_quiet env Hquiet query name w1)
    as (w2 & -> & Hb); [apply Ha|].
  assert (Hlen : length (issued w1) = length (issued w)).
  { destruct Ha as (_ & _ & c & _). now rewrite c, app_nil_r. }
  rewrite Hlen. set (r := store env (length (issued w)) query).
  pose proof (advanced_trans [] [query] w w1 w2 Ha Hb) as Hw2.
  simpl in Hw2.
  unfold gateway_result, apply_answer, answer.
  destruct (latency r <=? query_timeout + 1)%nat.
  - destruct (outcome r) as [points | m] eqn:Ho.
    + unfold sleep, ret. eexists. split; [reflexivity|].
      destruct Hw2 as (a & b & c & d). unfold advanced. simpl. auto.
    + rewrite (Hbenign _ _ _ Ho).
      destruct (read_cancelled_quiet env Hquiet w2) as (w3 & -> & Hc);
        [apply Hw2|].
      unfold mentions_cancelled. cbn [exn_msg orb].
      rewrite (Hbenign _ _ _ Ho). exists w3. split; [reflexivity|].
      pose proof (advanced_trans [query] [] w w2 w3 Hw2 Hc) as Hw3.
      now rewrite app_nil_r in Hw3.
  - destruct (read_cancelled_quiet env Hquiet w2) as (w3 & -> & Hc);
      [apply Hw2|].
    unfold mentions_cancelled. cbn [exn_msg orb].
    rewrite Hname. exists w3. split; [reflexivity|].
    pose proof (advanced_trans [query] [] w w2 w3 Hw2 Hc) as Hw3.
    now rewrite app_nil_r in Hw3.
Qed.

Lemma advanced_length (qs : list string) (w w' : World) :
  advanced qs w w' ->
  length (issued w') = (length (issued w) + length qs)%nat.
Proof. intros (_ & _ & c & _). rewrite c. apply length_app. Qed.

(** Without a cancellation the correlator always returns, and each field
    of its result comes from the answer to its own query. *)
Lemma telemetry_quiet (check : CancelCheck) (vehicle : option string)
      (timestamp : Z) (w : World) :
  never check -> cancelled w = false -> calm vehicle ->
  exists w',
    _get_telemetry_at_timestamp_with_cancellation env self vehicle
      timestamp check w
    = (Ok (correlate (window_answers env self (length (issued w))
                                     vehicle timestamp)), w') /\
    advanced (window_queries self vehicle timestamp) w w'.
Proof.
  intros Hn H Hcalm.
  unfold _get_telemetry_at_timestamp_with_cancellation, bind at 1.
  destruct (cancel_requested_quiet env Hquiet check w Hn H)
    as (w0 & -> & H0).
  cbv beta iota zeta.
  assert (Hname : forall label,
             In label ["GPS query for "; "speed query for ";
                       "off-path query for "; "pitch query for ";
                       "roll query for "] ->
             PyStr.contains "cancelled"
               (PyStr.lower ("Query timeout after 10s: "
                               ++ label ++ str_vehicle vehicle)) = false).
  { intros label Hl. rewrite (timeout_message_calm label _ Hl).
    exact Hcalm. }
  unfold window_answers, window_queries, correlate.
  cbn [seq combine map fst snd].
  set (n := length (issued w)).
  assert (L0 : length (issued w0) = n)
    by (rewrite (advanced_length _ _ _ H0); simpl; lia).
  unfold bind.
  match goal with
  | |- context [telemetry_block env self check ?b ?d ?q ?nm ?r ?td w0] =>
      destruct (telemetry_block_quiet check b d q nm r td w0 Hn)
        as (w1 & -> & H1);
      [apply H0 | apply Hname; simpl; tauto |]
  end.
  pose proof (advanced_trans _ _ _ _ _ H0 H1) as A1.
  assert (L1 : length (issued w1) = (n + 1)%nat)
    by (rewrite (advanced_length _ _ _ A1); simpl; lia).
  match goal with
  | |- context [telemetry_block env self check ?b ?d ?q ?nm ?r ?td w1] =>
      destruct (telemetry_block_quiet check b d q nm r td w1 Hn)
        as (w2 & -> & H2);
      [apply H1 | apply Hname; simpl; tauto |]
  end.
  pose proof (advanced_trans _ _ _ _ _ A1 H2) as A2.
  assert (L2 : length (issued w2) = (n + 2)%nat)
    by (rewrite (advanced_length _ _ _ A2); simpl; lia).
  match goal with
  | |- context [telemetry_block env self check ?b ?d ?q ?nm ?r ?td w2] =>
      destruct (telemetry_block_quiet check b d q nm r td w2 Hn)
        as (w3 & -> & H3);
      [apply H2 | apply Hname; simpl; tauto |]
  end.
  pose proof (advanced_trans _ _ _ _ _ A2 H3) as A3.
  assert (L3 : length (issued w3) = (n + 3)%nat)
    by (rewrite (advanced_length _ _ _ A3); simpl; lia).
  match goal with
  | |- context [telemetry_block env self check ?b ?d ?q ?nm ?r ?td w3] =>
      destruct (telemetry_block_quiet check b d q nm r td w3 Hn)
        as (w4 & -> & H4);
      [apply H3 | apply Hname; simpl; tauto |]
  end.
  pose proof (advanced_trans _ _ _ _ _ A3 H4) as A4.
  assert (L4 : length (issued w4) = (n + 4)%nat)
    by (rewrite (advanced_length _ _ _ A4); simpl; lia).
  match goal with
  | |- context [telemetry_block env self check ?b ?d ?q ?nm ?r ?td w4] =>
      destruct (telemetry_block_quiet check b d q nm r td w4 Hn)
        as (w5 & E5 & H5);
      [apply H4 | apply Hname; simpl; tauto |]
  end.
  pose proof (advanced_trans _ _ _ _ _ A4 H5) as A5.
  exists w5. split; [|exact A5].
  rewrite E5, L0, L1, L2, L3, L4, Nat.add_0_r. reflexivity.
Qed.

End QuietCorrelator.

(** ** Validation of requests *)

Lemma validate_time_range_ok (start v v' : Z) :
  validate_time_range start v = Ok v' ->
  v' = v /\ start < v /\
  PyNum.gt (PyTime.duration_hours start v) (30 # 1) = false.
Proof.
  unfold validate_time_range.
  destruct (v <=? start) eqn:E1; [discriminate|].
  destruct (PyNum.gt (PyTime.duration_hours start v) (30 # 1)) eqn:E2;
    [discriminate|].
  destruct (PyNum.lt (PyTime.duration_hours start v) (2 # 1000));
    [discriminate|].
  intros [= <-]. apply Z.leb_gt in E1. auto.
Qed.

Lemma parse_request_ok (body : RequestBody) (req : AlarmExtractionRequest) :
  parse_request body = Ok req ->
  tr_start (time_range req) = body_start body /\
  tr_end (time_range req) = body_end body /\
  selected_alarms (alarm_filter req) <> [] /\
  PyNum.gt (PyTime.duration_hours (tr_start (time_range req))
                                  (tr_end (time_range req))) (30 # 1) = false.
Proof.
  unfold parse_request.
  destruct (validate_time_range (body_start body) (body_end body))
    as [v|e] eqn:Ev; [|discriminate].
  apply validate_time_range_ok in Ev as (-> & _ & Hd).
  unfold validate_alarm_types.
  destruct (body_selected_alarms body) as [|a l]; [discriminate|].
  destruct (forallb _ (a :: l)); [|discriminate].
  intros [= <-]. simpl. repeat split; [discriminate | exact Hd].
Qed.

Lemma mem_spec (x : string) (l : list string) :
  PyStr.mem x l = true <-> In x l.
Proof.
  unfold PyStr.mem. rewrite existsb_exists. split.
  - intros (y & Hy & E). apply String.eqb_eq in E. now subst.
  - intros H. exists x. split; [exact H | apply String.eqb_refl].
Qed.

Lemma alarm_conditions_disjoint (catalog selected : list string) :
  (forall a, In a selected -> ~ In a catalog) ->
  QueryText.alarm_conditions catalog selected = [].
Proof.
  intros H. unfold QueryText.alarm_conditions.
  induction selected as [|a l IH]; [reflexivity|]. simpl.
  destruct (PyStr.mem a catalog) eqn:E.
  - apply mem_spec in E. exfalso. apply (H a); [now left | exact E].
  - apply IH. intros b Hb. apply H. now right.
Qed.

(** ** Steps of the monad *)

Lemma bind_ok {A B} (m : M A) (k : A -> M B) (w w1 : World) (a : A) :
  m w = (Ok a, w1) -> bind m k w = k a w1.
Proof. intros H. unfold bind. now rewrite H. Qed.

Lemma bind_raise {A B} (m : M A) (k : A -> M B) (w w1 : World) (e : Exn) :
  m w = (Raise e, w1) -> bind m k w = (Raise e, w1).
Proof. intros H. unfold bind. now rewrite H. Qed.

Lemma try_ok {A} (m : M A) (h : Exn -> M A) (w w1 : World) (a : A) :
  m w = (Ok a, w1) -> try_except m h w = (Ok a, w1).
Proof. intros H. unfold try_except. now rewrite H. Qed.

Lemma try_raise {A} (m : M A) (h : Exn -> M A) (w w1 : World) (e : Exn) :
  m w = (Raise e, w1) -> try_except m h w = h e w1.
Proof. intros H. unfold try_except. now rewrite H. Qed.

(** ** The locator *)

Lemma cancel_requested_issued (env : Env) (check : CancelCheck) (w : World) :
  exists b, fst (cancel_requested env check w) = Ok b /\
            issued (snd (cancel_requested env check w)) = issued w.
Proof.
  unfold cancel_requested, bind, read_cancelled.
  destruct (cancelled w || cancel_req env (clock w)); simpl.
  - now exists true.
  - destruct check as [f|]; simpl; eexists; split; reflexivity.
Qed.

(** A selection that meets no entry of the catalog: the locator sends
    nothing to the store, and returns the empty list unless its first
    checkpoint sees a cancellation. *)
Lemma locator_without_conditions (env : Env) (self : Extractor)
      (start_time end_time : Z) (selected : list string)
      (vehicles : option (list string)) (check : CancelCheck) (w : World) :
  QueryText.alarm_conditions (ALARM_TYPES self) selected = [] ->
  let run := _get_alarm_timestamps_with_cancellation env self start_time
               end_time selected vehicles check w in
  issued (snd run) = issued w /\
  (fst run = Ok [] \/
   fst run = Raise (exception
                      "Extraction cancelled before alarm timestamp query")).
Proof.
  intros Hc. unfold _get_alarm_timestamps_with_cancellation, bind.
  destruct (cancel_requested_issued env check w) as (b & Hb & Hi).
  destruct (cancel_requested env check w) as [r w1]. simpl in Hb, Hi.
  subst r. destruct b; simpl.
  - split; [exact Hi | now right].
  - rewrite Hc. simpl. split; [exact Hi | now left].
Qed.

Section QuietJob.

Variable env : Env.
Variable self : Extractor.
Hypothesis Hquiet : quiet env.

Lemma connect_quiet (w : World) :
  cancelled w = false ->
  exists w',
    connect env w =
      (Ok (match gateway_result (store env (length (issued w))
                                       connection_test)
                                "connection_test" with
           | Ok _ => true
           | Raise _ => false
           end), w') /\
    cancelled w' = false /\ client w' = true /\
    issued w' = (issued w ++ [connection_test])%list /\
    observed w' = observed w.
Proof.
  intros H. unfold connect, try_except, bind, open_client.
  cbv beta iota.
  set (w0 := mkWorld (cancelled w) true (clock w) (issued w) (slept w)
                     (observed w)).
  destruct (execute_quiet env Hquiet connection_test "connection_test" w0)
    as (w1 & E & (a & b & c & d)); [exact H|].
  unfold connection_test in *. rewrite E. simpl.
  destruct (gateway_result _ _); simpl; exists w1; auto.
Qed.

(** The first steps of [extract_alarm_events] for a range within the
    limit and an extractor that is connected. *)
Lemma extract_enters (start_time end_time : Z) (selected : list string)
      (vehicles : option (list string)) (max_hours : Q) (check : CancelCheck)
      (w : World) :
  client w = true ->
  PyNum.gt (PyTime.duration_hours start_time end_time) max_hours = false ->
  extract_alarm_events env self start_time end_time selected vehicles
                       max_hours check w
  = try_except
      (alarm_events <- _get_alarm_timestamps_with_cancellation env self
                         start_time end_time selected vehicles check ;;
       match alarm_events with
       | [] => ret []
       | _ :: _ => enrich_loop env self check alarm_events []
       end)
      (fun e =>
         c <- read_cancelled env ;;
         if c || mentions_cancelled e then
           raise (exception "Extraction cancelled by user")
         else raise e)
      (mkWorld false (client w) (clock w) (issued w) (slept w)
               (observed w)).
Proof.
  intros Hcl Hd. unfold extract_alarm_events.
  erewrite bind_ok by (unfold reset_cancelled; reflexivity).
  rewrite Hd.
  erewrite bind_ok by (unfold has_client; reflexivity).
  simpl client. rewrite Hcl. reflexivity.
Qed.

Lemma extract_without_conditions (start_time end_time : Z)
      (selected : list string) (vehicles : option (list string))
      (max_hours : Q) (check : CancelCheck) (w : World) :
  never check -> client w = true ->
  PyNum.gt (PyTime.duration_hours start_time end_time) max_hours = false ->
  QueryText.alarm_conditions (ALARM_TYPES self) selected = [] ->
  exists w',
    extract_alarm_events env self start_time end_time selected vehicles
                         max_hours check w = (Ok [], w') /\
    issued w' = issued w /\ observed w' = observed w.
Proof.
  intros Hn Hcl Hd Hc. rewrite (extract_enters _ _ _ _ _ _ _ Hcl Hd).
  set (w0 := mkWorld false (client w) (clock w) (issued w) (slept w)
                     (observed w)).
  destruct (cancel_requested_quiet env Hquiet check w0 Hn)
    as (w1 & E1 & (a & b & c & d)); [reflexivity|].
  exists w1. rewrite app_nil_r in c. split; [|auto].
  apply try_ok.
  erewrite bind_ok
    by (unfold _get_alarm_timestamps_with_cancellation;
        erewrite bind_ok by exact E1; rewrite Hc; reflexivity).
  reflexivity.
Qed.

(** The locator's query fails for a reason that is not taken for a
    cancellation: the failure is logged and the extraction returns no
    event. *)
Lemma extract_locator_failure (start_time end_time : Z)
      (selected : list string) (vehicles : option (list string))
      (max_hours : Q) (check : CancelCheck) (w : World) (query : string) :
  never check -> client w = true ->
  PyNum.gt (PyTime.duration_hours start_time end_time) max_hours = false ->
  QueryText.alarm_conditions (ALARM_TYPES self) selected <> [] ->
  query = QueryText.alarm_query
            (PyTime.strftime_seconds start_time)
            (PyTime.strftime_seconds end_time)
            (PyStr.join " OR "
               (QueryText.alarm_conditions (ALARM_TYPES self) selected))
            (QueryText.vehicle_filter vehicles) ->
  answer (store env (length (issued w)) query) = None ->
  (forall m, outcome (store env (length (issued w)) query) = Failure m ->
             PyStr.contains "cancelled" (PyStr.lower m) = false) ->
  exists w',
    extract_alarm_events env self start_time end_time selected vehicles
                         max_hours check w = (Ok [], w') /\
    issued w' = (issued w ++ [query])%list /\ observed w' = observed w.
Proof.
  intros Hn Hcl Hd Hc Hq Hans Hmsg.
  rewrite (extract_enters _ _ _ _ _ _ _ Hcl Hd).
  set (w0 := mkWorld false (client w) (clock w) (issued w) (slept w)
                     (observed w)).
  destruct (cancel_requested_quiet env Hquiet check w0 Hn)
    as (w1 & E1 & Ha); [reflexivity|].
  destruct (query_quiet env Hquiet query "alarm timestamps query" w1)
    as (w2 & E2 & Hb); [apply Ha|].
  assert (Hlen : length (issued w1) = length (issued w)).
  { destruct Ha as (_ & _ & c & _). rewrite c, app_nil_r. reflexivity. }
  rewrite Hlen in E2.
  pose proof (advanced_trans [] [query] w0 w1 w2 Ha Hb) as A0.
  set (r := store env (length (issued w)) query) in *.
  assert (Hres : exists e, gateway_result r "alarm timestamps query"
                           = Raise e /\ mentions_cancelled e = false).
  { unfold gateway_result. unfold answer in Hans.
    destruct (latency r <=? query_timeout + 1)%nat.
    - destruct (outcome r) as [ps|m] eqn:Ho; [discriminate|].
      rewrite (Hmsg m eq_refl). eexists. split; [reflexivity|].
      unfold mentions_cancelled. simpl. apply Hmsg. reflexivity.
    - eexists. split; reflexivity. }
  destruct Hres as (e & Er & He). rewrite Er in E2.
  destruct (read_cancelled_quiet env Hquiet w2) as (w3 & E3 & Hc3);
    [apply A0|].
  exists w3.
  pose proof (advanced_trans _ _ _ _ _ A0 Hc3) as (_ & _ & c & d).
  simpl in c, d. split; [|auto].
  apply try_ok.
  assert (El : _get_alarm_timestamps_with_cancellation env self start_time
                 end_time selected vehicles check w0 = (Ok [], w3)).
  { unfold _get_alarm_timestamps_with_cancellation.
    erewrite bind_ok by exact E1.
    destruct (QueryText.alarm_conditions (ALARM_TYPES self) selected)
      as [|c0 cs] eqn:Ec; [congruence|].
    cbv beta iota zeta. rewrite <- Hq.
    erewrite try_raise by (eapply bind_raise; exact E2).
    erewrite bind_ok by exact E3. rewrite He. reflexivity. }
  erewrite bind_ok by exact El. reflexivity.
Qed.

End QuietJob.

(** ** The registry and the job handler *)

Lemma lookup_update_job (job_id : string) (f : JobData -> JobData)
      (srv : Server) (job : JobData) :
  active_extractions srv !! job_id = Some job ->
  active_extractions (update_job job_id f srv) !! job_id = Some (f job).
Proof.
  intros H. unfold update_job. simpl. rewrite lookup_alter_eq, H.
  reflexivity.
Qed.

Lemma lookup_update_job_other (job_id other : string)
      (f : JobData -> JobData) (srv : Server) :
  job_id <> other ->
  active_extractions (update_job job_id f srv) !! other
  = active_extractions srv !! other.
Proof. intros H. unfold update_job. simpl. now apply lookup_alter_ne. Qed.

Lemma connect_never_raises (env : Env) (w : World) :
  exists b, fst (connect env w) = Ok b.
Proof.
  unfold connect, try_except.
  destruct (bind _ _ w) as [[a|e] w']; simpl; eexists; reflexivity.
Qed.

Lemma run_alarm_extraction_ends (env : Env) (self : Extractor)
      (job_id : string) (srv : Server) (job : JobData) :
  active_extractions srv !! job_id = Some job ->
  exists final,
    job_end env self job final
            (snd (run_alarm_extraction env self job_id srv)) /\
    active_extractions (fst (run_alarm_extraction env self job_id srv))
      !! job_id = Some final /\
    (forall other, job_id <> other ->
       active_extractions (fst (run_alarm_extraction env self job_id srv))
         !! other = active_extractions srv !! other) /\
    (status final = "failed" ->
     extraction_results (fst (run_alarm_extraction env self job_id srv))
     = extraction_results srv).
Proof.
  intros H. unfold run_alarm_extraction. rewrite H.
  destruct (connect_never_raises env new_world) as (b & Hb).
  destruct (connect env new_world) as [rc w] eqn:Ec. simpl in Hb. subst rc.
  assert (Hother : forall f g h (m : gmap string JobData) other,
             job_id <> other ->
             alter f job_id (alter g job_id (alter h job_id m)) !! other
             = m !! other).
  { intros f g h m other Hne. now rewrite !lookup_alter_ne. }
  destruct b.
  - destruct (extract_alarm_events env self _ _ _ _ _ None w)
      as [[raws|e] w'] eqn:Ex.
    + destruct (to_alarm_events raws) as [events|e] eqn:Et.
      * eexists. split; [eapply end_completed; eauto|].
        unfold update_job. simpl. split; [|split].
        -- rewrite !lookup_alter_eq, H. reflexivity.
        -- intros other Hne. now apply Hother.
        -- discriminate.
      * eexists. split; [eapply end_conversion_raised; eauto|].
        unfold update_job. simpl. split; [|split].
        -- rewrite !lookup_alter_eq, H. reflexivity.
        -- intros other Hne. now apply Hother.
        -- reflexivity.
    + eexists. split; [eapply end_extraction_raised; eauto|].
      unfold update_job. simpl. split; [|split].
      * rewrite !lookup_alter_eq, H. reflexivity.
      * intros other Hne. now apply Hother.
      * reflexivity.
  - eexists. split; [eapply end_no_connection; eauto|].
    unfold update_job. simpl. split; [|split].
    + rewrite !lookup_alter_eq, H. reflexivity.
    + intros other Hne. now rewrite !lookup_alter_ne.
    + reflexivity.
Qed.

(** ** Cancellation is never swallowed *)

Lemma raises_weaken {A} (P Q : Exn -> Prop) (m : M A) :
  (forall e, P e -> Q e) -> cancel_raises P m -> cancel_raises Q m.
Proof.
  intros HPQ Hm w H0 H1. destruct (Hm w H0 H1) as (e & He & HP).
  exists e. auto.
Qed.






Section Checkpoints.

Variable env : Env.












End Checkpoints.

Section CancelledExtraction.

Variable env : Env.
Variable self : Extractor.









End CancelledExtraction.

(** ** Cancelled jobs *)




(** ** Jobs without a cancellation *)

Lemma duration_over_limit (start_time end_time : Z) :
  PyNum.gt (PyTime.duration_hours start_time end_time) (30 # 1) = true
  <-> 108000000000 < end_time - start_time.
Proof.
  rewrite gt_true. unfold PyTime.duration_hours, Qlt. simpl. lia.
Qed.

Section QuietRun.

Variable env : Env.
Variable self : Extractor.
Hypothesis Hquiet : quiet env.
Hypothesis Hreach : reachable env.

Lemma connect_reachable :
  exists w, connect env new_world = (Ok true, w) /\
            client w = true /\ issued w = [connection_test] /\
            observed w = false.
Proof.
  destruct (connect_quiet env Hquiet new_world eq_refl)
    as (w & E & _ & Hcl & Hi & Ho).
  exists w. simpl in Hi, Ho. repeat split; try assumption.
  rewrite E. destruct Hreach as (points & Hp). simpl.
  unfold answer in Hp. unfold gateway_result.
  destruct (latency _ <=? query_timeout + 1)%nat; [|discriminate].
  now destruct (outcome _).
Qed.

(** A job whose extraction returns no event completes with none. *)
Lemma run_without_events (job_id : string) (srv : Server) (job : JobData)
      (w w' : World) :
  active_extractions srv !! job_id = Some job ->
  connect env new_world = (Ok true, w) ->
  extract_alarm_events env self
    (tr_start (time_range (request job)))
    (tr_end (time_range (request job)))
    (selected_alarms (alarm_filter (request job)))
    (selected_vehicles (alarm_filter (request job))) (30 # 1) None w
  = (Ok [], w') ->
  let out := run_alarm_extraction env self job_id srv in
  snd out = w' /\
  job_field status job_id (fst out) = Some "completed" /\
  job_field progress job_id (fst out) = Some 100 /\
  job_field alarm_events job_id (fst out) = Some [] /\
  job_field (fun j => total_events <$> summary j) job_id (fst out)
  = Some (Some 0%nat).
Proof.
  intros Hjob Hc Hx. unfold run_alarm_extraction, job_field.
  rewrite Hjob, Hc, Hx. simpl.
  rewrite !lookup_alter_eq, Hjob. simpl. auto.
Qed.

End QuietRun.

Lemma serve_valid (env : Env) (self : Extractor) (job_id : string) (now : Z)
      (body : RequestBody) (srv : Server) (req : AlarmExtractionRequest) :
  parse_request body = Ok req ->
  serve env self job_id now body srv
  = (Http200 job_id,
     fst (run_alarm_extraction env self job_id
            (create_extraction_job job_id now req srv)),
     snd (run_alarm_extraction env self job_id
            (create_extraction_job job_id now req srv))).
Proof.
  intros Hp. unfold serve, extract_alarm_data. rewrite Hp.
  destruct (parse_request_ok body req Hp) as (_ & _ & Hne & _).
  destruct (selected_alarms (alarm_filter req)); [congruence|].
  now destruct (run_alarm_extraction _ _ _ _).
Qed.

Lemma created_job (job_id : string) (now : Z) (req : AlarmExtractionRequest)
      (srv : Server) :
  exists job,
    active_extractions (create_extraction_job job_id now req srv) !! job_id
    = Some job /\ request job = req.
Proof.
  eexists. split.
  - unfold create_extraction_job. simpl. apply lookup_insert_eq.
  - reflexivity.
Qed.

(** C4. A selection that meets no entry of the catalog: the locator sends
    no query to the store and, when nobody cancels, returns the empty
    list; the job of a valid request then completes with zero events, the
    smoke test of the connection being the only query sent. *)
Theorem unknown_alarm_types_complete_with_zero_events
        (env : Env) (self : Extractor) (job_id : string) (now : Z)
        (body : RequestBody) (srv : Server) (req : AlarmExtractionRequest) :
  quiet env -> reachable env ->
  parse_request body = Ok req ->
  (forall a, In a (selected_alarms (alarm_filter req)) ->
             ~ In a (ALARM_TYPES self)) ->
  (forall check w,
      let found := _get_alarm_timestamps_with_cancellation env self
                     (tr_start (time_range req)) (tr_end (time_range req))
                     (selected_alarms (alarm_filter req))
                     (selected_vehicles (alarm_filter req)) check w in
      issued (snd found) = issued w /\
      (never check -> cancelled w = false -> fst found = Ok []))
  /\
  let out := serve env self job_id now body srv in
  fst (fst out) = Http200 job_id /\
  issued (snd out) = [connection_test] /\
  job_field status job_id (snd (fst out)) = Some "completed" /\
  job_field alarm_events job_id (snd (fst out)) = Some [] /\
  job_field (fun j => total_events <$> summary j) job_id (snd (fst out))
  = Some (Some 0%nat).
Proof.
  intros Hquiet Hreach Hp Hdisj.
  pose proof (alarm_conditions_disjoint _ _ Hdisj) as Hnone.
  split.
  - intros check w found.
    destruct (locator_without_conditions env self
                (tr_start (time_range req)) (tr_end (time_range req))
                (selected_alarms (alarm_filter req))
                (selected_vehicles (alarm_filter req)) check w Hnone)
      as (Hi & Hr).
    split; [exact Hi|]. intros Hn Hc. subst found.
    unfold _get_alarm_timestamps_with_cancellation.
    destruct (cancel_requested_quiet env Hquiet check w Hn Hc)
      as (w1 & E1 & _).
    erewrite bind_ok by exact E1. rewrite Hnone. reflexivity.
  - cbv zeta. rewrite (serve_valid _ _ _ _ _ _ _ Hp). simpl.
    destruct (created_job job_id now req srv) as (job & Hjob & Hreq).
    destruct (connect_reachable env Hquiet Hreach)
      as (w & Hc & Hcl & Hi & Ho).
    destruct (parse_request_ok body req Hp) as (_ & _ & _ & Hd).
    destruct (extract_without_conditions env self Hquiet
                (tr_start (time_range req)) (tr_end (time_range req))
                (selected_alarms (alarm_filter req))
                (selected_vehicles (alarm_filter req)) (30 # 1) None w
                I Hcl Hd Hnone) as (w' & Hx & Hi' & _).
    rewrite <- Hreq in Hx.
    destruct (run_without_events env self job_id _ job w w' Hjob Hc Hx)
      as (Hw & Hs & _ & He & Ht).
    rewrite Hw, Hi', Hi. auto.
Qed.

Lemma unknown_alarm_types_complete_with_zero_events_witness :
  job_field status "job-1"
    (snd (fst (serve Sample.env_idle Sample.extractor "job-1" 0
                     (Sample.body ["Low Fuel"]) Sample.no_jobs)))
  = Some "completed".
Proof.
  refine (proj1 (proj2 (proj2 (proj2
    (unknown_alarm_types_complete_with_zero_events
       Sample.env_idle Sample.extractor "job-1" 0
       (Sample.body ["Low Fuel"]) Sample.no_jobs
       (Sample.request ["Low Fuel"]) _ _ _ _))))).
  - intros t. reflexivity.
  - exists []. reflexivity.
  - vm_compute. reflexivity.
  - intros a [<- | []]. vm_compute.
    intuition discriminate.
Defined.

(** C3, as the code has it.  When nobody cancels and the locator's query
    times out, or fails with an error that does not have the word
    "cancelled" in it, the locator logs the failure and returns no event:
    the job completes with zero events, it does not fail.  The windowed
    queries of the correlator are isolated in the same way: for a vehicle
    whose name does not have the word in it, the correlator always
    returns, each field reduced from the answer to its own query and
    absent when that query fails. *)
Theorem locator_failure_completes_the_job
        (env : Env) (self : Extractor) (job_id : string) (now : Z)
        (body : RequestBody) (srv : Server) (req : AlarmExtractionRequest) :
  quiet env -> benign env -> reachable env ->
  parse_request body = Ok req ->
  QueryText.alarm_conditions (ALARM_TYPES self)
                             (selected_alarms (alarm_filter req)) <> [] ->
  answer (store env 1 (locator_query self req)) = None ->
  (let out := serve env self job_id now body srv in
   fst (fst out) = Http200 job_id /\
   issued (snd out) = [connection_test; locator_query self req] /\
   job_field status job_id (snd (fst out)) = Some "completed" /\
   job_field alarm_events job_id (snd (fst out)) = Some [] /\
   job_field (fun j => total_events <$> summary j) job_id (snd (fst out))
   = Some (Some 0%nat))
  /\
  forall check vehicle timestamp w,
    never check -> cancelled w = false -> calm vehicle ->
    exists w',
      _get_telemetry_at_timestamp_with_cancellation env self vehicle
        timestamp check w
      = (Ok (correlate (window_answers env self (length (issued w))
                                       vehicle timestamp)), w') /\
      issued w' = (issued w ++ window_queries self vehicle timestamp)%list.
Proof.
  intros Hquiet Hbenign Hreach Hp Hsome Hfail. split.
  - cbv zeta. rewrite (serve_valid _ _ _ _ _ _ _ Hp). simpl.
    destruct (created_job job_id now req srv) as (job & Hjob & Hreq).
    destruct (connect_reachable env Hquiet Hreach)
      as (w & Hc & Hcl & Hi & Ho).
    destruct (parse_request_ok body req Hp) as (_ & _ & _ & Hd).
    destruct (extract_locator_failure env self Hquiet
                (tr_start (time_range req)) (tr_end (time_range req))
                (selected_alarms (alarm_filter req))
                (selected_vehicles (alarm_filter req)) (30 # 1) None w
                (locator_query self req) I Hcl Hd Hsome eq_refl)
      as (w' & Hx & Hi' & _).
    + rewrite Hi. exact Hfail.
    + intros m Hm. exact (Hbenign _ _ _ Hm).
    + rewrite <- Hreq in Hx.
      destruct (run_without_events env self job_id _ job w w' Hjob Hc Hx)
        as (Hw & Hs & _ & He & Ht).
      rewrite Hw, Hi', Hi. auto.
  - intros check vehicle timestamp w Hn Hc Hcalm.
    destruct (telemetry_quiet env self Hquiet Hbenign check vehicle
                              timestamp w Hn Hc Hcalm)
      as (w' & E & (_ & _ & Hi & _)).
    exists w'. now split.
Qed.

Lemma locator_failure_completes_the_job_witness :
  job_field status "job-1"
    (snd (fst (serve Sample.env_timeout Sample.extractor "job-1" 0
                     (Sample.body ["Off Path"]) Sample.no_jobs)))
  = Some "completed".
Proof.
  refine (proj1 (proj2 (proj2 (proj1
    (locator_failure_completes_the_job
       Sample.env_timeout Sample.extractor "job-1" 0
       (Sample.body ["Off Path"]) Sample.no_jobs
       (Sample.request ["Off Path"]) _ _ _ _ _ _))))).
  - intros t. reflexivity.
  - intros n q m Hm. destruct n as [|[|n]]; simpl in Hm; discriminate.
  - exists []. reflexivity.
  - vm_compute. reflexivity.
  - vm_compute. discriminate.
  - vm_compute. reflexivity.
Defined.

(** C3, as stated, fails: the locator's query times out, nobody cancels,
    and the job completes instead of failing. *)
Lemma locator_timeout_does_not_fail_the_job :
  let out := serve Sample.env_timeout Sample.extractor "job-1" 0
                   (Sample.body ["Off Path"]) Sample.no_jobs in
  answer (store Sample.env_timeout 1
                (locator_query Sample.extractor
                               (Sample.request ["Off Path"]))) = None /\
  issued (snd out)
  = [connection_test;
     locator_query Sample.extractor (Sample.request ["Off Path"])] /\
  observed (snd out) = false /\
  job_field status "job-1" (snd (fst out)) = Some "completed" /\
  job_field status "job-1" (snd (fst out)) <> Some "failed".
Proof.
  vm_compute. repeat split; discriminate.
Qed.

(** ** Rejected requests *)

(** C5. A request whose end is not after its start, or whose range is
    longer than 30 hours, is rejected when its body is validated: no job
    is created, nothing is scheduled and no query is sent.  The extractor
    itself refuses a range over the limit before any query. *)
Theorem invalid_time_range_is_rejected
        (env : Env) (self : Extractor) (job_id : string) (now : Z)
        (body : RequestBody) (srv : Server) :
  body_end body <= body_start body \/
  30 * 3600 * 1000000 < body_end body - body_start body ->
  (exists detail,
      extract_alarm_data job_id now body srv
      = (HttpError 422 detail, srv, None) /\
      serve env self job_id now body srv
      = (HttpError 422 detail, srv, new_world)) /\
  issued (snd (serve env self job_id now body srv)) = [] /\
  forall selected vehicles check w,
    30 * 3600 * 1000000 < body_end body - body_start body ->
    exists detail,
      fst (extract_alarm_events env self (body_start body) (body_end body)
             selected vehicles (30 # 1) check w)
      = Raise (mkExn ValueError detail) /\
      issued (snd (extract_alarm_events env self (body_start body)
                     (body_end body) selected vehicles (30 # 1) check w))
      = issued w.
Proof.
  intros Hbad.
  assert (Hv : exists e, validate_time_range (body_start body)
                                              (body_end body) = Raise e).
  { unfold validate_time_range. destruct Hbad as [Hle | Hlong].
    - apply Z.leb_le in Hle. rewrite Hle. eexists. reflexivity.
    - destruct (body_end body <=? body_start body);
        [eexists; reflexivity|].
      apply duration_over_limit in Hlong. rewrite Hlong.
      eexists. reflexivity. }
  destruct Hv as (e & He).
  assert (Hs : extract_alarm_data job_id now body srv
               = (HttpError 422 (exn_msg e), srv, None)).
  { unfold extract_alarm_data, parse_request. now rewrite He. }
  assert (Hserve : serve env self job_id now body srv
                   = (HttpError 422 (exn_msg e), srv, new_world)).
  { unfold serve. now rewrite Hs. }
  split; [exists (exn_msg e); now split|].
  split; [now rewrite Hserve|].
  intros selected vehicles check w Hlong.
  apply duration_over_limit in Hlong.
  unfold extract_alarm_events, bind, reset_cancelled. rewrite Hlong.
  eexists. split; reflexivity.
Qed.

Lemma invalid_time_range_is_rejected_witness :
  issued (snd (serve Sample.env_idle Sample.extractor "job-1" 0
                     (mkBody Sample.t0 (Sample.t0 + 31 * Sample.one_hour)
                             ["Off Path"] true None) Sample.no_jobs)) = [].
Proof.
  refine (proj1 (proj2
    (invalid_time_range_is_rejected
       Sample.env_idle Sample.extractor "job-1" 0
       (mkBody Sample.t0 (Sample.t0 + 31 * Sample.one_hour)
               ["Off Path"] true None) Sample.no_jobs _))).
  right. vm_compute. reflexivity.
Defined.

(** ** Failed jobs *)

(** C10. The [except] clause writes the status, the message and the
    current operation only.  A job that ends as failed was left by the
    last progress update before the failure, at 10 or at 20; its progress
    and its events are those the status poll reports afterwards. *)
Theorem failed_job_keeps_progress_and_events
        (env : Env) (self : Extractor) (job_id : string) (srv : Server)
        (job : JobData) :
  active_extractions srv !! job_id = Some job ->
  job_field status job_id (fst (run_alarm_extraction env self job_id srv))
  = Some "failed" ->
  (forall e j,
      progress (set_failed e j) = progress j /\
      alarm_events (set_failed e j) = alarm_events j /\
      start_time (set_failed e j) = start_time j /\
      request (set_failed e j) = request j /\
      summary (set_failed e j) = summary j) /\
  exists e before view,
    (before = set_running job \/ before = set_connected (set_running job)) /\
    active_extractions (fst (run_alarm_extraction env self job_id srv))
      !! job_id = Some (set_failed e before) /\
    get_extraction_status job_id
      (fst (run_alarm_extraction env self job_id srv)) = Http200 view /\
    sv_status view = "failed" /\
    sv_progress view = progress before /\
    (sv_progress view = 10 \/ sv_progress view = 20) /\
    sv_alarm_events_found view = length (alarm_events job).
Proof.
  intros Hjob Hfailed. split; [intros e j; simpl; auto|].
  destruct (run_alarm_extraction_ends env self job_id srv job Hjob)
    as (final & Hend & Hfinal & _).
  unfold job_field in Hfailed. rewrite Hfinal in Hfailed. simpl in Hfailed.
  unfold get_extraction_status. rewrite Hfinal.
  destruct Hend as [w Hc | w w' e Hc Hx | w w' raws e Hc Hx Ht
                   | w w' raws events Hc Hx Ht].
  - do 3 eexists. split; [left; reflexivity|].
    split; [reflexivity|]. split; [reflexivity|]. simpl. auto.
  - do 3 eexists. split; [right; reflexivity|].
    split; [reflexivity|]. split; [reflexivity|]. simpl. auto.
  - do 3 eexists. split; [right; reflexivity|].
    split; [reflexivity|]. split; [reflexivity|]. simpl. auto.
  - simpl in Hfailed. discriminate.
Qed.

Lemma failed_job_keeps_progress_and_events_witness :
  exists view,
    get_extraction_status "job-1"
      (fst (run_alarm_extraction Sample.env_down Sample.extractor "job-1"
              (Sample.one_job ["Off Path"]))) = Http200 view /\
    sv_status view = "failed" /\ sv_progress view = 10.
Proof.
  destruct (failed_job_keeps_progress_and_events
              Sample.env_down Sample.extractor "job-1"
              (Sample.one_job ["Off Path"]) (Sample.pending ["Off Path"]))
    as (_ & e & before & view & _ & _ & Hv & Hs & _).
  - vm_compute. reflexivity.
  - vm_compute. reflexivity.
  - exists view. split; [exact Hv|]. split; [exact Hs|].
    vm_compute in Hv. injection Hv as <-. reflexivity.
Defined.

(** ** Telemetry reductions *)

Lemma speed_of_spec (points : list Point) :
  match Reduce.values points with
  | [] => Reduce.speed_of points = None
  | _ :: _ =>
      exists m, is_greatest m (map Qabs (Reduce.values points)) /\
                Reduce.speed_of points = Some (m * (36 # 10))%Q
  end.
Proof.
  unfold Reduce.speed_of.
  pose proof (maximum_spec (map Qabs (Reduce.values points))) as H.
  destruct (Reduce.values points) as [|v vs]; [reflexivity|].
  destruct (Reduce.maximum (map Qabs (v :: vs))) as [m|]; [|discriminate].
  exists m. now split.
Qed.


Lemma apply_answer_rows (reduce : list Point -> Telemetry -> Telemetry)
      (r : Response) (td : Telemetry) :
  reduce [] td = td -> apply_answer reduce r td = reduce (rows_of r) td.
Proof.
  intros H. unfold apply_answer, rows_of. now destruct (answer r).
Qed.

Lemma set_position_frame (points : list Point) (td : Telemetry) :
  let td' := Reduce.set_position points td in
  speed_kmh td' = speed_kmh td /\
  off_path_error_m td' = off_path_error_m td /\
  (pitch_deg td', pitch_min_deg td', pitch_max_deg td')
  = (pitch_deg td, pitch_min_deg td, pitch_max_deg td) /\
  (roll_deg td', roll_min_deg td', roll_max_deg td')
  = (roll_deg td, roll_min_deg td, roll_max_deg td).
Proof. unfold Reduce.set_position. destruct points; simpl; auto. Qed.

Lemma set_speed_frame (points : list Point) (td : Telemetry) :
  let td' := Reduce.set_speed points td in
  speed_kmh td'
  = match Reduce.speed_of points with Some v => Some v | None => speed_kmh td
    end /\
  (latitude td', longitude td') = (latitude td, longitude td) /\
  off_path_error_m td' = off_path_error_m td /\
  (pitch_deg td', pitch_min_deg td', pitch_max_deg td')
  = (pitch_deg td, pitch_min_deg td, pitch_max_deg td) /\
  (roll_deg td', roll_min_deg td', roll_max_deg td')
  = (roll_deg td, roll_min_deg td, roll_max_deg td).
Proof.
  unfold Reduce.set_speed. destruct (Reduce.speed_of points); simpl; auto.
Qed.

Lemma set_offpath_frame (points : list Point) (td : Telemetry) :
  let td' := Reduce.set_offpath points td in
  off_path_error_m td'
  = match Reduce.offpath_of points with
    | Some v => Some v
    | None => off_path_error_m td
    end /\
  (latitude td', longitude td') = (latitude td, longitude td) /\
  speed_kmh td' = speed_kmh td /\
  (pitch_deg td', pitch_min_deg td', pitch_max_deg td')
  = (pitch_deg td, pitch_min_deg td, pitch_max_deg td) /\
  (roll_deg td', roll_min_deg td', roll_max_deg td')
  = (roll_deg td, roll_min_deg td, roll_max_deg td).
Proof.
  unfold Reduce.set_offpath. destruct (Reduce.offpath_of points); simpl; auto.
Qed.

Lemma set_pitch_frame (points : list Point) (td : Telemetry) :
  let td' := Reduce.set_pitch points td in
  (pitch_deg td', pitch_min_deg td', pitch_max_deg td')
  = match Reduce.attitude_of points with
    | Some (a, lo, hi) => (Some a, Some lo, Some hi)
    | None => (pitch_deg td, pitch_min_deg td, pitch_max_deg td)
    end /\
  (latitude td', longitude td') = (latitude td, longitude td) /\
  speed_kmh td' = speed_kmh td /\
  off_path_error_m td' = off_path_error_m td /\
  (roll_deg td', roll_min_deg td', roll_max_deg td')
  = (roll_deg td, roll_min_deg td, roll_max_deg td).
Proof.
  unfold Reduce.set_pitch.
  destruct (Reduce.attitude_of points) as [[[a lo] hi]|]; simpl; auto.
Qed.

Lemma set_roll_frame (points : list Point) (td : Telemetry) :
  let td' := Reduce.set_roll points td in
  (roll_deg td', roll_min_deg td', roll_max_deg td')
  = match Reduce.attitude_of points with
    | Some (a, lo, hi) => (Some a, Some lo, Some hi)
    | None => (roll_deg td, roll_min_deg td, roll_max_deg td)
    end /\
  (latitude td', longitude td') = (latitude td, longitude td) /\
  speed_kmh td' = speed_kmh td /\
  off_path_error_m td' = off_path_error_m td /\
  (pitch_deg td', pitch_min_deg td', pitch_max_deg td')
  = (pitch_deg td, pitch_min_deg td, pitch_max_deg td).
Proof.
  unfold Reduce.set_roll.
  destruct (Reduce.attitude_of points) as [[[a lo] hi]|]; simpl; auto.
Qed.

(** The fields of a correlation, each from its own answer. *)
Lemma correlate_fields (gps speed offpath pitch roll : Response) :
  let td := correlate [gps; speed; offpath; pitch; roll] in
  speed_kmh td = Reduce.speed_of (rows_of speed) /\
  (pitch_deg td, pitch_min_deg td, pitch_max_deg td)
  = match Reduce.attitude_of (rows_of pitch) with
    | Some (a, lo, hi) => (Some a, Some lo, Some hi)
    | None => (None, None, None)
    end /\
  (roll_deg td, roll_min_deg td, roll_max_deg td)
  = match Reduce.attitude_of (rows_of roll) with
    | Some (a, lo, hi) => (Some a, Some lo, Some hi)
    | None => (None, None, None)
    end.
Proof.
  unfold correlate. cbv zeta.
  rewrite !apply_answer_rows by reflexivity.
  set (t1 := Reduce.set_position (rows_of gps) telemetry_init).
  set (t2 := Reduce.set_speed (rows_of speed) t1).
  set (t3 := Reduce.set_offpath (rows_of offpath) t2).
  set (t4 := Reduce.set_pitch (rows_of pitch) t3).
  destruct (set_position_frame (rows_of gps) telemetry_init)
    as (P1 & _ & P3 & P4).
  destruct (set_speed_frame (rows_of speed) t1) as (S1 & _ & _ & S3 & S4).
  destruct (set_offpath_frame (rows_of offpath) t2)
    as (_ & _ & O1 & O3 & O4).
  destruct (set_pitch_frame (rows_of pitch) t3) as (I1 & _ & I2 & _ & I4).
  destruct (set_roll_frame (rows_of roll) t4) as (R1 & _ & R2 & _ & R3).
  fold t1 in P1, P3, P4. fold t2 in S1, S3, S4. fold t3 in O1, O3, O4.
  fold t4 in I1, I2, I4.
  split; [|split].
  - rewrite R2, I2, O1, S1, P1. simpl.
    now destruct (Reduce.speed_of (rows_of speed)).
  - rewrite R3, I1, O3, S3, P3. simpl.
    now destruct (Reduce.attitude_of (rows_of pitch)) as [[[a lo] hi]|].
  - rewrite R1, I4, O4, S4, P4. simpl.
    now destruct (Reduce.attitude_of (rows_of roll)) as [[[a lo] hi]|].
Qed.

Lemma values_spec (rows : list Point) (v : Q) :
  In v (Reduce.values rows) <-> exists p, In p rows /\ p_Value p = Some v.
Proof.
  unfold Reduce.values. rewrite in_flat_map. split.
  - intros (p & Hp & Hv). exists p. split; [exact Hp|].
    destruct (p_Value p) as [x|]; [|destruct Hv].
    destruct Hv as [<- | []]. reflexivity.
  - intros (p & Hp & Hv). exists p. split; [exact Hp|].
    rewrite Hv. now left.
Qed.

Lemma speed_summary_of (rows : list Point) :
  speed_summary rows (Reduce.speed_of rows).
Proof. unfold speed_summary. apply speed_of_spec. Qed.


(** C6. When nobody cancels, the speed that the correlator reports is the
    greatest absolute value of the non-null samples returned by the speed
    query, times 3.6; it is absent when the query returns no row or no
    non-null value.  For the samples -2.0, 1.0 and -3.5 it is 12.6. *)
Theorem speed_is_greatest_absolute_sample_times_factor
        (env : Env) (self : Extractor) (check : CancelCheck)
        (vehicle : option string) (timestamp : Z) (w : World) :
  quiet env -> benign env -> never check -> cancelled w = false ->
  calm vehicle ->
  (exists td w',
      _get_telemetry_at_timestamp_with_cancellation env self vehicle
        timestamp check w = (Ok td, w') /\
      speed_summary
        (rows_of
           (store env (length (issued w) + 1)
              (QueryText.speed_query
                 (PyTime.strftime_micros (timestamp - telemetry_window self))
                 (PyTime.strftime_micros (timestamp + telemetry_window self))
                 vehicle)))
        (speed_kmh td)) /\
  PyNum.eq_opt
    (Reduce.speed_of (map Sample.value_point [-2; 1; -35 # 10]%Q))
    (Some (126 # 10)%Q) /\
  Reduce.speed_of [] = None /\
  Reduce.speed_of [mkPoint timestamp None None None None None] = None.
Proof.
  intros Hq Hb Hn Hc Hcalm.
  split; [|repeat split; vm_compute; reflexivity].
  destruct (telemetry_quiet env self Hq Hb check vehicle timestamp w
                            Hn Hc Hcalm) as (w' & E & _).
  eexists. exists w'. split; [exact E|].
  unfold window_answers, window_queries. cbn [seq combine map fst snd].
  destruct (correlate_fields
              (store env (length (issued w) + 0)
                 (QueryText.gps_query
                    (PyTime.strftime_micros (timestamp - telemetry_window self))
                    (PyTime.strftime_micros (timestamp + telemetry_window self))
                    vehicle))
              (store env (length (issued w) + 1)
                 (QueryText.speed_query
                    (PyTime.strftime_micros (timestamp - telemetry_window self))
                    (PyTime.strftime_micros (timestamp + telemetry_window self))
                    vehicle))
              (store env (length (issued w) + 2)
                 (QueryText.offpath_query (max_points_per_query self)
                    (PyTime.strftime_micros (timestamp - telemetry_window self))
                    (PyTime.strftime_micros (timestamp + telemetry_window self))
                    vehicle))
              (store env (length (issued w) + 3)
                 (QueryText.pitch_query (max_points_per_query self)
                    (PyTime.strftime_micros (timestamp - telemetry_window self))
                    (PyTime.strftime_micros (timestamp + telemetry_window self))
                    vehicle))
              (store env (length (issued w) + 4)
                 (QueryText.roll_query (max_points_per_query self)
                    (PyTime.strftime_micros (timestamp - telemetry_window self))
                    (PyTime.strftime_micros (timestamp + telemetry_window self))
                    vehicle))) as (Hs & _).
  cbv zeta in Hs. rewrite Hs. apply speed_summary_of.
Qed.

Lemma speed_is_greatest_absolute_sample_times_factor_witness :
  exists td w',
    _get_telemetry_at_timestamp_with_cancellation
      Sample.env_speed Sample.extractor (Some "DT059") Sample.t0 None
      new_world = (Ok td, w') /\
    PyNum.eq_opt (speed_kmh td) (Some (126 # 10)%Q).
Proof.
  destruct (speed_is_greatest_absolute_sample_times_factor
              Sample.env_speed Sample.extractor None (Some "DT059")
              Sample.t0 new_world) as ((td & w' & E & _) & _).
  - intros t. reflexivity.
  - intros n q m Hm. simpl in Hm. discriminate.
  - exact I.
  - reflexivity.
  - reflexivity.
  - exists td, w'. split; [exact E|].
    vm_compute in E. injection E as <- _. vm_compute. reflexivity.
Defined.



(** ** Query texts *)

(** C8, the code against it.  Of the five windowed queries of a
    correlation, the position query asks for one row and the off-path,
    pitch and roll queries are ordered most recent first and capped at
    [max_points_per_query]; the speed query ends with its vehicle
    condition, with neither an order nor a cap, unlike the speed query of
    the sibling method [_get_telemetry_at_timestamp]. *)
Theorem speed_query_has_no_row_cap :
  let qs := window_queries Sample.extractor (Some "DT059") Sample.t0 in
  map (PyStr.contains "LIMIT 1000") qs = [false; false; true; true; true] /\
  map (PyStr.contains "LIMIT") qs = [true; false; true; true; true] /\
  map (PyStr.contains "ORDER BY time DESC") qs
  = [false; false; true; true; true] /\
  issued (snd (_get_telemetry_at_timestamp_with_cancellation
                 Sample.env_speed Sample.extractor (Some "DT059") Sample.t0
                 None new_world)) = qs /\
  PyStr.contains "LIMIT 1000"
    (QueryText.speed_query_plain 1000
       (PyTime.strftime_micros (Sample.t0 - 500000))
       (PyTime.strftime_micros (Sample.t0 + 500000)) (Some "DT059")) = true /\
  forall start_str end_str vehicle,
  exists head,
    QueryText.speed_query start_str end_str vehicle
    = head ++ QueryText.vehicle_condition (str_vehicle vehicle)
           ++ QueryText.nl ++ QueryText.indent12.
Proof.
  cbv zeta.
  split; [vm_compute; reflexivity|].
  split; [vm_compute; reflexivity|].
  split; [vm_compute; reflexivity|].
  split; [vm_compute; reflexivity|].
  split; [vm_compute; reflexivity|].
  intros start_str end_str vehicle.
  unfold QueryText.speed_query, QueryText.window_head.
  exists (QueryText.nl ++ QueryText.indent12 ++ "SELECT "
            ++ QueryText.quoted "Value" ++ QueryText.nl
            ++ QueryText.indent12 ++ "FROM " ++ QueryText.source "Velocity X"
            ++ QueryText.nl ++ QueryText.indent12
            ++ QueryText.time_predicate start_str end_str ++ " AND ").
  rewrite !append_assoc. reflexivity.
Qed.

(** ** String literals in the queries *)








(** * Further properties of the code *)

(** ** The locator and the enrichment when nobody cancels *)

Section QuietEnrichment.

Variable env : Env.
Variable self : Extractor.
Hypothesis Hquiet : quiet env.

Lemma classify_points_quiet (check : CancelCheck) (points : list Point)
      (acc : list Event) (w : World) :
  never check -> cancelled w = false ->
  exists w',
    classify_points env self check points acc w
    = (Ok (acc ++ located (ALARM_TYPES self) points)%list, w') /\
    advanced [] w w'.
Proof.
  intros Hn. revert acc w.
  induction points as [|point rest IH]; intros acc w H; simpl.
  - exists w. split; [unfold ret; now rewrite app_nil_r|].
    now apply advanced_refl.
  - unfold bind.
    destruct (cancel_requested_quiet env Hquiet check w Hn H)
      as (w1 & -> & Ha).
    cbv beta iota zeta. unfold event_of_row.
    destruct (_classify_alarm (ALARM_TYPES self) (default "" (p_Title point)))
      as [t|].
    + destruct (String.eqb t "").
      * destruct (IH acc w1) as (w2 & -> & Hb); [apply Ha|].
        exists w2. split; [reflexivity|].
        apply (advanced_trans [] [] w w1 w2 Ha Hb).
      * destruct (IH (acc ++ [mkEvent t (p_Vehicle point) (p_time point)
                                      (default "" (p_Title point))])%list w1)
          as (w2 & -> & Hb); [apply Ha|].
        exists w2. split; [now rewrite <- app_assoc|].
        apply (advanced_trans [] [] w w1 w2 Ha Hb).
    + destruct (IH acc w1) as (w2 & -> & Hb); [apply Ha|].
      exists w2. split; [reflexivity|].
      apply (advanced_trans [] [] w w1 w2 Ha Hb).
Qed.

Lemma locator_quiet (start_time end_time : Z) (selected : list string)
      (vehicles : option (list string)) (check : CancelCheck) (w : World)
      (query : string) (points : list Point) :
  never check -> cancelled w = false ->
  QueryText.alarm_conditions (ALARM_TYPES self) selected <> [] ->
  query = QueryText.alarm_query
            (PyTime.strftime_seconds start_time)
            (PyTime.strftime_seconds end_time)
            (PyStr.join " OR "
               (QueryText.alarm_conditions (ALARM_TYPES self) selected))
            (QueryText.vehicle_filter vehicles) ->
  answer (store env (length (issued w)) query) = Some points ->
  exists w',
    _get_alarm_timestamps_with_cancellation env self start_time end_time
      selected vehicles check w
    = (Ok (located (ALARM_TYPES self) points), w') /\
    advanced [query] w w'.
Proof.
  intros Hn H Hc Hq Hans.
  destruct (cancel_requested_quiet env Hquiet check w Hn H)
    as (w1 & E1 & Ha).
  destruct (query_quiet env Hquiet query "alarm timestamps query" w1)
    as (w2 & E2 & Hb); [apply Ha|].
  assert (Hlen : length (issued w1) = length (issued w)).
  { destruct Ha as (_ & _ & c & _). rewrite c, app_nil_r. reflexivity. }
  rewrite Hlen in E2.
  pose proof (advanced_trans [] [query] w w1 w2 Ha Hb) as A2.
  assert (Er : gateway_result (store env (length (issued w)) query)
                              "alarm timestamps query" = Ok points).
  { unfold gateway_result. unfold answer in Hans.
    destruct (latency _ <=? query_timeout + 1)%nat; [|discriminate].
    destruct (outcome _); [|discriminate]. congruence. }
  rewrite Er in E2.
  destruct (cancel_requested_quiet env Hquiet check w2 Hn)
    as (w3 & E3 & Hc3); [apply A2|].
  pose proof (advanced_trans _ _ _ _ _ A2 Hc3) as A3.
  destruct (classify_points_quiet check points [] w3 Hn)
    as (w4 & E4 & Hc4); [apply A3|].
  pose proof (advanced_trans _ _ _ _ _ A3 Hc4) as A4.
  exists w4. split; [|exact A4].
  unfold _get_alarm_timestamps_with_cancellation.
  erewrite bind_ok by exact E1.
  destruct (QueryText.alarm_conditions (ALARM_TYPES self) selected)
    as [|c0 cs] eqn:Ec; [congruence|].
  cbv beta iota zeta. rewrite <- Hq.
  apply try_ok.
  erewrite bind_ok by exact E2.
  erewrite bind_ok by exact E3.
  exact E4.
Qed.

End QuietEnrichment.

(** ** Pauses *)

Lemma steady_eq {A} (m : M A) (w w' : World) (r : Res A) :
  steady m -> m w = (r, w') -> slept w' = slept w.
Proof. intros H E. specialize (H w). now rewrite E in H. Qed.

Lemma steady_ret {A} (a : A) : steady (ret a).
Proof. intros w. reflexivity. Qed.

Lemma steady_raise {A} (e : Exn) : steady (@raise A e).
Proof. intros w. reflexivity. Qed.

Lemma steady_bind {A B} (m : M A) (k : A -> M B) :
  steady m -> (forall a, steady (k a)) -> steady (bind m k).
Proof.
  intros Hm Hk w. unfold bind. specialize (Hm w).
  destruct (m w) as [[a|e] w1]; simpl in *; [|exact Hm].
  now rewrite Hk.
Qed.

Lemma steady_try {A} (m : M A) (h : Exn -> M A) :
  steady m -> (forall e, steady (h e)) -> steady (try_except m h).
Proof.
  intros Hm Hh w. unfold try_except. specialize (Hm w).
  destruct (m w) as [[a|e] w1]; simpl in *; [exact Hm|].
  now rewrite Hh.
Qed.

Lemma steady_read_cancelled (env : Env) : steady (read_cancelled env).
Proof. intros w. reflexivity. Qed.

Lemma steady_cancel_requested (env : Env) (check : CancelCheck) :
  steady (cancel_requested env check).
Proof.
  apply steady_bind; [apply steady_read_cancelled|].
  intros [|]; [apply steady_ret|].
  intros w. unfold poll. now destruct check.
Qed.

Lemma steady_future_result (future : Response) (deadline : nat) :
  steady (future_result future deadline).
Proof. intros w. now rewrite future_result_eq. Qed.

Lemma steady_wait_loop (env : Env) (elapsed : list nat) (future : Response)
      (name : string) :
  steady (wait_loop env elapsed future name).
Proof.
  induction elapsed as [|e rest IH]; cbn [wait_loop].
  - apply steady_bind; [apply steady_read_cancelled|].
    intros [|]; simpl; [apply steady_raise | apply steady_future_result].
  - apply steady_bind; [apply steady_read_cancelled|].
    intros [|]; [apply steady_raise|].
    apply steady_try; [apply steady_future_result|].
    intros err. destruct (exn_class err); try apply steady_raise. exact IH.
Qed.

Lemma steady_execute (env : Env) (query name : string) :
  steady (_execute_query_with_cancellation env query name).
Proof.
  apply steady_bind; [apply steady_read_cancelled|].
  intros [|]; [apply steady_raise|].
  apply steady_try.
  - apply steady_bind; [intros w; reflexivity|].
    intros future. apply steady_wait_loop.
  - intros e. destruct (exn_class e); try apply steady_raise;
      (apply steady_bind; [apply steady_read_cancelled|]; intros c;
       destruct (c || mentions_cancelled e); apply steady_raise).
Qed.

Lemma steady_query (env : Env) (query name : string) :
  steady (_query_with_cancellation env query name).
Proof.
  apply steady_bind; [apply steady_read_cancelled|].
  intros [|]; [apply steady_raise|].
  apply steady_try.
  - apply steady_bind; [apply steady_execute|]. intros result.
    apply steady_bind; [apply steady_read_cancelled|].
    intros [|]; [apply steady_raise | apply steady_ret].
  - intros e. apply steady_bind; [apply steady_read_cancelled|].
    intros [|]; apply steady_raise.
Qed.

Lemma steady_classify_points (env : Env) (self : Extractor)
      (check : CancelCheck) (points : list Point) (acc : list Event) :
  steady (classify_points env self check points acc).
Proof.
  revert acc. induction points as [|point rest IH]; intros acc;
    cbn [classify_points]; [apply steady_ret|].
  apply steady_bind; [apply steady_cancel_requested|].
  intros [|]; [apply steady_raise|].
  cbv zeta. destruct (_classify_alarm _ _) as [t|]; [|apply IH].
  destruct (String.eqb t ""); apply IH.
Qed.

Lemma steady_locator (env : Env) (self : Extractor) (start_time end_time : Z)
      (selected : list string) (vehicles : option (list string))
      (check : CancelCheck) :
  steady (_get_alarm_timestamps_with_cancellation env self start_time
            end_time selected vehicles check).
Proof.
  apply steady_bind; [apply steady_cancel_requested|].
  intros [|]; [apply steady_raise|].
  cbv zeta. destruct (QueryText.alarm_conditions _ _); [apply steady_ret|].
  apply steady_try.
  - apply steady_bind; [apply steady_query|]. intros points.
    apply steady_bind; [apply steady_cancel_requested|].
    intros [|]; [apply steady_raise | apply steady_classify_points].
  - intros e. apply steady_bind; [apply steady_read_cancelled|].
    intros c. destruct (c || mentions_cancelled e);
      [apply steady_raise | apply steady_ret].
Qed.

Section QuietPauses.

Variable env : Env.
Variable self : Extractor.
Hypothesis Hquiet : quiet env.
Hypothesis Hbenign : benign env.

Local Open Scope Q_scope.

Lemma telemetry_block_pause (check : CancelCheck)
      (before during query name : string)
      (reduce : list Point -> Telemetry -> Telemetry) (td : Telemetry)
      (w : World) :
  never check -> cancelled w = false ->
  PyStr.contains "cancelled"
    (PyStr.lower ("Query timeout after 10s: " ++ name)) = false ->
  slept (snd (telemetry_block env self check before during query name
                              reduce td w))
  == slept w
     + inject_Z (Z.of_nat (answered (store env (length (issued w)) query)))
       * query_delay self.
Proof.
  intros Hn H Hname. unfold telemetry_block, try_except, bind.
  destruct (cancel_requested_quiet env Hquiet check w Hn H)
    as (w1 & E1 & Ha).
  pose proof (steady_eq _ _ _ _ (steady_cancel_requested env check) E1) as S1.
  rewrite E1.
  destruct (query_quiet env Hquiet query name w1)
    as (w2 & E2 & Hb); [apply Ha|].
  pose proof (steady_eq _ _ _ _ (steady_query env query name) E2) as S2.
  rewrite E2.
  assert (Hlen : length (issued w1) = length (issued w)).
  { destruct Ha as (_ & _ & c & _). now rewrite c, app_nil_r. }
  rewrite Hlen. set (r := store env (length (issued w)) query).
  pose proof (advanced_trans [] [query] w w1 w2 Ha Hb) as Hw2.
  simpl in Hw2.
  unfold gateway_result, answered, answer.
  destruct (latency r <=? query_timeout + 1)%nat.
  - destruct (outcome r) as [points | m] eqn:Ho.
    + unfold sleep, ret. simpl. rewrite S2, S1. ring.
    + rewrite (Hbenign _ _ _ Ho).
      destruct (read_cancelled_quiet env Hquiet w2) as (w3 & E3 & Hc);
        [apply Hw2|].
      pose proof (steady_eq _ _ _ _ (steady_read_cancelled env) E3) as S3.
      rewrite E3.
      unfold mentions_cancelled. cbn [exn_msg orb].
      rewrite (Hbenign _ _ _ Ho). simpl. rewrite S3, S2, S1. ring.
  - destruct (read_cancelled_quiet env Hquiet w2) as (w3 & E3 & Hc);
      [apply Hw2|].
    pose proof (steady_eq _ _ _ _ (steady_read_cancelled env) E3) as S3.
    rewrite E3.
    unfold mentions_cancelled. cbn [exn_msg orb].
    rewrite Hname. simpl. rewrite S3, S2, S1. ring.
Qed.

Lemma inject_nat_add (a b : nat) :
  inject_Z (Z.of_nat (a + b)) == inject_Z (Z.of_nat a) + inject_Z (Z.of_nat b).
Proof. rewrite Nat2Z.inj_add, inject_Z_plus. reflexivity. Qed.

(** The pauses of one correlation: one for each of its five queries that
    is answered. *)
Lemma telemetry_pause (check : CancelCheck) (vehicle : option string)
      (timestamp : Z) (w : World) :
  never check -> cancelled w = false -> calm vehicle ->
  slept (snd (_get_telemetry_at_timestamp_with_cancellation env self
                vehicle timestamp check w))
  == slept w
     + inject_Z (Z.of_nat
                   (list_sum (map answered
                                  (window_answers env self
                                     (length (issued w)) vehicle timestamp))))
       * query_delay self.
Proof.
  intros Hn H Hcalm.
  unfold _get_telemetry_at_timestamp_with_cancellation, bind at 1.
  destruct (cancel_requested_quiet env Hquiet check w Hn H)
    as (w0 & E0 & H0).
  pose proof (steady_eq _ _ _ _ (steady_cancel_requested env check) E0) as S0.
  rewrite E0.
  cbv beta iota zeta.
  assert (Hname : forall label,
             In label ["GPS query for "; "speed query for ";
                       "off-path query for "; "pitch query for ";
                       "roll query for "]%string ->
             PyStr.contains "cancelled"
               (PyStr.lower ("Query timeout after 10s: "
                               ++ label ++ str_vehicle vehicle)) = false).
  { intros label Hl. rewrite (timeout_message_calm label _ Hl).
    exact Hcalm. }
  unfold window_answers, window_queries.
  cbn [seq combine map fst snd list_sum].
  set (n := length (issued w)).
  assert (L0 : length (issued w0) = n)
    by (rewrite (advanced_length _ _ _ H0); simpl; lia).
  unfold bind.
  match goal with
  | |- context [telemetry_block env self check ?b ?d ?q ?nm ?r ?td w0] =>
      pose proof (telemetry_block_pause check b d q nm r td w0 Hn) as P1;
      destruct (telemetry_block_quiet env self Hquiet Hbenign check b d q nm
                                      r td w0 Hn)
        as (w1 & E1 & H1);
      [apply H0 | apply Hname; simpl; tauto |];
      rewrite E1 in P1 |- *; simpl snd in P1
  end.
  specialize (P1 (proj1 H0)). 
  pose proof (advanced_trans _ _ _ _ _ H0 H1) as A1.
  assert (L1 : length (issued w1) = (n + 1)%nat)
    by (rewrite (advanced_length _ _ _ A1); simpl; lia).
  match goal with
  | |- context [telemetry_block env self check ?b ?d ?q ?nm ?r ?td w1] =>
      pose proof (telemetry_block_pause check b d q nm r td w1 Hn) as P2;
      destruct (telemetry_block_quiet env self Hquiet Hbenign check b d q nm
                                      r td w1 Hn)
        as (w2 & E2 & H2);
      [apply H1 | apply Hname; simpl; tauto |];
      rewrite E2 in P2 |- *; simpl snd in P2
  end.
  specialize (P2 (proj1 H1)).
  pose proof (advanced_trans _ _ _ _ _ A1 H2) as A2.
  assert (L2 : length (issued w2) = (n + 2)%nat)
    by (rewrite (advanced_length _ _ _ A2); simpl; lia).
  match goal with
  | |- context [telemetry_block env self check ?b ?d ?q ?nm ?r ?td w2] =>
      pose proof (telemetry_block_pause check b d q nm r td w2 Hn) as P3;
      destruct (telemetry_block_quiet env self Hquiet Hbenign check b d q nm
                                      r td w2 Hn)
        as (w3 & E3 & H3);
      [apply H2 | apply Hname; simpl; tauto |];
      rewrite E3 in P3 |- *; simpl snd in P3
  end.
  specialize (P3 (proj1 H2)).
  pose proof (advanced_trans _ _ _ _ _ A2 H3) as A3.
  assert (L3 : length (issued w3) = (n + 3)%nat)
    by (rewrite (advanced_length _ _ _ A3); simpl; lia).
  match goal with
  | |- context [telemetry_block env self check ?b ?d ?q ?nm ?r ?td w3] =>
      pose proof (telemetry_block_pause check b d q nm r td w3 Hn) as P4;
      destruct (telemetry_block_quiet env self Hquiet Hbenign check b d q nm
                                      r td w3 Hn)
        as (w4 & E4 & H4);
      [apply H3 | apply Hname; simpl; tauto |];
      rewrite E4 in P4 |- *; simpl snd in P4
  end.
  specialize (P4 (proj1 H3)).
  pose proof (advanced_trans _ _ _ _ _ A3 H4) as A4.
  assert (L4 : length (issued w4) = (n + 4)%nat)
    by (rewrite (advanced_length _ _ _ A4); simpl; lia).
  match goal with
  | |- context [telemetry_block env self check ?b ?d ?q ?nm ?r ?td w4] =>
      pose proof (telemetry_block_pause check b d q nm r td w4 Hn
                    (proj1 H4)) as P5
  end.
  rewrite P5 by (apply Hname; simpl; tauto).
  rewrite P4 by (apply Hname; simpl; tauto).
  rewrite P3 by (apply Hname; simpl; tauto).
  rewrite P2 by (apply Hname; simpl; tauto).
  rewrite P1 by (apply Hname; simpl; tauto).
  rewrite S0, L0, L1, L2, L3, L4, Nat.add_0_r.
  unfold list_sum. cbn [fold_right].
  rewrite !inject_nat_add. simpl (Z.of_nat 0). ring.
Qed.

End QuietPauses.

Section QuietLoop.

Variable env : Env.
Variable self : Extractor.
Hypothesis Hquiet : quiet env.
Hypothesis Hbenign : benign env.

Lemma enrich_loop_quiet (check : CancelCheck) (events : list Event)
      (acc : list EnrichedEvent) (w : World) :
  never check -> cancelled w = false ->
  Forall (fun ev => calm (vehicle ev)) events ->
  exists w',
    enrich_loop env self check events acc w
    = (Ok (acc ++ enriched_from env self (length (issued w)) events)%list,
       w') /\
    advanced (enrichment_queries self events) w w' /\
    (slept w'
     == slept w
        + inject_Z (Z.of_nat (pauses env self (length (issued w)) events))
          * query_delay self)%Q.
Proof.
  intros Hn. revert acc w.
  induction events as [|ev rest IH]; intros acc w H Hcalm.
  - exists w. simpl. split; [unfold ret; now rewrite app_nil_r|].
    split; [now apply advanced_refl|]. ring.
  - inversion Hcalm as [|? ? Hev Hrest]; subst.
    cbn [enrich_loop enriched_from enrichment_queries flat_map pauses].
    destruct (cancel_requested_quiet env Hquiet check w Hn H)
      as (w1 & E1 & H1).
    pose proof (steady_eq _ _ _ _ (steady_cancel_requested env check) E1)
      as S1.
    assert (L1 : length (issued w1) = length (issued w))
      by (rewrite (advanced_length _ _ _ H1); simpl; lia).
    pose proof (telemetry_pause env self Hquiet Hbenign check (vehicle ev)
                  (timestamp ev) w1 Hn (proj1 H1) Hev) as P2.
    destruct (telemetry_quiet env self Hquiet Hbenign check (vehicle ev)
                (timestamp ev) w1 Hn (proj1 H1) Hev) as (w2 & E2 & H2).
    rewrite E2 in P2. simpl snd in P2. rewrite L1 in E2, P2.
    pose proof (advanced_trans _ _ _ _ _ H1 H2) as A2. simpl app in A2.
    set (w3 := mkWorld (cancelled w2) (client w2) (clock w2) (issued w2)
                       (slept w2 + query_delay self)%Q (observed w2)).
    assert (A3 : advanced (window_queries self (vehicle ev) (timestamp ev))
                          w w3).
    { destruct A2 as (a & b & c & d). unfold advanced, w3. simpl. auto. }
    assert (L3 : length (issued w3) = (length (issued w) + 5)%nat).
    { rewrite (advanced_length _ _ _ A3). reflexivity. }
    destruct (IH (acc ++ [mkEnriched ev
                            (correlate
                               (window_answers env self (length (issued w))
                                  (vehicle ev) (timestamp ev)))])%list
                 w3 (proj1 A3) Hrest) as (w4 & E4 & H4 & P4).
    rewrite L3 in E4, P4.
    exists w4. split; [|split].
    + erewrite bind_ok by exact E1. cbv beta iota.
      erewrite bind_ok by exact E2.
      erewrite bind_ok by (unfold sleep; reflexivity).
      fold w3. rewrite E4. now rewrite <- app_assoc.
    + apply (advanced_trans _ _ _ _ _ A3 H4).
    + rewrite P4. unfold w3. cbn [slept]. rewrite P2, S1.
      rewrite !inject_nat_add. simpl (Z.of_nat 1). ring.
Qed.

(** The extraction as a whole when nobody cancels and the locator is
    answered with rows. *)
Lemma extract_quiet (start_time end_time : Z) (selected : list string)
      (vehicles : option (list string)) (max_hours : Q)
      (check : CancelCheck) (w : World) (query : string)
      (points : list Point) :
  never check -> client w = true ->
  PyNum.gt (PyTime.duration_hours start_time end_time) max_hours = false ->
  QueryText.alarm_conditions (ALARM_TYPES self) selected <> [] ->
  query = QueryText.alarm_query
            (PyTime.strftime_seconds start_time)
            (PyTime.strftime_seconds end_time)
            (PyStr.join " OR "
               (QueryText.alarm_conditions (ALARM_TYPES self) selected))
            (QueryText.vehicle_filter vehicles) ->
  answer (store env (length (issued w)) query) = Some points ->
  Forall (fun ev => calm (vehicle ev)) (located (ALARM_TYPES self) points) ->
  exists w',
    extract_alarm_events env self start_time end_time selected vehicles
                         max_hours check w
    = (Ok (enriched_from env self (length (issued w) + 1)
                         (located (ALARM_TYPES self) points)), w') /\
    issued w'
    = (issued w
         ++ query :: enrichment_queries self
                       (located (ALARM_TYPES self) points))%list /\
    observed w' = observed w /\
    (slept w'
     == slept w
        + inject_Z (Z.of_nat (pauses env self (length (issued w) + 1)
                                     (located (ALARM_TYPES self) points)))
          * query_delay self)%Q.
Proof.
  intros Hn Hcl Hd Hc Hq Hans Hcalm.
  rewrite (extract_enters env self _ _ _ _ _ _ _ Hcl Hd).
  set (w0 := mkWorld false (client w) (clock w) (issued w) (slept w)
                     (observed w)).
  destruct (locator_quiet env self Hquiet start_time end_time selected
              vehicles check w0 query points Hn eq_refl Hc Hq Hans)
    as (w1 & E1 & H1).
  pose proof (steady_eq _ _ _ _
                (steady_locator env self start_time end_time selected
                                vehicles check) E1) as S1.
  assert (L1 : length (issued w1) = (length (issued w) + 1)%nat).
  { rewrite (advanced_length _ _ _ H1). reflexivity. }
  destruct (located (ALARM_TYPES self) points) as [|ev rest] eqn:El.
  - exists w1. split; [|split; [|split]].
    + apply try_ok. erewrite bind_ok by exact E1. reflexivity.
    + destruct H1 as (_ & _ & c & _). exact c.
    + destruct H1 as (_ & _ & _ & d). exact d.
    + rewrite S1. simpl. ring.
  - destruct (enrich_loop_quiet check (ev :: rest) [] w1 Hn (proj1 H1) Hcalm)
      as (w2 & E2 & H2 & P2).
    rewrite L1 in E2, P2.
    exists w2. split; [|split; [|split]].
    + apply try_ok. erewrite bind_ok by exact E1. exact E2.
    + destruct (advanced_trans _ _ _ _ _ H1 H2) as (_ & _ & c & _).
      exact c.
    + destruct (advanced_trans _ _ _ _ _ H1 H2) as (_ & _ & _ & d).
      exact d.
    + rewrite P2, S1. reflexivity.
Qed.

End QuietLoop.

Lemma event_of_enriched_from (env : Env) (self : Extractor) (n : nat)
      (events : list Event) :
  map event (enriched_from env self n events) = events.
Proof.
  revert n. induction events as [|ev rest IH]; intros n; simpl;
    [reflexivity|]. now rewrite IH.
Qed.

Lemma classify_loop_member (types : list string) (title_lower a : string) :
  classify_loop types title_lower = Some a ->
  In a types /\ keywords_match a title_lower = true.
Proof.
  induction types as [|t rest IH]; simpl; [discriminate|].
  destruct (keywords_match t title_lower) eqn:E.
  - intros [= <-]. split; [now left | exact E].
  - intros H. destruct (IH H) as (Hin & Hk). split; [now right | exact Hk].
Qed.

Lemma event_of_row_spec (catalog : list string) (point : Point) (ev : Event) :
  event_of_row catalog point = Some ev ->
  In (alarm_type ev) catalog /\ alarm_type ev <> "" /\
  qualifies (alarm_type ev) (title ev) /\ from_row ev point.
Proof.
  unfold event_of_row, _classify_alarm. cbv zeta.
  destruct (classify_loop catalog _) as [a|] eqn:E; [|discriminate].
  destruct (String.eqb a "") eqn:Ea; [discriminate|].
  intros [= <-]. apply classify_loop_member in E. destruct E as (Hin & Hk).
  simpl. split; [exact Hin|]. split.
  - intros ->. discriminate.
  - split; [now apply keywords_match_spec | repeat split].
Qed.

Lemma located_spec (catalog : list string) (points : list Point) (ev : Event) :
  In ev (located catalog points) ->
  In (alarm_type ev) catalog /\ alarm_type ev <> "" /\
  qualifies (alarm_type ev) (title ev) /\
  exists point, In point points /\ from_row ev point.
Proof.
  induction points as [|point rest IH]; simpl; [intros []|].
  destruct (event_of_row catalog point) as [ev'|] eqn:E.
  - intros [<- | Hin].
    + destruct (event_of_row_spec _ _ _ E) as (a & b & c & d).
      repeat split; try assumption. exists point. split; [now left | exact d].
    + destruct (IH Hin) as (a & b & c & p & Hp & d).
      repeat split; try assumption. exists p. split; [now right | exact d].
  - intros Hin. destruct (IH Hin) as (a & b & c & p & Hp & d).
    repeat split; try assumption. exists p. split; [now right | exact d].
Qed.

(** X1. When nobody cancels and the store answers the locator's query
    with rows, the locator returns, in the order of the rows, one event for
    each row whose title gets a non-empty type from the classifier, and
    drops the other rows.  Every event carries a type of the catalog whose
    keywords all occur in its title, and the title, vehicle and instant of
    its row; one query is sent. *)
Theorem locator_keeps_the_classified_rows_in_order
        (env : Env) (self : Extractor) (start_time end_time : Z)
        (selected : list string) (vehicles : option (list string))
        (check : CancelCheck) (w : World) (points : list Point) :
  quiet env -> never check -> cancelled w = false ->
  QueryText.alarm_conditions (ALARM_TYPES self) selected <> [] ->
  answer (store env (length (issued w))
                (locator_text self start_time end_time selected vehicles))
  = Some points ->
  exists events w',
    _get_alarm_timestamps_with_cancellation env self start_time end_time
      selected vehicles check w = (Ok events, w') /\
    events = located (ALARM_TYPES self) points /\
    issued w'
    = (issued w
         ++ [locator_text self start_time end_time selected vehicles])%list /\
    Forall (fun ev =>
              In (alarm_type ev) (ALARM_TYPES self) /\ alarm_type ev <> "" /\
              qualifies (alarm_type ev) (title ev) /\
              exists point, In point points /\ from_row ev point)
           events.
Proof.
  intros Hq Hn Hc Hcond Hans.
  destruct (locator_quiet env self Hq start_time end_time selected vehicles
              check w _ points Hn Hc Hcond eq_refl Hans)
    as (w' & E & (_ & _ & Hi & _)).
  exists (located (ALARM_TYPES self) points), w'.
  split; [exact E|]. split; [reflexivity|]. split; [exact Hi|].
  apply List.Forall_forall. intros ev Hev. now apply located_spec in Hev.
Qed.

Lemma locator_keeps_the_classified_rows_in_order_witness :
  exists events w',
    _get_alarm_timestamps_with_cancellation Sample.env_two_alarms
      Sample.extractor Sample.t0 (Sample.t0 + Sample.one_hour) ["Off Path"]
      None None connected_world = (Ok events, w') /\
    map alarm_type events = ["Off Path"; "Off Path"] /\
    map title events = ["Vehicle Off Path"; "off path alarm"] /\
    length (issued w') = 2%nat.
Proof.
  destruct (locator_keeps_the_classified_rows_in_order
              Sample.env_two_alarms Sample.extractor Sample.t0
              (Sample.t0 + Sample.one_hour) ["Off Path"] None None
              connected_world
              [Sample.alarm_point (Sample.t0 + 1800000000)
                                  "Vehicle Off Path" "DT059";
               Sample.alarm_point (Sample.t0 + 600000000)
                                  "off path alarm" "DT059"])
    as (events & w' & E & -> & Hi & _).
  - intros t. reflexivity.
  - exact I.
  - reflexivity.
  - vm_compute. discriminate.
  - reflexivity.
  - eexists. exists w'. split; [exact E|].
    split; [vm_compute; reflexivity|]. split; [vm_compute; reflexivity|].
    rewrite Hi. reflexivity.
Defined.

(** X2. When nobody cancels, no error of the store and no vehicle name
    has the word "cancelled" in it, and the store answers the locator's
    query with rows, the extraction returns exactly one enriched event for
    each event of the locator, in the same order, each with the telemetry
    reduced from the answers to its own five windowed queries; the queries
    sent are the one of the locator, then the five windowed queries of each
    event in turn. *)
Theorem extraction_enriches_each_located_event_in_order
        (env : Env) (self : Extractor) (start_time end_time : Z)
        (selected : list string) (vehicles : option (list string))
        (max_hours : Q) (check : CancelCheck) (w : World)
        (points : list Point) :
  quiet env -> benign env -> never check -> client w = true ->
  PyNum.gt (PyTime.duration_hours start_time end_time) max_hours = false ->
  QueryText.alarm_conditions (ALARM_TYPES self) selected <> [] ->
  answer (store env (length (issued w))
                (locator_text self start_time end_time selected vehicles))
  = Some points ->
  Forall (fun ev => calm (vehicle ev)) (located (ALARM_TYPES self) points) ->
  exists enriched w',
    extract_alarm_events env self start_time end_time selected vehicles
                         max_hours check w = (Ok enriched, w') /\
    map event enriched = located (ALARM_TYPES self) points /\
    enriched = enriched_from env self (length (issued w) + 1)
                             (located (ALARM_TYPES self) points) /\
    issued w'
    = (issued w
         ++ locator_text self start_time end_time selected vehicles
         :: enrichment_queries self (located (ALARM_TYPES self) points))%list.
Proof.
  intros Hq Hb Hn Hcl Hd Hcond Hans Hcalm.
  destruct (extract_quiet env self Hq Hb start_time end_time selected
              vehicles max_hours check w _ points Hn Hcl Hd Hcond eq_refl
              Hans Hcalm) as (w' & E & Hi & _).
  eexists. exists w'. split; [exact E|].
  split; [apply event_of_enriched_from|]. split; [reflexivity | exact Hi].
Qed.

Lemma extraction_enriches_each_located_event_in_order_witness :
  exists enriched w',
    extract_alarm_events Sample.env_two_alarms Sample.extractor Sample.t0
      (Sample.t0 + Sample.one_hour) ["Off Path"] None (30 # 1) None
      connected_world = (Ok enriched, w') /\
    map (fun e => timestamp (event e)) enriched
    = [Sample.t0 + 1800000000; Sample.t0 + 600000000] /\
    length (issued w') = 12%nat.
Proof.
  destruct (extraction_enriches_each_located_event_in_order
              Sample.env_two_alarms Sample.extractor Sample.t0
              (Sample.t0 + Sample.one_hour) ["Off Path"] None (30 # 1) None
              connected_world
              [Sample.alarm_point (Sample.t0 + 1800000000)
                                  "Vehicle Off Path" "DT059";
               Sample.alarm_point (Sample.t0 + 600000000)
                                  "off path alarm" "DT059"])
    as (enriched & w' & E & Hev & _ & Hi).
  - intros t. reflexivity.
  - intros n q m Hm. destruct n as [|[|n]]; simpl in Hm; discriminate.
  - exact I.
  - reflexivity.
  - reflexivity.
  - vm_compute. discriminate.
  - reflexivity.
  - vm_compute. repeat constructor.
  - exists enriched, w'. split; [exact E|]. split.
    + rewrite <- (map_map event timestamp), Hev. vm_compute. reflexivity.
    + rewrite Hi. vm_compute. reflexivity.
Defined.

(** X3. In such a run the extraction pauses for [query_delay] once after
    each windowed query that the store answers in time without an error,
    be it with no row, and once after each event; it takes no pause after
    the locator's query nor after a windowed query that fails or times
    out. *)
Theorem extraction_pauses_after_answers_and_events
        (env : Env) (self : Extractor) (start_time end_time : Z)
        (selected : list string) (vehicles : option (list string))
        (max_hours : Q) (check : CancelCheck) (w : World)
        (points : list Point) :
  quiet env -> benign env -> never check -> client w = true ->
  PyNum.gt (PyTime.duration_hours start_time end_time) max_hours = false ->
  QueryText.alarm_conditions (ALARM_TYPES self) selected <> [] ->
  answer (store env (length (issued w))
                (locator_text self start_time end_time selected vehicles))
  = Some points ->
  Forall (fun ev => calm (vehicle ev)) (located (ALARM_TYPES self) points) ->
  (slept (snd (extract_alarm_events env self start_time end_time selected
                 vehicles max_hours check w))
   == slept w
      + inject_Z (Z.of_nat (pauses env self (length (issued w) + 1)
                                   (located (ALARM_TYPES self) points)))
        * query_delay self)%Q.
Proof.
  intros Hq Hb Hn Hcl Hd Hcond Hans Hcalm.
  destruct (extract_quiet env self Hq Hb start_time end_time selected
              vehicles max_hours check w _ points Hn Hcl Hd Hcond eq_refl
              Hans Hcalm) as (w' & E & _ & _ & Hs).
  rewrite E. exact Hs.
Qed.

Lemma extraction_pauses_after_answers_and_events_witness :
  (slept (snd (extract_alarm_events Sample.env_two_alarms Sample.extractor
                 Sample.t0 (Sample.t0 + Sample.one_hour) ["Off Path"] None
                 (30 # 1) None connected_world))
   == 12 # 10)%Q.
Proof.
  rewrite (extraction_pauses_after_answers_and_events
             Sample.env_two_alarms Sample.extractor Sample.t0
             (Sample.t0 + Sample.one_hour) ["Off Path"] None (30 # 1) None
             connected_world
             [Sample.alarm_point (Sample.t0 + 1800000000)
                                 "Vehicle Off Path" "DT059";
              Sample.alarm_point (Sample.t0 + 600000000)
                                 "off path alarm" "DT059"]).
  - vm_compute. reflexivity.
  - intros t. reflexivity.
  - intros n q m Hm. destruct n as [|[|n]]; simpl in Hm; discriminate.
  - exact I.
  - reflexivity.
  - reflexivity.
  - vm_compute. discriminate.
  - reflexivity.
  - vm_compute. repeat constructor.
Defined.

(** ** Position and off-path error *)

Lemma offpath_summary_of (rows : list Point) :
  offpath_summary rows (Reduce.offpath_of rows).
Proof.
  unfold offpath_summary, Reduce.offpath_of.
  pose proof (maximum_spec (map Qabs (Reduce.values rows))) as H.
  destruct (Reduce.values rows) as [|v vs]; [reflexivity|].
  destruct (Reduce.maximum (map Qabs (v :: vs))) as [m|]; [|discriminate].
  exists m. split; [exact H|]. split; [reflexivity | apply round2_spec].
Qed.

Lemma commands_frame (reduce : list Point -> Telemetry -> Telemetry)
      (points : list Point) (td : Telemetry) :
  In reduce [Reduce.set_position; Reduce.set_speed; Reduce.set_offpath;
             Reduce.set_pitch; Reduce.set_roll] ->
  (steering_command (reduce points td), throttle_command (reduce points td))
  = (steering_command td, throttle_command td).
Proof.
  intros [<- | [<- | [<- | [<- | [<- | []]]]]].
  - unfold Reduce.set_position. now destruct points.
  - unfold Reduce.set_speed. now destruct (Reduce.speed_of points).
  - unfold Reduce.set_offpath. now destruct (Reduce.offpath_of points).
  - unfold Reduce.set_pitch.
    now destruct (Reduce.attitude_of points) as [[[a lo] hi]|].
  - unfold Reduce.set_roll.
    now destruct (Reduce.attitude_of points) as [[[a lo] hi]|].
Qed.

(** The position, the off-path error and the two command fields of a
    correlation. *)
Lemma correlate_position (gps speed offpath pitch roll : Response) :
  let td := correlate [gps; speed; offpath; pitch; roll] in
  (latitude td, longitude td)
  = match rows_of gps with
    | [] => (None, None)
    | p :: _ => (p_Latitude p, p_Longitude p)
    end /\
  off_path_error_m td = Reduce.offpath_of (rows_of offpath) /\
  (steering_command td, throttle_command td) = (None, None).
Proof.
  unfold correlate. cbv zeta.
  rewrite !apply_answer_rows by reflexivity.
  set (t1 := Reduce.set_position (rows_of gps) telemetry_init).
  set (t2 := Reduce.set_speed (rows_of speed) t1).
  set (t3 := Reduce.set_offpath (rows_of offpath) t2).
  set (t4 := Reduce.set_pitch (rows_of pitch) t3).
  destruct (set_speed_frame (rows_of speed) t1) as (_ & S1 & S2 & _).
  destruct (set_offpath_frame (rows_of offpath) t2) as (O1 & O2 & _).
  destruct (set_pitch_frame (rows_of pitch) t3) as (_ & I1 & _ & I2 & _).
  destruct (set_roll_frame (rows_of roll) t4) as (_ & R1 & _ & R2 & _).
  fold t2 in S1, S2. fold t3 in O1, O2. fold t4 in I1, I2.
  split; [|split].
  - rewrite R1, I1, O2, S1. unfold t1, Reduce.set_position.
    now destruct (rows_of gps).
  - rewrite R2, I2, O1, S2.
    assert (E : off_path_error_m t1 = None)
      by (unfold t1, Reduce.set_position; now destruct (rows_of gps)).
    rewrite E. now destruct (Reduce.offpath_of (rows_of offpath)).
  - rewrite (commands_frame Reduce.set_roll) by (simpl; tauto).
    fold t4. unfold t4.
    rewrite (commands_frame Reduce.set_pitch) by (simpl; tauto).
    fold t3. unfold t3.
    rewrite (commands_frame Reduce.set_offpath) by (simpl; tauto).
    fold t2. unfold t2.
    rewrite (commands_frame Reduce.set_speed) by (simpl; tauto).
    fold t1. unfold t1.
    rewrite (commands_frame Reduce.set_position) by (simpl; tauto).
    reflexivity.
Qed.

Lemma window_answers_shape (env : Env) (self : Extractor) (n : nat)
      (vehicle : option string) (timestamp : Z) :
  window_answers env self n vehicle timestamp
  = map (window_answer env self n vehicle timestamp) [0; 1; 2; 3; 4]%nat.
Proof. reflexivity. Qed.

(** X4. When nobody cancels, the off-path error that the correlator
    reports is the greatest absolute value of the non-null samples that the
    off-path query returns, rounded to hundredths (half to even); it is
    absent when that query fails, comes late, or returns no non-null
    value. *)
Theorem off_path_error_is_greatest_absolute_sample_rounded
        (env : Env) (self : Extractor) (check : CancelCheck)
        (vehicle : option string) (timestamp : Z) (w : World) :
  quiet env -> benign env -> never check -> cancelled w = false ->
  calm vehicle ->
  exists td w',
    _get_telemetry_at_timestamp_with_cancellation env self vehicle
      timestamp check w = (Ok td, w') /\
    offpath_summary
      (rows_of (window_answer env self (length (issued w)) vehicle
                              timestamp 2))
      (off_path_error_m td).
Proof.
  intros Hq Hb Hn Hc Hcalm.
  destruct (telemetry_quiet env self Hq Hb check vehicle timestamp w
                            Hn Hc Hcalm) as (w' & E & _).
  eexists. exists w'. split; [exact E|].
  rewrite window_answers_shape. cbn [map].
  match goal with
  | |- context [correlate [?g; ?s; ?o; ?p; ?r]] =>
      destruct (correlate_position g s o p r) as (_ & Ho & _)
  end.
  cbv zeta in Ho. rewrite Ho. apply offpath_summary_of.
Qed.

Lemma off_path_error_is_greatest_absolute_sample_rounded_witness :
  exists td w',
    _get_telemetry_at_timestamp_with_cancellation
      Sample.env_speed Sample.extractor (Some "DT059") Sample.t0 None
      new_world = (Ok td, w') /\
    off_path_error_m td = Some (350 # 100)%Q.
Proof.
  destruct (off_path_error_is_greatest_absolute_sample_rounded
              Sample.env_speed Sample.extractor None (Some "DT059")
              Sample.t0 new_world) as (td & w' & E & _).
  - intros t. reflexivity.
  - intros n q m Hm. simpl in Hm. discriminate.
  - exact I.
  - reflexivity.
  - reflexivity.
  - exists td, w'. split; [exact E|].
    vm_compute in E. injection E as <- _. vm_compute. reflexivity.
Defined.

(** X5. When nobody cancels, the position that the correlator reports is
    read from the first row that the position query returns, a null column
    giving an absent coordinate; both coordinates are absent when that
    query fails, comes late or returns no row.  The steering and throttle
    commands are never filled in. *)
Theorem position_is_first_row_and_commands_stay_absent
        (env : Env) (self : Extractor) (check : CancelCheck)
        (vehicle : option string) (timestamp : Z) (w : World) :
  quiet env -> benign env -> never check -> cancelled w = false ->
  calm vehicle ->
  exists td w',
    _get_telemetry_at_timestamp_with_cancellation env self vehicle
      timestamp check w = (Ok td, w') /\
    (latitude td, longitude td)
    = match rows_of (window_answer env self (length (issued w)) vehicle
                                   timestamp 0) with
      | [] => (None, None)
      | p :: _ => (p_Latitude p, p_Longitude p)
      end /\
    steering_command td = None /\ throttle_command td = None.
Proof.
  intros Hq Hb Hn Hc Hcalm.
  destruct (telemetry_quiet env self Hq Hb check vehicle timestamp w
                            Hn Hc Hcalm) as (w' & E & _).
  eexists. exists w'. split; [exact E|].
  rewrite window_answers_shape. cbn [map].
  match goal with
  | |- context [correlate [?g; ?s; ?o; ?p; ?r]] =>
      destruct (correlate_position g s o p r) as (Hp & _ & Hcmd)
  end.
  cbv zeta in Hp, Hcmd. split; [exact Hp|].
  apply pair_equal_spec in Hcmd. exact Hcmd.
Qed.

Lemma position_is_first_row_and_commands_stay_absent_witness :
  exists td w',
    _get_telemetry_at_timestamp_with_cancellation
      Fixture.env_position Sample.extractor (Some "DT059") Sample.t0 None
      new_world = (Ok td, w') /\
    (latitude td, longitude td)
    = (Some (-318755 # 10000), Some (1162245 # 10000))%Q /\
    steering_command td = None /\ throttle_command td = None.
Proof.
  destruct (position_is_first_row_and_commands_stay_absent
              Fixture.env_position Sample.extractor None (Some "DT059")
              Sample.t0 new_world) as (td & w' & E & Hp & Hc).
  - intros t. reflexivity.
  - intros n q m Hm. simpl in Hm. discriminate.
  - exact I.
  - reflexivity.
  - reflexivity.
  - exists td, w'. split; [exact E|]. split; [exact Hp | exact Hc].
Defined.

(** ** The methods without checkpoints *)

Lemma never_raises_swallow {A} (m : M A) (a : A) :
  never_raises (try_except m (fun _ => ret a)).
Proof.
  intros w. unfold try_except.
  destruct (m w) as [[x|e] w']; simpl; eexists; reflexivity.
Qed.

Lemma never_raises_bind {A B} (m : M A) (k : A -> M B) :
  never_raises m -> (forall a, never_raises (k a)) -> never_raises (bind m k).
Proof.
  intros Hm Hk w. unfold bind. destruct (Hm w) as (a & Ha).
  destruct (m w) as [r w1]. simpl in Ha. subst r. apply Hk.
Qed.

Lemma never_raises_plain_block (env : Env) (self : Extractor)
      (query name : string) (reduce : list Point -> Telemetry -> Telemetry)
      (td : Telemetry) :
  never_raises (plain_block env self query name reduce td).
Proof. apply never_raises_swallow. Qed.

Lemma execute_when_cancelled (env : Env) (query name : string) (w : World) :
  cancelled w = true ->
  exists w',
    _execute_query_with_cancellation env query name w
    = (Raise (cancelled_before name), w') /\
    cancelled w' = true /\ issued w' = issued w /\ slept w' = slept w.
Proof.
  intros H. unfold _execute_query_with_cancellation, bind, read_cancelled.
  rewrite H. simpl. eexists. split; [reflexivity|]. simpl. auto.
Qed.

Lemma idle_plain_block (env : Env) (self : Extractor)
      (query name : string) (reduce : list Point -> Telemetry -> Telemetry)
      (td : Telemetry) :
  idle_when_cancelled (plain_block env self query name reduce td) td.
Proof.
  intros w H. unfold plain_block, try_except, bind.
  destruct (execute_when_cancelled env query name w H) as (w' & -> & a & b & c).
  simpl. auto.
Qed.

Lemma idle_bind {A B} (m : M A) (k : A -> M B) (a : A) (b : B) :
  idle_when_cancelled m a -> idle_when_cancelled (k a) b ->
  idle_when_cancelled (bind m k) b.
Proof.
  intros Hm Hk w H. unfold bind. destruct (Hm w H) as (E & c & i & s).
  destruct (m w) as [r w1]. simpl in *. subst r.
  destruct (Hk w1 c) as (E' & c' & i' & s').
  rewrite E', c', i', s', i, s. auto.
Qed.

Section QuietPlain.

Variable env : Env.
Variable self : Extractor.
Hypothesis Hquiet : quiet env.



End QuietPlain.

Lemma never_raises_plain_telemetry (env : Env) (self : Extractor)
      (vehicle : option string) (timestamp : Z) :
  never_raises (_get_telemetry_at_timestamp env self vehicle timestamp).
Proof.
  unfold _get_telemetry_at_timestamp, _get_attitude_data. cbv zeta.
  repeat (apply never_raises_bind;
          [apply never_raises_plain_block | intros ?]).
  apply never_raises_plain_block.
Qed.

Lemma idle_plain_telemetry (env : Env) (self : Extractor)
      (vehicle : option string) (timestamp : Z) :
  idle_when_cancelled (_get_telemetry_at_timestamp env self vehicle timestamp)
                      telemetry_init.
Proof.
  unfold _get_telemetry_at_timestamp, _get_attitude_data. cbv zeta.
  repeat (eapply idle_bind; [apply idle_plain_block|]).
  apply idle_plain_block.
Qed.

Lemma never_raises_plain_locator (env : Env) (self : Extractor)
      (start_time end_time : Z) (selected : list string)
      (vehicles : option (list string)) :
  never_raises (_get_alarm_timestamps env self start_time end_time selected
                                      vehicles).
Proof.
  unfold _get_alarm_timestamps. cbv zeta.
  destruct (QueryText.alarm_conditions _ _).
  - intros w. now exists [].
  - apply never_raises_swallow.
Qed.

Lemma idle_plain_locator (env : Env) (self : Extractor)
      (start_time end_time : Z) (selected : list string)
      (vehicles : option (list string)) :
  idle_when_cancelled (_get_alarm_timestamps env self start_time end_time
                                             selected vehicles) [].
Proof.
  unfold _get_alarm_timestamps. cbv zeta.
  destruct (QueryText.alarm_conditions _ _).
  - intros w H. simpl. auto.
  - intros w H. unfold try_except, bind.
    destruct (execute_when_cancelled env
                (QueryText.alarm_query (PyTime.strftime_seconds start_time)
                   (PyTime.strftime_seconds end_time)
                   (PyStr.join " OR " (s :: l))
                   (QueryText.vehicle_filter vehicles))
                "alarm_events_query" w H) as (w' & -> & a & b & c).
    simpl. auto.
Qed.

(** X6. The two methods without checkpoints, [_get_telemetry_at_timestamp]
    and [_get_alarm_timestamps], never raise: every failure of a query is
    logged and swallowed.  A cancellation is swallowed too: started with
    the cancellation flag set, the first returns a dictionary with every
    field absent and the second the empty list, no query being sent and no
    pause taken. *)
Theorem methods_without_checkpoints_swallow_cancellation
        (env : Env) (self : Extractor) (vehicle : option string)
        (timestamp start_time end_time : Z) (selected : list string)
        (vehicles : option (list string)) :
  never_raises (_get_telemetry_at_timestamp env self vehicle timestamp) /\
  never_raises (_get_alarm_timestamps env self start_time end_time selected
                                      vehicles) /\
  idle_when_cancelled (_get_telemetry_at_timestamp env self vehicle timestamp)
                      telemetry_init /\
  idle_when_cancelled (_get_alarm_timestamps env self start_time end_time
                                             selected vehicles) [].
Proof.
  split; [apply never_raises_plain_telemetry|].
  split; [apply never_raises_plain_locator|].
  split; [apply idle_plain_telemetry | apply idle_plain_locator].
Qed.

Lemma methods_without_checkpoints_swallow_cancellation_witness :
  fst (_get_telemetry_at_timestamp Sample.env_speed Sample.extractor
         (Some "DT059") Sample.t0 Fixture.cancelled_world)
  = Ok telemetry_init /\
  fst (_get_alarm_timestamps Sample.env_two_alarms Sample.extractor
         Sample.t0 (Sample.t0 + Sample.one_hour) ["Off Path"] None
         Fixture.cancelled_world)
  = Ok [].
Proof.
  destruct (methods_without_checkpoints_swallow_cancellation
              Sample.env_speed Sample.extractor (Some "DT059") Sample.t0
              Sample.t0 (Sample.t0 + Sample.one_hour) ["Off Path"] None)
    as (_ & _ & Ht & _).
  destruct (methods_without_checkpoints_swallow_cancellation
              Sample.env_two_alarms Sample.extractor (Some "DT059") Sample.t0
              Sample.t0 (Sample.t0 + Sample.one_hour) ["Off Path"] None)
    as (_ & _ & _ & Hl).
  split.
  - apply (Ht Fixture.cancelled_world). reflexivity.
  - apply (Hl Fixture.cancelled_world). reflexivity.
Defined.





Section QuietLocators.

Variable env : Env.
Variable self : Extractor.
Hypothesis Hquiet : quiet env.
Hypothesis Hbenign : benign env.

Lemma locator_quiet_failure (start_time end_time : Z)
      (selected : list string) (vehicles : option (list string))
      (check : CancelCheck) (w : World) (query : string) :
  never check -> cancelled w = false ->
  QueryText.alarm_conditions (ALARM_TYPES self) selected <> [] ->
  query = locator_text self start_time end_time selected vehicles ->
  answer (store env (length (issued w)) query) = None ->
  exists w',
    _get_alarm_timestamps_with_cancellation env self start_time end_time
      selected vehicles check w = (Ok [], w') /\
    advanced [query] w w'.
Proof.
  intros Hn H Hc Hq Hans.
  destruct (cancel_requested_quiet env Hquiet check w Hn H)
    as (w1 & E1 & Ha).
  destruct (query_quiet env Hquiet query "alarm timestamps query" w1)
    as (w2 & E2 & Hb); [apply Ha|].
  assert (Hlen : length (issued w1) = length (issued w)).
  { destruct Ha as (_ & _ & c & _). rewrite c, app_nil_r. reflexivity. }
  rewrite Hlen in E2.
  pose proof (advanced_trans [] [query] w w1 w2 Ha Hb) as A0.
  set (r := store env (length (issued w)) query) in *.
  assert (Hres : exists e, gateway_result r "alarm timestamps query"
                           = Raise e /\ mentions_cancelled e = false).
  { unfold gateway_result. unfold answer in Hans.
    destruct (latency r <=? query_timeout + 1)%nat.
    - destruct (outcome r) as [ps|m] eqn:Ho; [discriminate|].
      rewrite (Hbenign _ _ _ Ho). eexists. split; [reflexivity|].
      unfold mentions_cancelled. simpl. apply (Hbenign _ _ _ Ho).
    - eexists. split; reflexivity. }
  destruct Hres as (e & Er & He). rewrite Er in E2.
  destruct (read_cancelled_quiet env Hquiet w2) as (w3 & E3 & Hc3);
    [apply A0|].
  exists w3. split; [|apply (advanced_trans _ _ _ _ _ A0 Hc3)].
  unfold _get_alarm_timestamps_with_cancellation.
  erewrite bind_ok by exact E1. unfold locator_text in Hq.
  destruct (QueryText.alarm_conditions (ALARM_TYPES self) selected)
    as [|c0 cs] eqn:Ec; [congruence|].
  cbv beta iota zeta. rewrite <- Hq.
  erewrite try_raise by (eapply bind_raise; exact E2).
  erewrite bind_ok by exact E3. rewrite He. reflexivity.
Qed.

Lemma plain_locator_quiet (start_time end_time : Z)
      (selected : list string) (vehicles : option (list string))
      (w : World) :
  cancelled w = false ->
  QueryText.alarm_conditions (ALARM_TYPES self) selected <> [] ->
  exists w',
    _get_alarm_timestamps env self start_time end_time selected vehicles w
    = (Ok (match answer (store env (length (issued w))
                           (locator_text self start_time end_time selected
                                         vehicles)) with
           | Some points => located (ALARM_TYPES self) points
           | None => []
           end), w') /\
    advanced [locator_text self start_time end_time selected vehicles] w w'.
Proof.
  intros H Hc. unfold _get_alarm_timestamps, locator_text.
  destruct (QueryText.alarm_conditions (ALARM_TYPES self) selected)
    as [|c0 cs] eqn:Ec; [congruence|].
  cbv beta iota zeta. unfold try_except, bind.
  match goal with
  | |- context [_execute_query_with_cancellation env ?q ?nm w] =>
      destruct (execute_quiet env Hquiet q nm w H) as (w1 & -> & Ha);
      set (r := store env (length (issued w)) q)
  end.
  unfold gateway_result, answer.
  destruct (latency r <=? query_timeout + 1)%nat.
  - destruct (outcome r) as [points | m].
    + exists w1. now split.
    + destruct (PyStr.contains "cancelled" (PyStr.lower m));
        exists w1; now split.
  - exists w1. now split.
Qed.

End QuietLocators.

(** X8. When nobody cancels and no error of the store has the word
    "cancelled" in it, [_get_alarm_timestamps] and the locator of the
    extraction send the same query and return the same events: the
    classified rows in order, or no event when the query fails, comes late
    or the selection meets no entry of the catalog. *)
Theorem the_two_locators_agree
        (env : Env) (self : Extractor) (start_time end_time : Z)
        (selected : list string) (vehicles : option (list string))
        (check : CancelCheck) (w : World) :
  quiet env -> benign env -> never check -> cancelled w = false ->
  let plain := _get_alarm_timestamps env self start_time end_time selected
                                     vehicles w in
  let aware := _get_alarm_timestamps_with_cancellation env self start_time
                 end_time selected vehicles check w in
  fst plain = fst aware /\ issued (snd plain) = issued (snd aware) /\
  exists events, fst plain = Ok events.
Proof.
  intros Hq Hb Hn Hc. cbv zeta.
  destruct (QueryText.alarm_conditions (ALARM_TYPES self) selected)
    as [|c0 cs] eqn:Ec.
  - destruct (cancel_requested_quiet env Hq check w Hn Hc)
      as (w1 & E1 & (_ & _ & Hi & _)).
    unfold _get_alarm_timestamps,
      _get_alarm_timestamps_with_cancellation.
    erewrite bind_ok by exact E1. rewrite Ec. simpl.
    rewrite Hi, app_nil_r. split; [reflexivity|]. split; [reflexivity|].
    now exists [].
  - assert (Hne : QueryText.alarm_conditions (ALARM_TYPES self) selected
                  <> []) by (rewrite Ec; discriminate).
    destruct (plain_locator_quiet env self Hq start_time end_time selected
                vehicles w Hc Hne) as (w1 & E1 & (_ & _ & I1 & _)).
    rewrite E1.
    destruct (answer (store env (length (issued w))
                        (locator_text self start_time end_time selected
                                      vehicles))) as [points|] eqn:Ea.
    + destruct (locator_quiet env self Hq start_time end_time selected
                  vehicles check w _ points Hn Hc Hne eq_refl Ea)
        as (w2 & E2 & (_ & _ & I2 & _)).
      rewrite E2. simpl. rewrite I1, I2.
      split; [reflexivity|]. split; [reflexivity|]. eexists. reflexivity.
    + destruct (locator_quiet_failure env self Hq Hb start_time end_time
                  selected vehicles check w _ Hn Hc Hne eq_refl Ea)
        as (w2 & E2 & (_ & _ & I2 & _)).
      rewrite E2. simpl. rewrite I1, I2.
      split; [reflexivity|]. split; [reflexivity|]. eexists. reflexivity.
Qed.

Lemma the_two_locators_agree_witness :
  fst (_get_alarm_timestamps Sample.env_two_alarms Sample.extractor
         Sample.t0 (Sample.t0 + Sample.one_hour) ["Off Path"] None
         connected_world)
  = fst (_get_alarm_timestamps_with_cancellation Sample.env_two_alarms
           Sample.extractor Sample.t0 (Sample.t0 + Sample.one_hour)
           ["Off Path"] None None connected_world).
Proof.
  apply (the_two_locators_agree Sample.env_two_alarms Sample.extractor
           Sample.t0 (Sample.t0 + Sample.one_hour) ["Off Path"] None None
           connected_world).
  - intros t. reflexivity.
  - intros n q m Hm. destruct n as [|[|n]]; simpl in Hm; discriminate.
  - exact I.
  - reflexivity.
Defined.

(** ** Stripping *)

Lemma length_zero (s : string) : (String.length s =? 0)%nat = true <-> s = "".
Proof.
  destruct s; simpl; split; intros H; try reflexivity; discriminate.
Qed.

Lemma length_positive (s : string) :
  (0 <? String.length s)%nat = true <-> s <> "".
Proof.
  destruct s; simpl; split; intros H; try reflexivity; try discriminate.
  now contradiction H.
Qed.

Lemma lstrip_starts (s : string) : lstrip s = "" \/ ~ starts_blank (lstrip s).
Proof.
  induction s as [|c s IH]; [now left|]. simpl.
  destruct (PyStr.is_space c) eqn:E; [exact IH|].
  right. simpl. congruence.
Qed.

Lemma rstrip_not_ends_blank (s : string) : ~ ends_blank (rstrip s).
Proof.
  induction s as [|c s IH]; simpl.
  - intros H. now apply ends_blank_nonempty in H.
  - destruct (String.eqb_spec (rstrip s) ""); simpl.
    + destruct (PyStr.is_space c) eqn:E.
      * intros H. now apply ends_blank_nonempty in H.
      * intros H. apply ends_blank_uncons in H as [(_ & Hc) | H];
          [congruence | contradiction].
    + intros H. apply ends_blank_uncons in H as [(Hr & _) | H];
        [contradiction | contradiction].
Qed.


Lemma rstrip_starts (s : string) :
  ~ starts_blank s -> ~ starts_blank (rstrip s).
Proof.
  destruct s as [|c s]; simpl; [tauto|].
  intros H. destruct (PyStr.is_space c) eqn:E; [contradiction|].
  rewrite andb_false_r. simpl. congruence.
Qed.

(** What [strip] returns is empty or trimmed. *)
Lemma strip_trimmed (s : string) : strip s <> "" -> trimmed (strip s).
Proof.
  intros H. unfold strip in *. split; [|apply rstrip_not_ends_blank].
  destruct (lstrip_starts s) as [E | Hs].
  - rewrite E in H. now contradiction H.
  - now apply rstrip_starts.
Qed.

Lemma rstrip_fixed (s : string) : ~ ends_blank s -> rstrip s = s.
Proof.
  induction s as [|c s IH]; [reflexivity|]. intros H. simpl.
  destruct (String.eqb_spec (rstrip s) "") as [E|E]; simpl.
  - destruct (PyStr.is_space c) eqn:Hc.
    + exfalso. destruct s as [|d s].
      * apply H. now apply ends_blank_single.
      * assert (Hs : ~ ends_blank (String d s)).
        { intros Hs. apply H. now apply ends_blank_cons. }
        rewrite (IH Hs) in E. discriminate.
    + destruct s as [|d s]; [reflexivity|].
      assert (Hs : ~ ends_blank (String d s)).
      { intros Hs. apply H. now apply ends_blank_cons. }
      rewrite (IH Hs) in E. discriminate.
  - rewrite IH; [reflexivity|]. intros Hs. apply H.
    now apply ends_blank_cons.
Qed.

Lemma lstrip_fixed (s : string) : ~ starts_blank s -> lstrip s = s.
Proof.
  destruct s as [|c s]; simpl; [reflexivity|].
  intros H. now destruct (PyStr.is_space c).
Qed.

(** A trimmed string is left as it is. *)
Lemma strip_fixed (s : string) : trimmed s -> strip s = s.
Proof.
  intros (Hs & He). unfold strip. rewrite (lstrip_fixed s Hs).
  now apply rstrip_fixed.
Qed.

Lemma strip_idempotent (s : string) : strip (strip s) = strip s.
Proof.
  destruct (String.eqb_spec (strip s) "") as [E|E].
  - rewrite E. reflexivity.
  - now apply strip_fixed, strip_trimmed.
Qed.

Lemma trimmed_nonempty (s : string) : trimmed s -> s <> "".
Proof. intros (H & _) ->. now apply H. Qed.

(** ** The catalog *)

Lemma remove_spec (x : string) (l : list string) :
  In x l ->
  exists pre post, l = (pre ++ x :: post)%list /\ ~ In x pre /\
                   Catalog.remove x l = (pre ++ post)%list.
Proof.
  induction l as [|y rest IH]; [intros []|]. intros H. simpl.
  destruct (String.eqb_spec y x) as [-> | Hne].
  - exists [], rest. now repeat split.
  - destruct H as [-> | H]; [now contradiction Hne|].
    destruct (IH H) as (pre & post & -> & Hpre & ->).
    exists (y :: pre), post. repeat split. intros [-> | Hin];
      [now apply Hne | now apply Hpre].
Qed.

Lemma remove_absent (x : string) (l : list string) :
  ~ In x l -> Catalog.remove x (l ++ [x]) = l.
Proof.
  induction l as [|y rest IH]; intros H; simpl.
  - now rewrite String.eqb_refl.
  - destruct (String.eqb_spec y x) as [-> | Hne].
    + exfalso. apply H. now left.
    + rewrite IH; [reflexivity|]. intros Hin. apply H. now right.
Qed.

Lemma with_alarm_types_same (self : Extractor) :
  Catalog.with_alarm_types (ALARM_TYPES self) self = self.
Proof. now destruct self. Qed.

Lemma valid_types_spec (l : list string) (e : string) :
  In e (Catalog.valid_types l) <->
  exists t, In t l /\ e = strip t /\ e <> "".
Proof.
  induction l as [|t rest IH]; simpl.
  - split; [intros [] | intros (t & [] & _)].
  - destruct (0 <? String.length (strip t))%nat eqn:E.
    + apply length_positive in E. simpl. rewrite IH. split.
      * intros [<- | (t' & Hin & He)].
        -- exists t. auto.
        -- exists t'. tauto.
      * intros (t' & [<- | Hin] & -> & Hne); [now left|].
        right. exists t'. auto.
    + rewrite IH. split.
      * intros (t' & Hin & He). exists t'. tauto.
      * intros (t' & [<- | Hin] & -> & Hne).
        -- apply length_positive in Hne. congruence.
        -- exists t'. auto.
Qed.

Lemma tidy_valid_types (l : list string) : tidy (Catalog.valid_types l).
Proof.
  apply List.Forall_forall. intros e He.
  apply valid_types_spec in He as (t & _ & -> & Hne).
  now apply strip_trimmed.
Qed.

Lemma tidy_defaults : tidy DEFAULT_ALARM_TYPES.
Proof.
  apply List.Forall_forall. intros e He.
  assert (E : strip e = e /\ e <> "").
  { simpl in He.
    repeat (destruct He as [<- | He];
            [split; [vm_compute; reflexivity | discriminate]|]).
    destruct He. }
  destruct E as (E & Hne). rewrite <- E. apply strip_trimmed. now rewrite E.
Qed.

Lemma tidy_remove (x : string) (l : list string) :
  tidy l -> tidy (Catalog.remove x l).
Proof.
  unfold tidy. induction l as [|y rest IH]; intros H; simpl; [constructor|].
  inversion H as [|? ? Hy Hrest]; subst.
  destruct (String.eqb y x); [exact Hrest|].
  constructor; [exact Hy | exact (IH Hrest)].
Qed.

(** X9. [add_alarm_type] strips the text it is given and appends it to
    the catalog when it is not blank and not yet listed; otherwise it
    answers [False] and leaves the extractor as it was.  It keeps a
    catalog without duplicates free of duplicates, and a catalog of trimmed
    entries trimmed. *)
Theorem add_alarm_type_appends_a_new_stripped_type
        (alarm_type : string) (self : Extractor) :
  let out := Catalog.add_alarm_type alarm_type self in
  (fst out = true <->
   strip alarm_type <> "" /\ ~ In (strip alarm_type) (ALARM_TYPES self)) /\
  (fst out = true ->
   snd out = Catalog.with_alarm_types
               (ALARM_TYPES self ++ [strip alarm_type]) self) /\
  (fst out = false -> snd out = self) /\
  (NoDup (ALARM_TYPES self) -> NoDup (ALARM_TYPES (snd out))) /\
  (tidy (ALARM_TYPES self) -> tidy (ALARM_TYPES (snd out))).
Proof.
  cbv zeta. unfold Catalog.add_alarm_type.
  destruct (String.length (strip alarm_type) =? 0)%nat eqn:E.
  - apply length_zero in E. simpl.
    split; [split; [discriminate | intros (H & _); now contradiction H]|].
    split; [discriminate|]. split; [reflexivity|]. tauto.
  - assert (Hne : strip alarm_type <> "").
    { intros H. apply length_zero in H. congruence. }
    destruct (PyStr.mem (strip alarm_type) (ALARM_TYPES self)) eqn:Em; simpl.
    + apply mem_spec in Em.
      split; [split; [discriminate | tauto]|].
      split; [discriminate|]. split; [reflexivity|]. tauto.
    + assert (Hnin : ~ In (strip alarm_type) (ALARM_TYPES self)).
      { intros H. apply mem_spec in H. congruence. }
      split; [tauto|]. split; [reflexivity|]. split; [discriminate|].
      split.
      * intros Hnd. apply NoDup_app. split; [exact Hnd|]. split.
        -- intros x Hx Hx'. apply list_elem_of_singleton in Hx'. subst x.
           apply Hnin. now apply list_elem_of_In.
        -- apply NoDup_singleton.
      * intros Ht. apply Forall_app. split; [exact Ht|].
        constructor; [now apply strip_trimmed | constructor].
Qed.

Lemma classify_loop_app (types : list string) (a title_lower : string) :
  classify_loop (types ++ [a]) title_lower
  = match classify_loop types title_lower with
    | Some t => Some t
    | None => if keywords_match a title_lower then Some a else None
    end.
Proof.
  induction types as [|t rest IH]; simpl; [reflexivity|].
  now destruct (keywords_match t title_lower).
Qed.

(** X10. A type that [add_alarm_type] has added comes last in the
    catalog: every title keeps the type it had, and a title that had none
    gets the new type exactly when all the keywords of the new type occur
    in it. *)
Theorem an_added_type_has_the_lowest_priority
        (alarm_type title : string) (self self' : Extractor) :
  Catalog.add_alarm_type alarm_type self = (true, self') ->
  _classify_alarm (ALARM_TYPES self') title
  = match _classify_alarm (ALARM_TYPES self) title with
    | Some t => Some t
    | None =>
        if keywords_match (strip alarm_type) (PyStr.lower title)
        then Some (strip alarm_type) else None
    end.
Proof.
  unfold Catalog.add_alarm_type.
  destruct (String.length (strip alarm_type) =? 0)%nat; [discriminate|].
  destruct (PyStr.mem (strip alarm_type) (ALARM_TYPES self));
    [discriminate|].
  intros [= <-]. unfold _classify_alarm. simpl. apply classify_loop_app.
Qed.

Lemma an_added_type_has_the_lowest_priority_witness :
  let self' := snd (Catalog.add_alarm_type "  Low Battery " Sample.extractor)
  in
  _classify_alarm (ALARM_TYPES self') "Battery LOW on DT059"
  = Some "Low Battery" /\
  _classify_alarm (ALARM_TYPES self') "Off path, battery low"
  = Some "Off Path".
Proof.
  cbv zeta. split.
  - rewrite (an_added_type_has_the_lowest_priority
               "  Low Battery " "Battery LOW on DT059" Sample.extractor
               (snd (Catalog.add_alarm_type "  Low Battery "
                                            Sample.extractor)));
      [vm_compute; reflexivity | reflexivity].
  - rewrite (an_added_type_has_the_lowest_priority
               "  Low Battery " "Off path, battery low" Sample.extractor
               (snd (Catalog.add_alarm_type "  Low Battery "
                                            Sample.extractor)));
      [vm_compute; reflexivity | reflexivity].
Defined.

(** X11. Removing a type right after [add_alarm_type] has added it gives
    back the extractor as it was before the addition. *)
Theorem removing_an_added_type_restores_the_catalog
        (alarm_type : string) (self self' : Extractor) :
  Catalog.add_alarm_type alarm_type self = (true, self') ->
  Catalog.remove_alarm_type (strip alarm_type) self' = (true, self).
Proof.
  unfold Catalog.add_alarm_type.
  destruct (String.length (strip alarm_type) =? 0)%nat; [discriminate|].
  destruct (PyStr.mem (strip alarm_type) (ALARM_TYPES self)) eqn:Em;
    [discriminate|].
  intros [= <-]. unfold Catalog.remove_alarm_type. simpl.
  assert (Hin : PyStr.mem (strip alarm_type)
                          (ALARM_TYPES self ++ [strip alarm_type]) = true).
  { apply mem_spec, in_or_app. right. now left. }
  rewrite Hin, remove_absent.
  - unfold Catalog.with_alarm_types. simpl. now destruct self.
  - intros H. apply mem_spec in H. congruence.
Qed.

Lemma removing_an_added_type_restores_the_catalog_witness :
  Catalog.remove_alarm_type "Low Battery"
    (snd (Catalog.add_alarm_type " Low Battery" Sample.extractor))
  = (true, Sample.extractor).
Proof.
  apply (removing_an_added_type_restores_the_catalog
           " Low Battery" Sample.extractor).
  reflexivity.
Defined.

(** X12. [remove_alarm_type] answers [True] exactly when the text, taken
    as it is, is in the catalog; it then removes the first entry equal to
    it and nothing else, the other entries keeping their order, so that a
    duplicate further down stays.  Otherwise the extractor is left as it
    was.  A catalog of trimmed entries stays trimmed. *)
Theorem remove_alarm_type_removes_the_first_occurrence
        (alarm_type : string) (self : Extractor) :
  let out := Catalog.remove_alarm_type alarm_type self in
  (fst out = true <-> In alarm_type (ALARM_TYPES self)) /\
  (fst out = true ->
   exists pre post,
     ALARM_TYPES self = (pre ++ alarm_type :: post)%list /\
     ~ In alarm_type pre /\
     snd out = Catalog.with_alarm_types (pre ++ post) self) /\
  (fst out = false -> snd out = self) /\
  (tidy (ALARM_TYPES self) -> tidy (ALARM_TYPES (snd out))).
Proof.
  cbv zeta. unfold Catalog.remove_alarm_type.
  destruct (PyStr.mem alarm_type (ALARM_TYPES self)) eqn:Em; simpl.
  - apply mem_spec in Em. split; [tauto|]. split; [|split].
    + intros _. destruct (remove_spec _ _ Em) as (pre & post & E & Hn & ->).
      exists pre, post. auto.
    + discriminate.
    + apply tidy_remove.
  - split.
    + split; [discriminate|]. intros H. apply mem_spec in H. congruence.
    + split; [discriminate|]. split; [reflexivity | tauto].
Qed.

Lemma classify_loop_remove (types : list string) (a title_lower : string) :
  match classify_loop types title_lower with
  | Some t =>
      t <> a ->
      classify_loop (Catalog.remove a types) title_lower = Some t
  | None => classify_loop (Catalog.remove a types) title_lower = None
  end.
Proof.
  induction types as [|y rest IH]; simpl; [reflexivity|].
  destruct (keywords_match y title_lower) eqn:Ek.
  - intros Hne. destruct (String.eqb_spec y a) as [-> | _];
      [now contradiction Hne|].
    simpl. now rewrite Ek.
  - destruct (String.eqb_spec y a) as [-> | _].
    + destruct (classify_loop rest title_lower); auto.
    + simpl. rewrite Ek. exact IH.
Qed.

(** X13. Removing a type changes the classification of no title that had
    another type, and gives no type to a title that had none. *)
Theorem removing_a_type_leaves_the_other_titles_alone
        (alarm_type title : string) (self : Extractor) :
  let self' := snd (Catalog.remove_alarm_type alarm_type self) in
  match _classify_alarm (ALARM_TYPES self) title with
  | Some t =>
      t <> alarm_type -> _classify_alarm (ALARM_TYPES self') title = Some t
  | None => _classify_alarm (ALARM_TYPES self') title = None
  end.
Proof.
  cbv zeta. unfold Catalog.remove_alarm_type, _classify_alarm.
  destruct (PyStr.mem alarm_type (ALARM_TYPES self)); simpl.
  - apply classify_loop_remove.
  - now destruct (classify_loop (ALARM_TYPES self) (PyStr.lower title)).
Qed.

(** X14. [set_alarm_types] with an empty list restores the defaults.
    With a list that has an entry that is not blank it replaces the
    catalog by these entries, stripped, in their order, the blank ones
    being dropped; duplicates are kept.  With blank entries only it
    answers [False] and leaves the extractor as it was.  On success the
    catalog is trimmed: no entry is empty or has a blank at either end. *)
Theorem set_alarm_types_keeps_the_stripped_entries
        (alarm_types : list string) (self : Extractor) :
  let out := Catalog.set_alarm_types alarm_types self in
  (alarm_types = [] ->
   out = (true, Catalog.with_alarm_types DEFAULT_ALARM_TYPES self)) /\
  (alarm_types <> [] ->
   (fst out = true <-> exists t, In t alarm_types /\ strip t <> "") /\
   (fst out = true ->
    snd out = Catalog.with_alarm_types (Catalog.valid_types alarm_types)
                                       self) /\
   (fst out = false -> snd out = self)) /\
  (forall e, In e (Catalog.valid_types alarm_types) <->
             exists t, In t alarm_types /\ e = strip t /\ e <> "") /\
  (fst out = true -> tidy (ALARM_TYPES (snd out))).
Proof.
  cbv zeta. split; [intros ->; reflexivity|]. split; [|split].
  - intros Hne. unfold Catalog.set_alarm_types.
    destruct alarm_types as [|t0 rest]; [now contradiction Hne|].
    destruct (Catalog.valid_types (t0 :: rest)) as [|v vs] eqn:Ev; simpl.
    + split; [|split; [discriminate | reflexivity]].
      split; [discriminate|]. intros (t & Hin & Ht).
      assert (H : In (strip t) (Catalog.valid_types (t0 :: rest))).
      { apply valid_types_spec. exists t. auto. }
      rewrite Ev in H. destruct H.
    + split; [|split; [reflexivity | discriminate]].
      split; [|reflexivity]. intros _.
      assert (H : In v (Catalog.valid_types (t0 :: rest)))
        by (rewrite Ev; now left).
      apply valid_types_spec in H as (t & Hin & -> & Hn). now exists t.
  - intros e. apply valid_types_spec.
  - unfold Catalog.set_alarm_types.
    destruct alarm_types as [|t0 rest].
    + intros _. apply tidy_defaults.
    + pose proof (tidy_valid_types (t0 :: rest)) as Ht.
      destruct (Catalog.valid_types (t0 :: rest)) as [|v vs].
      * intros H. discriminate H.
      * intros _. exact Ht.
Qed.

Lemma set_alarm_types_keeps_the_stripped_entries_witness :
  ALARM_TYPES
    (snd (Catalog.set_alarm_types [" Off  Path "; "   "; "Overspeed"; ""]
                                  Sample.extractor))
  = ["Off  Path"; "Overspeed"] /\
  Catalog.set_alarm_types ["  "; ""] Sample.extractor
  = (false, Sample.extractor).
Proof.
  destruct (set_alarm_types_keeps_the_stripped_entries
              [" Off  Path "; "   "; "Overspeed"; ""] Sample.extractor)
    as (_ & H & _).
  destruct (set_alarm_types_keeps_the_stripped_entries
              ["  "; ""] Sample.extractor) as (_ & H' & _).
  destruct H as (_ & H & _); [discriminate|].
  destruct H' as (_ & _ & H'); [discriminate|].
  split.
  - rewrite H; [vm_compute; reflexivity | reflexivity].
  - apply injective_projections; [reflexivity|]. apply H'. reflexivity.
Defined.

(** ** Blank titles *)

Lemma is_space_lower_char (c : ascii) :
  PyStr.is_space (PyStr.lower_char c) = PyStr.is_space c.
Proof. destruct c as [[] [] [] [] [] [] [] []]; reflexivity. Qed.

Lemma all_space_lower (s : string) :
  all_space (PyStr.lower s) = all_space s.
Proof.
  induction s as [|c s IH]; [reflexivity|]. simpl.
  now rewrite is_space_lower_char, IH.
Qed.

Lemma all_space_app (a b : string) :
  all_space (a ++ b) = all_space a && all_space b.
Proof.
  induction a as [|c a IH]; [reflexivity|].
  rewrite app_cons. simpl. now rewrite IH, andb_assoc.
Qed.

(** A string that does not begin with a blank has a first word. *)
Lemma split_from_nonempty (s cur : string) :
  PyStr.split_from cur s = [] -> cur = "" /\ all_space s = true.
Proof.
  revert cur. induction s as [|c s IH]; intros cur; simpl.
  - destruct (String.eqb_spec cur ""); [auto | discriminate].
  - destruct (PyStr.is_space c) eqn:Ec.
    + destruct (String.eqb_spec cur "").
      * intros H. destruct (IH _ H). auto.
      * discriminate.
    + intros H. destruct (IH _ H) as (E & _). now destruct cur.
Qed.

Lemma trimmed_has_keyword (entry : string) :
  trimmed entry -> exists k, In k (PyStr.split (PyStr.lower entry)).
Proof.
  intros (Hs & _).
  destruct (PyStr.split (PyStr.lower entry)) as [|k ks] eqn:E.
  - apply split_from_nonempty in E as (_ & E).
    rewrite all_space_lower in E. exfalso. apply Hs.
    destruct entry as [|c s]; simpl in *; [exact I|].
    now apply andb_true_iff in E as (E & _).
  - exists k. now left.
Qed.

(** A word does not occur in a string of blanks. *)
Lemma keyword_not_in_blanks (k s : string) :
  k <> "" -> PyStr.no_space k = true -> all_space s = true ->
  PyStr.contains k s = false.
Proof.
  intros Hk Hn Hs. destruct (PyStr.contains k s) eqn:E; [|reflexivity].
  apply contains_spec in E as (pre & post & ->).
  rewrite !all_space_app in Hs.
  apply andb_true_iff in Hs as (_ & Hs). apply andb_true_iff in Hs as (Hs & _).
  destruct k as [|c k]; [now contradiction Hk|]. simpl in Hn, Hs.
  apply andb_true_iff in Hn as (Hn & _). apply andb_true_iff in Hs as (Hs & _).
  rewrite Hs in Hn. discriminate.
Qed.

Lemma classify_loop_blank (catalog : list string) (title_lower : string) :
  tidy catalog -> all_space title_lower = true ->
  classify_loop catalog title_lower = None.
Proof.
  intros Ht Hs. induction Ht as [|entry rest He Hrest IH]; [reflexivity|].
  simpl. destruct (keywords_match entry title_lower) eqn:Ek; [|exact IH].
  exfalso. destruct (trimmed_has_keyword entry He) as (k & Hk).
  unfold keywords_match in Ek. rewrite forallb_forall in Ek.
  specialize (Ek k Hk). apply split_spec in Hk as (Hne & Hn & _).
  rewrite (keyword_not_in_blanks k title_lower Hne Hn Hs) in Ek.
  discriminate.
Qed.

(** X15. In a catalog of trimmed entries, as [set_alarm_types],
    [add_alarm_type] and [reset_to_defaults] build it, every entry has a
    keyword: a title that is empty or made of blanks is never classified,
    and the locator drops a row whose title is missing or blank. *)
Theorem blank_titles_are_never_classified
        (catalog : list string) (title : string) (point : Point) :
  tidy catalog -> all_space title = true ->
  _classify_alarm catalog title = None /\
  (default "" (p_Title point) = title -> event_of_row catalog point = None).
Proof.
  intros Ht Hs.
  assert (H : _classify_alarm catalog title = None).
  { unfold _classify_alarm. apply classify_loop_blank; [exact Ht|].
    now rewrite all_space_lower. }
  split; [exact H|]. intros E. unfold event_of_row. cbv zeta.
  now rewrite E, H.
Qed.

Lemma blank_titles_are_never_classified_witness :
  _classify_alarm DEFAULT_ALARM_TYPES "   " = None /\
  event_of_row DEFAULT_ALARM_TYPES
               (mkPoint Sample.t0 None (Some "DT059") None None None)
  = None.
Proof.
  destruct (blank_titles_are_never_classified
              DEFAULT_ALARM_TYPES "   "
              (mkPoint Sample.t0 (Some "   ") None None None None)
              tidy_defaults eq_refl) as (H & _).
  destruct (blank_titles_are_never_classified
              DEFAULT_ALARM_TYPES ""
              (mkPoint Sample.t0 None (Some "DT059") None None None)
              tidy_defaults eq_refl) as (_ & H').
  split; [exact H | apply H'; reflexivity].
Defined.

(** ** The stored configuration *)

Section Manager.

Import AlarmTypeManager.

Lemma saved_spec (config : Config) (d : Disk) :
  saved config d
  = if writable d then (true, mkDisk (Some config) true) else (false, d).
Proof. unfold saved, _save_config. now destruct (writable d). Qed.

Lemma valid_types_nonempty (l : list string) :
  Catalog.valid_types l <> [] <-> exists t, In t l /\ strip t <> "".
Proof.
  split.
  - destruct (Catalog.valid_types l) as [|v vs] eqn:E;
      [intros H; now contradiction H|]. intros _.
    assert (H : In v (Catalog.valid_types l)) by (rewrite E; now left).
    apply valid_types_spec in H as (t & Hin & -> & Hn). now exists t.
  - intros (t & Hin & Ht) E.
    assert (H : In (strip t) (Catalog.valid_types l))
      by (apply valid_types_spec; exists t; auto).
    rewrite E in H. destruct H.
Qed.

(** X16. [POST /alarm-types] never answers 400: a list without an entry
    that is not blank, and a configuration file that cannot be written,
    both come out as a 500, and the stored configuration is then as it
    was.  It answers 200 exactly when some entry is not blank and the
    file can be written; the stored catalog is then the entries that are
    not blank, stripped, in their order, and it is trimmed. *)
Theorem set_alarm_types_endpoint_never_answers_400
        (request : option (list string)) (d : Disk) :
  let out := Api.set_alarm_types request d in
  (status_code (fst out) = 200 \/ status_code (fst out) = 500) /\
  (status_code (fst out) = 200 <->
   (exists t, In t (default [] request) /\ strip t <> "") /\
   writable d = true) /\
  (status_code (fst out) = 200 ->
   fst out = Http200 (Catalog.valid_types (default [] request)) /\
   get_current_alarm_types (snd out)
   = Catalog.valid_types (default [] request) /\
   tidy (get_current_alarm_types (snd out))) /\
  (status_code (fst out) <> 200 -> snd out = d).
Proof.
  cbv zeta. unfold Api.set_alarm_types.
  pose proof (valid_types_nonempty (default [] request)) as Hv.
  pose proof (tidy_valid_types (default [] request)) as Ht.
  destruct (Catalog.valid_types (default [] request)) as [|v vs] eqn:Ev.
  - simpl. split; [now right|]. split; [|split; [discriminate | reflexivity]].
    split; [discriminate|]. intros (H & _). apply Hv in H. now contradiction H.
  - unfold AlarmTypeManager.set_alarm_types. rewrite saved_spec.
    destruct (writable d) eqn:Ew; simpl.
    + split; [now left|]. split; [|split; [|intros H; now contradiction H]].
      * split; [|reflexivity]. intros _. split; [|reflexivity].
        apply Hv. discriminate.
      * intros _. split; [reflexivity|]. split; [reflexivity | exact Ht].
    + split; [now right|]. split; [|split; [discriminate | reflexivity]].
      split; [discriminate|]. intros (_ & H). discriminate.
Qed.

Lemma set_alarm_types_endpoint_never_answers_400_witness :
  status_code (fst (Api.set_alarm_types (Some ["  "; ""])
                      (mkDisk None true))) = 500 /\
  fst (Api.set_alarm_types (Some [" Off Path "; " "]) (mkDisk None true))
  = Http200 ["Off Path"].
Proof.
  destruct (set_alarm_types_endpoint_never_answers_400
              (Some ["  "; ""]) (mkDisk None true)) as ([H | H] & _ & _).
  - vm_compute in H. discriminate.
  - destruct (set_alarm_types_endpoint_never_answers_400
                (Some [" Off Path "; " "]) (mkDisk None true))
      as (_ & _ & H' & _).
    split; [exact H|]. apply H'. reflexivity.
Defined.

(** X17. [POST /alarm-types/add] strips the text; it answers 400 when
    nothing is left, 409 when the stripped text is already in the stored
    catalog, and 200 exactly when neither is the case and the file can be
    written: the catalog is then the old one with the stripped text
    appended.  Any other answer leaves the stored configuration as it was.
    A stored catalog without duplicates, or trimmed, stays so. *)
Theorem add_alarm_type_endpoint_rejects_blanks_and_duplicates
        (request : option string) (d : Disk) :
  let alarm_type := strip (default "" request) in
  let out := Api.add_alarm_type request d in
  (alarm_type = "" -> status_code (fst out) = 400) /\
  (alarm_type <> "" -> In alarm_type (get_current_alarm_types d) ->
   status_code (fst out) = 409) /\
  (status_code (fst out) = 200 <->
   alarm_type <> "" /\ ~ In alarm_type (get_current_alarm_types d) /\
   writable d = true) /\
  (status_code (fst out) = 200 ->
   fst out = Http200 (get_current_alarm_types d ++ [alarm_type])%list /\
   get_current_alarm_types (snd out)
   = (get_current_alarm_types d ++ [alarm_type])%list) /\
  (status_code (fst out) <> 200 -> snd out = d) /\
  (NoDup (get_current_alarm_types d) ->
   NoDup (get_current_alarm_types (snd out))) /\
  (tidy (get_current_alarm_types d) ->
   tidy (get_current_alarm_types (snd out))).
Proof.
  cbv zeta. unfold Api.add_alarm_type.
  set (a := strip (default "" request)).
  destruct (String.eqb_spec a "") as [Ea | Ea].
  - simpl. split; [reflexivity|]. split; [tauto|].
    split; [split; [discriminate | tauto]|].
    split; [discriminate|]. split; [reflexivity | tauto].
  - destruct (PyStr.mem a (get_current_alarm_types d)) eqn:Em.
    + apply mem_spec in Em. simpl. split; [tauto|]. split; [reflexivity|].
      split; [split; [discriminate | tauto]|].
      split; [discriminate|]. split; [reflexivity | tauto].
    + assert (Hnin : ~ In a (get_current_alarm_types d)).
      { intros H. apply mem_spec in H. congruence. }
      unfold AlarmTypeManager.add_alarm_type.
      fold (get_current_alarm_types d). rewrite Em. cbn [negb].
      rewrite saved_spec. destruct (writable d) eqn:Ew; simpl.
      * split; [tauto|]. split; [tauto|]. split; [tauto|].
        split; [auto|]. split; [intros H; now contradiction H|].
        unfold get_current_alarm_types at 2 4. simpl. split.
        -- intros Hnd. apply NoDup_app. split; [exact Hnd|]. split.
           ++ intros x Hx Hx'. apply list_elem_of_singleton in Hx'. subst x.
              apply Hnin. now apply list_elem_of_In.
           ++ apply NoDup_singleton.
        -- intros Ht. apply Forall_app. split; [exact Ht|].
           constructor; [now apply strip_trimmed | constructor].
      * split; [tauto|]. split; [tauto|].
        split; [split; [discriminate | intros (_ & _ & H); discriminate]|].
        split; [discriminate|]. split; [reflexivity | tauto].
Qed.

Lemma add_alarm_type_endpoint_rejects_blanks_and_duplicates_witness :
  status_code (fst (Api.add_alarm_type (Some "   ") (mkDisk None true)))
  = 400 /\
  status_code (fst (Api.add_alarm_type (Some " Off Path")
                      (mkDisk None true))) = 409 /\
  get_current_alarm_types
    (snd (Api.add_alarm_type (Some "Low Battery ") (mkDisk None true)))
  = (DEFAULT_ALARM_TYPES ++ ["Low Battery"])%list.
Proof.
  destruct (add_alarm_type_endpoint_rejects_blanks_and_duplicates
              (Some "   ") (mkDisk None true)) as (H1 & _).
  destruct (add_alarm_type_endpoint_rejects_blanks_and_duplicates
              (Some " Off Path") (mkDisk None true)) as (_ & H2 & _).
  destruct (add_alarm_type_endpoint_rejects_blanks_and_duplicates
              (Some "Low Battery ") (mkDisk None true))
    as (_ & _ & _ & H3 & _).
  split; [apply H1; reflexivity|]. split.
  - apply H2; [discriminate | vm_compute; tauto].
  - apply H3. reflexivity.
Defined.




Lemma filter_not_mem_self (l : list string) :
  List.filter (fun t => negb (PyStr.mem t l)) l = [].
Proof.
  assert (H : forall k, (forall t, In t k -> In t l) ->
                        List.filter (fun t => negb (PyStr.mem t l)) k = []).
  { induction k as [|t k IH]; intros Hk; [reflexivity|]. simpl.
    assert (E : PyStr.mem t l = true) by (apply mem_spec, Hk; now left).
    rewrite E. simpl. apply IH. intros t' Ht'. apply Hk. now right. }
  apply H. auto.
Qed.

(** X19. [POST /alarm-types/reset] answers 200 exactly when the file can
    be written and the configuration read from it has its
    [default_alarm_types] key (a file that cannot be read counts as the
    default configuration); the stored catalog is then the stored list of
    defaults, which the answer shows, and the statistics report that the
    defaults are in use, with no addition and no removal.  Otherwise the
    stored configuration is left as it was. *)
Theorem reset_makes_the_statistics_report_the_defaults (d : Disk) :
  let out := Api.reset_alarm_types d in
  (status_code (fst out) = 200 <->
   writable d = true /\ default_alarm_types (_load_config d) <> None) /\
  (status_code (fst out) = 200 ->
   fst out = Http200 (get_default_alarm_types d) /\
   get_current_alarm_types (snd out) = get_default_alarm_types d /\
   get_default_alarm_types (snd out) = get_default_alarm_types d /\
   is_using_defaults (get_stats (snd out)) = true /\
   custom_additions (get_stats (snd out)) = [] /\
   removed_defaults (get_stats (snd out)) = []) /\
  (status_code (fst out) <> 200 -> snd out = d).
Proof.
  cbv zeta. unfold Api.reset_alarm_types, reset_to_defaults.
  destruct (default_alarm_types (_load_config d)) as [defaults|] eqn:Ed.
  - rewrite saved_spec. destruct (writable d) eqn:Ew; simpl.
    + split; [split; [intros _; split; [reflexivity | discriminate]
                     | reflexivity]|].
      split; [|intros H; now contradiction H].
      intros _. unfold get_default_alarm_types, get_current_alarm_types,
        get_stats. simpl. rewrite Ed. simpl.
      split; [reflexivity|]. split; [reflexivity|]. split; [reflexivity|].
      split; [now apply bool_decide_eq_true|].
      split; apply filter_not_mem_self.
    + split; [split; [discriminate | intros (H & _); discriminate]|].
      split; [discriminate | reflexivity].
  - simpl. split; [split; [discriminate | intros (_ & H); now contradiction H]|].
    split; [discriminate | reflexivity].
Qed.

Lemma reset_makes_the_statistics_report_the_defaults_witness :
  let d := snd (Api.add_alarm_type (Some "Low Battery") (mkDisk None true)) in
  custom_additions (get_stats d) = ["Low Battery"] /\
  is_using_defaults (get_stats d) = false /\
  is_using_defaults (get_stats (snd (Api.reset_alarm_types d))) = true.
Proof.
  cbv zeta. split; [vm_compute; reflexivity|].
  split; [vm_compute; reflexivity|].
  apply (reset_makes_the_statistics_report_the_defaults
           (snd (Api.add_alarm_type (Some "Low Battery")
                                    (mkDisk None true)))).
  reflexivity.
Defined.

End Manager.

Section SettingsChecks.

Import AlarmTypeManager.

Lemma valid_settings_spec (settings : Settings) :
  valid_settings settings = true <-> acceptable settings.
Proof.
  unfold valid_settings, acceptable, required_fields. cbn [forallb].
  destruct (settings !! "query_delay_seconds") as [delay|];
    [|split; [rewrite bool_decide_eq_false_2 by (intros [? ?]; discriminate);
              discriminate
             | intros (? & ? & ? & H & _); discriminate]].
  destruct (settings !! "max_points_per_query") as [points|];
    [|split; [rewrite andb_false_r; discriminate
             | intros (? & ? & ? & _ & H & _); discriminate]].
  destruct (settings !! "telemetry_window_seconds") as [window|];
    [|split; [rewrite andb_false_r; discriminate
             | intros (? & ? & ? & _ & _ & H & _); discriminate]].
  rewrite !bool_decide_eq_true_2 by eauto. cbn [andb].
  rewrite !andb_true_iff, !negb_true_iff, !orb_false_iff, !negb_false_iff.
  rewrite !lt_false. split.
  - intros (((Hd & Hd') & (Hp & Hp')) & (Hw & Hw')).
    exists delay, points, window. auto 10.
  - intros (d' & p' & w' & [= <-] & [= <-] & [= <-] & H). tauto.
Qed.

(** X20. [update_extraction_settings] stores the settings exactly when
    they are acceptable (the three fields present; delay and window
    numbers that are not negative; the number of points an integer, or a
    boolean, that is at least 1) and the file can be written.  The stored
    settings are then the dictionary given, as it is, and the alarm types
    are untouched.  Otherwise nothing is stored, and the endpoint answers
    500, for settings that are not valid as for a file that cannot be
    written. *)
Theorem update_extraction_settings_checks_the_three_fields
        (settings : Settings) (d : Disk) :
  let out := AlarmTypeManager.update_extraction_settings settings d in
  (fst out = true <-> acceptable settings /\ writable d = true) /\
  (fst out = true ->
   get_extraction_settings (snd out) = settings /\
   get_current_alarm_types (snd out) = get_current_alarm_types d /\
   get_default_alarm_types (snd out) = get_default_alarm_types d) /\
  (fst out = false -> snd out = d) /\
  status_code (fst (Api.update_extraction_settings (Some settings) d))
  = (if fst out then 200 else 500).
Proof.
  cbv zeta.
  unfold Api.update_extraction_settings,
    AlarmTypeManager.update_extraction_settings.
  change (default ∅ (Some settings)) with settings.
  pose proof (valid_settings_spec settings) as Hv.
  destruct (valid_settings settings).
  - rewrite saved_spec. destruct (writable d) eqn:Ew; simpl.
    + split; [split; [intros _; split; [now apply Hv | reflexivity]
                     | reflexivity]|].
      split; [|split; [discriminate | reflexivity]].
      intros _. split; [reflexivity|]. split; reflexivity.
    + split; [split; [discriminate | intros (_ & H); discriminate]|].
      split; [discriminate|]. split; reflexivity.
  - simpl. split.
    + split; [discriminate|]. intros (H & _). apply Hv in H. discriminate.
    + split; [discriminate|]. split; reflexivity.
Qed.

Lemma update_extraction_settings_checks_the_three_fields_witness :
  let slow := <["query_delay_seconds" := JInt 2]>
                (<["max_points_per_query" := JBool true]>
                   (<["telemetry_window_seconds" := JFloat (1 # 4)]> ∅)) in
  let negative := <["query_delay_seconds" := JFloat (-1 # 10)]> slow in
  let fractional := <["max_points_per_query" := JFloat 10]> slow in
  fst (AlarmTypeManager.update_extraction_settings slow (mkDisk None true))
  = true /\
  fst (AlarmTypeManager.update_extraction_settings negative
         (mkDisk None true)) = false /\
  fst (AlarmTypeManager.update_extraction_settings fractional
         (mkDisk None true)) = false /\
  fst (AlarmTypeManager.update_extraction_settings ∅ (mkDisk None true))
  = false.
Proof.
  cbv zeta. split; [|split; [|split]; vm_compute; reflexivity].
  apply (update_extraction_settings_checks_the_three_fields
           (<["query_delay_seconds" := JInt 2]>
              (<["max_points_per_query" := JBool true]>
                 (<["telemetry_window_seconds" := JFloat (1 # 4)]> ∅)))
           (mkDisk None true)).
  split; [|reflexivity].
  exists (JInt 2), (JBool true), (JFloat (1 # 4)).
  split; [vm_compute; reflexivity|]. split; [vm_compute; reflexivity|].
  split; [vm_compute; reflexivity|].
  split; [reflexivity|]. split; [vm_compute; discriminate|].
  split; [reflexivity|]. split; [vm_compute; discriminate|].
  split; [reflexivity|]. vm_compute. discriminate.
Defined.

End SettingsChecks.

(** ** Stored results *)

(** X21. A task always leaves its job in a final state, [failed] or
    [completed], whatever the store and the other threads do.  Results
    are stored exactly for a job that completed: [GET /results/{job_id}]
    answers 200 for a completed job, with the events, the message and the
    summary of the job record, and 404 for a failed one; the stored
    results of the other jobs are untouched. *)
Theorem results_are_stored_exactly_for_completed_jobs
        (env : Env) (self : Extractor) (job_id : string) (srv : Server)
        (job : JobData) :
  active_extractions srv !! job_id = Some job ->
  extraction_results srv !! job_id = None ->
  let srv' := fst (run_alarm_extraction env self job_id srv) in
  (job_field status job_id srv' = Some "completed" \/
   job_field status job_id srv' = Some "failed") /\
  (status_code (get_extraction_results job_id srv') = 200 <->
   job_field status job_id srv' = Some "completed") /\
  (status_code (get_extraction_results job_id srv') = 404 <->
   job_field status job_id srv' = Some "failed") /\
  (forall response,
      get_extraction_results job_id srv' = Http200 response ->
      job_field alarm_events job_id srv' = Some (r_alarm_events response) /\
      job_field summary job_id srv' = Some (Some (r_summary response)) /\
      job_field progress job_id srv' = Some 100 /\
      total_events (r_summary response)
      = length (r_alarm_events response)) /\
  (forall other, other <> job_id ->
      extraction_results srv' !! other = extraction_results srv !! other).
Proof.
  intros Hjob Hres. cbv zeta.
  unfold run_alarm_extraction, get_extraction_results, job_field.
  rewrite Hjob.
  destruct (connect_never_raises env new_world) as (b & Hb).
  destruct (connect env new_world) as [rc w] eqn:Ec. simpl in Hb. subst rc.
  destruct b.
  - destruct (extract_alarm_events env self _ _ _ _ _ None w)
      as [[raws|e] w'] eqn:Ex.
    + destruct (to_alarm_events raws) as [events|e] eqn:Et.
      * unfold update_job. cbn [fst active_extractions extraction_results].
        rewrite !lookup_alter_eq, Hjob, lookup_insert_eq. simpl.
        split; [now left|]. split; [tauto|].
        split; [split; discriminate|]. split.
        -- intros response [= <-]. simpl. auto.
        -- intros other Hne. now apply lookup_insert_ne.
      * unfold update_job. cbn [fst active_extractions extraction_results].
        rewrite !lookup_alter_eq, Hjob, Hres. simpl.
        split; [now right|]. split; [split; discriminate|].
        split; [tauto|]. split; [discriminate | reflexivity].
    + unfold update_job. cbn [fst active_extractions extraction_results].
      rewrite !lookup_alter_eq, Hjob, Hres. simpl.
      split; [now right|]. split; [split; discriminate|].
      split; [tauto|]. split; [discriminate | reflexivity].
  - unfold update_job. cbn [fst active_extractions extraction_results].
    rewrite !lookup_alter_eq, Hjob, Hres. simpl.
    split; [now right|]. split; [split; discriminate|].
    split; [tauto|]. split; [discriminate | reflexivity].
Qed.

Lemma results_are_stored_exactly_for_completed_jobs_witness :
  let done := fst (run_alarm_extraction Sample.env_two_alarms
                     Sample.extractor "job-1"
                     (Sample.one_job ["Off Path"])) in
  let lost := fst (run_alarm_extraction Sample.env_down Sample.extractor
                     "job-1" (Sample.one_job ["Off Path"])) in
  status_code (get_extraction_results "job-1" done) = 200 /\
  status_code (get_extraction_results "job-1" lost) = 404.
Proof.
  destruct (results_are_stored_exactly_for_completed_jobs
              Sample.env_two_alarms Sample.extractor "job-1"
              (Sample.one_job ["Off Path"]) (Sample.pending ["Off Path"])
              eq_refl eq_refl) as (_ & H & _).
  destruct (results_are_stored_exactly_for_completed_jobs
              Sample.env_down Sample.extractor "job-1"
              (Sample.one_job ["Off Path"]) (Sample.pending ["Off Path"])
              eq_refl eq_refl) as (_ & _ & H' & _).
  cbv zeta. split.
  - apply H. vm_compute. reflexivity.
  - apply H'. vm_compute. reflexivity.
Defined.

(** ** Shapes *)

Section Shapes.

Import Geo.

Lemma level_edge_not_met (y a b : Q) :
  PyNum.gt y (Geo.min a b) = true -> Qle_bool y (Geo.max a b) = true ->
  Qeq_bool a b = false.
Proof.
  intros H1 H2. destruct (Qeq_bool a b) eqn:E; [|reflexivity]. exfalso.
  apply Qeq_bool_iff in E. apply gt_true in H1. apply Qle_bool_iff in H2.
  unfold Geo.min in H1. unfold Geo.max in H2.
  assert (Hlt : PyNum.lt b a = false).
  { apply lt_false. rewrite E. apply Qle_refl. }
  assert (Hgt : PyNum.gt b a = false).
  { apply gt_false. rewrite E. apply Qle_refl. }
  rewrite Hlt in H1. rewrite Hgt in H2.
  exact (Qlt_not_le _ _ H1 H2).
Qed.

(** The loop never reads [xinters] before it is assigned, nor a value
    left by an earlier edge: its result is the parity of the edges
    met. *)
Lemma ray_loop_parity (x y : Q) (vertices : list (Q * Q)) (p1 : Q * Q)
      (xinters : option Q) (inside : bool) :
  ray_loop x y vertices p1 xinters inside
  = Returns (fold_left xorb
               (map (crosses x y) (combine (p1 :: vertices) vertices))
               inside).
Proof.
  revert p1 xinters inside.
  induction vertices as [|p2 rest IH]; intros p1 xinters inside;
    [reflexivity|].
  cbn [ray_loop combine map fold_left]. unfold crosses at 2.
  destruct (PyNum.gt y (Geo.min (snd p1) (snd p2))) eqn:C1;
    [|cbn [andb]; rewrite xorb_false_r; apply IH].
  destruct (Qle_bool y (Geo.max (snd p1) (snd p2))) eqn:C2;
    [|cbn [andb]; rewrite xorb_false_r; apply IH].
  destruct (Qle_bool x (Geo.max (fst p1) (fst p2))) eqn:C3;
    [|cbn [andb]; rewrite xorb_false_r; apply IH].
  rewrite (level_edge_not_met y _ _ C1 C2). cbn [andb negb].
  destruct (Qeq_bool (fst p1) (fst p2)).
  - cbn [orb]. rewrite xorb_true_r. apply IH.
  - cbn [orb]. rewrite IH. f_equal. f_equal.
    destruct (Qle_bool x (intersection y p1 p2)).
    + now rewrite xorb_true_r.
    + now rewrite xorb_false_r.
Qed.

Lemma combine_longer {A B} (l1 k : list A) (l2 : list B) :
  length l1 = length l2 -> combine (l1 ++ k) l2 = combine l1 l2.
Proof.
  revert l2. induction l1 as [|a l1 IH]; intros [|b l2] H;
    try discriminate; simpl.
  - now destruct k.
  - f_equal. apply IH. now injection H.
Qed.

Lemma point_in_polygon_parity (lat lon : Q) (p0 : Q * Q)
      (rest : list (Q * Q)) :
  point_in_polygon lat lon (p0 :: rest)
  = Returns (odd_count (map (crosses lon lat) (edges (p0 :: rest)))).
Proof.
  unfold point_in_polygon, odd_count, edges. rewrite ray_loop_parity.
  do 3 f_equal.
  change (p0 :: rest ++ [p0])%list with ((p0 :: rest) ++ [p0])%list.
  apply combine_longer. rewrite length_app. simpl. lia.
Qed.

(** X22. [point_in_polygon] is ray casting: for a ring with a vertex it
    returns the parity of the number of edges that the half-line from the
    point meets, each edge judged on its own two vertices.  The variable
    [xinters], assigned only for an edge that is not level, is never read
    unbound or stale (a level edge never passes the two tests on the
    latitude), so that the only error is the [IndexError] of an empty
    ring. *)
Theorem ray_casting_returns_the_parity_of_the_edges_met
        (point_lat point_lon : Q) (polygon_coords : list (Q * Q)) :
  match polygon_coords with
  | [] => point_in_polygon point_lat point_lon polygon_coords
          = Raises IndexError
  | _ :: _ =>
      point_in_polygon point_lat point_lon polygon_coords
      = Returns (odd_count (map (crosses point_lon point_lat)
                                (edges polygon_coords)))
  end /\
  (forall p1 p2, Qeq_bool (snd p1) (snd p2) = true ->
                 crosses point_lon point_lat (p1, p2) = false).
Proof.
  split.
  - destruct polygon_coords as [|p0 rest]; [reflexivity|].
    apply point_in_polygon_parity.
  - intros p1 p2 E. unfold crosses.
    destruct (PyNum.gt point_lat (Geo.min (snd p1) (snd p2))) eqn:C1;
      [|reflexivity].
    destruct (Qle_bool point_lat (Geo.max (snd p1) (snd p2))) eqn:C2;
      [|reflexivity].
    rewrite (level_edge_not_met _ _ _ C1 C2) in E. discriminate.
Qed.

End Shapes.

Section Boxes.

Import Geo.

Local Open Scope Q_scope.

Lemma min_spec (a b : Q) :
  (a <= b -> Geo.min a b == a) /\ (b <= a -> Geo.min a b == b).
Proof.
  unfold Geo.min. destruct (PyNum.lt b a) eqn:E.
  - apply lt_true in E. split; intros H; lra.
  - apply lt_false in E. split; intros H; lra.
Qed.

Lemma max_spec (a b : Q) :
  (a <= b -> Geo.max a b == b) /\ (b <= a -> Geo.max a b == a).
Proof.
  unfold Geo.max. destruct (PyNum.gt b a) eqn:E.
  - apply gt_true in E. split; intros H; lra.
  - apply gt_false in E. split; intros H; lra.
Qed.

(** An upright edge is met when the latitude is within its span, the
    lower end left out, and the point is not to the right of it. *)
Lemma crosses_upright (x y a ylo yhi : Q) (up : bool) :
  ylo < yhi ->
  crosses x y (if up then ((a, ylo), (a, yhi)) else ((a, yhi), (a, ylo)))
  = PyNum.gt y ylo && Qle_bool y yhi && Qle_bool x a.
Proof.
  intros H. unfold crosses.
  assert (Hgt : forall m, m == ylo -> PyNum.gt y m = PyNum.gt y ylo).
  { intros m Hm. unfold PyNum.gt. f_equal.
    destruct (Qle_bool y m) eqn:E1, (Qle_bool y ylo) eqn:E2; try reflexivity.
    - apply Qle_bool_iff in E1. rewrite Hm in E1.
      apply Qle_bool_iff in E1. congruence.
    - apply Qle_bool_iff in E2. rewrite <- Hm in E2.
      apply Qle_bool_iff in E2. congruence. }
  assert (Hle : forall v m n, m == n -> Qle_bool v m = Qle_bool v n).
  { intros v m n Hm.
    destruct (Qle_bool v m) eqn:E1, (Qle_bool v n) eqn:E2; try reflexivity.
    - apply Qle_bool_iff in E1. rewrite Hm in E1.
      apply Qle_bool_iff in E1. congruence.
    - apply Qle_bool_iff in E2. rewrite <- Hm in E2.
      apply Qle_bool_iff in E2. congruence. }
  assert (Ha : Qle_bool x (Geo.max a a) = Qle_bool x a).
  { apply Hle, max_spec, Qle_refl. }
  assert (Hlt : ylo <= yhi) by lra.
  destruct up; cbn [fst snd].
  - rewrite (Hgt _ (proj1 (min_spec ylo yhi) Hlt)).
    rewrite (Hle y _ _ (proj1 (max_spec ylo yhi) Hlt)).
    rewrite Ha, (proj2 (Qeq_bool_iff a a) (Qeq_refl a)). cbn [orb].
    now rewrite andb_true_r.
  - rewrite (Hgt _ (proj2 (min_spec yhi ylo) Hlt)).
    rewrite (Hle y _ _ (proj2 (max_spec yhi ylo) Hlt)).
    rewrite Ha, (proj2 (Qeq_bool_iff a a) (Qeq_refl a)). cbn [orb].
    now rewrite andb_true_r.
Qed.

Lemma crosses_level (x y a b c : Q) : crosses x y ((a, c), (b, c)) = false.
Proof.
  unfold crosses. cbn [fst snd].
  destruct (PyNum.gt y (Geo.min c c)) eqn:C1; [|reflexivity].
  destruct (Qle_bool y (Geo.max c c)) eqn:C2; [|reflexivity].
  pose proof (level_edge_not_met _ _ _ C1 C2) as E.
  rewrite (proj2 (Qeq_bool_iff c c) (Qeq_refl c)) in E. discriminate.
Qed.

(** X23. For the ring of an upright box, [point_in_polygon] answers
    [True] exactly for the points whose latitude is above the lower side
    and at most the upper one, and whose longitude is right of the left
    side and at most the right one: the lower and the left side are
    outside, the upper and the right side inside. *)
Theorem a_box_holds_its_upper_and_right_sides
        (x0 y0 x1 y1 point_lat point_lon : Q) :
  x0 < x1 -> y0 < y1 ->
  point_in_polygon point_lat point_lon (box_ring x0 y0 x1 y1)
  = Returns (PyNum.gt point_lat y0 && Qle_bool point_lat y1
             && PyNum.gt point_lon x0 && Qle_bool point_lon x1).
Proof.
  intros Hx Hy. unfold box_ring. rewrite point_in_polygon_parity.
  unfold edges, odd_count. cbn [app combine map fold_left].
  rewrite !crosses_level.
  rewrite (crosses_upright point_lon point_lat x1 y0 y1 true Hy).
  rewrite (crosses_upright point_lon point_lat x0 y0 y1 false Hy).
  f_equal. cbn [xorb].
  destruct (PyNum.gt point_lat y0); [|reflexivity].
  destruct (Qle_bool point_lat y1); [|reflexivity]. cbn [andb].
  destruct (Qle_bool point_lon x1) eqn:E1,
           (Qle_bool point_lon x0) eqn:E0,
           (PyNum.gt point_lon x0) eqn:G0; try reflexivity; exfalso.
  - apply Qle_bool_iff in E0. apply gt_true in G0. lra.
  - assert (H : ~ point_lon <= x0)
      by (intros H; apply Qle_bool_iff in H; congruence).
    apply gt_false in G0. lra.
  - apply Qle_bool_iff in E0.
    assert (H : ~ point_lon <= x1)
      by (intros H; apply Qle_bool_iff in H; congruence).
    lra.
  - apply Qle_bool_iff in E0.
    assert (H : ~ point_lon <= x1)
      by (intros H; apply Qle_bool_iff in H; congruence).
    lra.
Qed.

Lemma a_box_holds_its_upper_and_right_sides_witness :
  point_in_polygon (-318755 # 10000) (1162245 # 10000)
                   (box_ring 116 (-32) 117 (-31)) = Returns true /\
  point_in_polygon (-32) (1165 # 10) (box_ring 116 (-32) 117 (-31))
  = Returns false /\
  point_in_polygon (-31) 117 (box_ring 116 (-32) 117 (-31)) = Returns true.
Proof.
  split; [|split];
    rewrite (a_box_holds_its_upper_and_right_sides 116 (-32) 117 (-31));
    try reflexivity.
Defined.

End Boxes.

Section Names.

Import Geo.

Lemma shape_name_not_empty (f : Feature) : shape_name f <> "".
Proof.
  unfold shape_name, or_else.
  destruct (AsiName f) as [a|]; [destruct (String.eqb_spec a "")|];
    try (simpl; assumption);
    (destruct (Name f) as [b|]; [destruct (String.eqb_spec b "")|];
     try (simpl; assumption);
     (destruct (name f) as [c|]; [destruct (String.eqb_spec c "")|];
      try (simpl; assumption); simpl; discriminate)).
Qed.

Lemma search_app (lat lon : Q) (pre post : list Feature) :
  Forall (passes_by lat lon) pre ->
  search lat lon (pre ++ post) = search lat lon post.
Proof.
  induction 1 as [|f pre Hf Hpre IH]; [reflexivity|].
  unfold passes_by in Hf. simpl in *.
  destruct (geometry f) as [[|ring holes] | multi | |]; try exact IH.
  - destruct (point_in_polygon lat lon ring) as [[|]|e]; try exact IH.
    + injection Hf as Hf. now apply shape_name_not_empty in Hf.
    + discriminate.
  - destruct (any_polygon lat lon multi) as [[|]|e]; try exact IH.
    + injection Hf as Hf. now apply shape_name_not_empty in Hf.
    + discriminate.
  - discriminate.
Qed.

(** X24. [find_shape_name] answers the empty string when there is no
    collection and when the latitude or the longitude is missing or zero:
    a point on the equator or on the prime meridian is never given a
    shape.  Otherwise the first feature whose outer ring holds the point
    gives the name, the features before it being passed by: its
    [AsiName], or else its [Name], or else its [name], an empty string
    counting as missing, or else [Unnamed Shape]; the rings after the first
    one, the holes, are not looked at. *)
Theorem the_first_shape_that_holds_the_point_names_it
        (lat lon : Q) (pre post : list Feature) (feature : Feature)
        (ring : list (Q * Q)) (holes : list (list (Q * Q))) :
  ~ lat == 0 -> ~ lon == 0 ->
  Forall (passes_by lat lon) pre ->
  geometry feature = Polygon (ring :: holes) ->
  point_in_polygon lat lon ring = Returns true ->
  find_shape_name (Some lat) (Some lon)
                  (Some (pre ++ feature :: post)%list)
  = shape_name feature /\
  shape_name feature <> "" /\
  (forall v collection,
      falsy v = true ->
      find_shape_name v (Some lon) collection = "" /\
      find_shape_name (Some lat) v collection = "") /\
  find_shape_name (Some lat) (Some lon) None = "".
Proof.
  intros Hlat Hlon Hpre Hg Hin.
  split; [|split; [apply shape_name_not_empty|split; [|reflexivity]]].
  - unfold find_shape_name, falsy.
    assert (E1 : Qeq_bool lat 0 = false).
    { destruct (Qeq_bool lat 0) eqn:E; [|reflexivity].
      apply Qeq_bool_iff in E. contradiction. }
    assert (E2 : Qeq_bool lon 0 = false).
    { destruct (Qeq_bool lon 0) eqn:E; [|reflexivity].
      apply Qeq_bool_iff in E. contradiction. }
    rewrite E1, E2. cbn [orb]. rewrite (search_app _ _ _ _ Hpre).
    simpl. now rewrite Hg, Hin.
  - intros v collection Hv. unfold find_shape_name.
    destruct collection as [features|]; [|now destruct v].
    destruct v as [q|]; [|split; reflexivity].
    rewrite Hv. cbn [orb]. rewrite orb_true_r. split; reflexivity.
Qed.

Lemma the_first_shape_that_holds_the_point_names_it_witness :
  let shore := mkFeature (Polygon [box_ring 10 10 20 20]) None None None in
  let pit := mkFeature (Polygon [box_ring 116 (-32) 117 (-31)])
                       (Some "") (Some "North Pit") (Some "pit") in
  find_shape_name (Some (-318755 # 10000)%Q) (Some (1162245 # 10000)%Q)
                  (Some [shore; pit; shore])
  = "North Pit" /\
  find_shape_name (Some 0%Q) (Some (1162245 # 10000)%Q) (Some [pit]) = "".
Proof.
  cbv zeta.
  destruct (the_first_shape_that_holds_the_point_names_it
              (-318755 # 10000) (1162245 # 10000)
              [mkFeature (Polygon [box_ring 10 10 20 20]) None None None]
              [mkFeature (Polygon [box_ring 10 10 20 20]) None None None]
              (mkFeature (Polygon [box_ring 116 (-32) 117 (-31)])
                         (Some "") (Some "North Pit") (Some "pit"))
              (box_ring 116 (-32) 117 (-31)) [])
    as (H & _ & H0 & _).
  - intros H. discriminate H.
  - intros H. discriminate H.
  - constructor; [reflexivity | constructor].
  - reflexivity.
  - reflexivity.
  - split; [exact H|].
    apply (H0 (Some 0%Q)
              (Some [mkFeature (Polygon [box_ring 116 (-32) 117 (-31)])
                               (Some "") (Some "North Pit") (Some "pit")])).
    reflexivity.
Defined.

End Names.

(** ** Hosts and asset identifiers *)

Lemma all_in_app (cls : ascii -> bool) (a b : string) :
  Re.all_in cls (a ++ b) = Re.all_in cls a && Re.all_in cls b.
Proof.
  induction a as [|c a IH]; [reflexivity|].
  rewrite app_cons. simpl. now rewrite IH, andb_assoc.
Qed.

(** A string of characters that are not blanks is trimmed. *)
Lemma all_in_trimmed (cls : ascii -> bool) (s : string) :
  (forall c, cls c = true -> PyStr.is_space c = false) ->
  Re.all_in cls s = true -> s <> "" -> trimmed s.
Proof.
  intros Hcls Hs Hne. split.
  - destruct s as [|c s]; [now contradiction Hne|]. simpl in *.
    apply andb_true_iff in Hs as (Hc & _). rewrite (Hcls c Hc). discriminate.
  - intros (s' & c & -> & Hc). rewrite all_in_app in Hs.
    apply andb_true_iff in Hs as (_ & Hs). simpl in Hs.
    apply andb_true_iff in Hs as (Hs & _). rewrite (Hcls c Hs) in Hc.
    discriminate.
Qed.


Lemma asset_char_not_blank (c : ascii) :
  Re.asset_char c = true -> PyStr.is_space c = false.
Proof.
  destruct c as [[] [] [] [] [] [] [] []]; intros H;
    try reflexivity; discriminate H.
Qed.

Lemma asset_char_upper (c : ascii) :
  Re.asset_char c = true -> upper_char c = c.
Proof.
  destruct c as [[] [] [] [] [] [] [] []]; intros H;
    try reflexivity; discriminate H.
Qed.

Lemma is_space_upper_char (c : ascii) :
  PyStr.is_space (upper_char c) = PyStr.is_space c.
Proof. destruct c as [[] [] [] [] [] [] [] []]; reflexivity. Qed.

Lemma before_final_newline_spec (s t : string) :
  Re.before_final_newline s = Some t ->
  s = t ++ String (ascii_of_N 10) "".
Proof.
  revert t. induction s as [|c s IH]; intros t; [discriminate|].
  cbn [Re.before_final_newline]. destruct s as [|d s].
  - destruct (Ascii.eqb_spec c (ascii_of_N 10)) as [-> | _];
      [|discriminate]. now intros [= <-].
  - destruct (Re.before_final_newline (String d s)) as [t'|];
      [|discriminate].
    intros [= <-]. now rewrite (IH t' eq_refl).
Qed.


Lemma match_plus_spec (cls : ascii -> bool) (s : string) :
  Re.match_plus cls s = true ->
  (s <> "" /\ Re.all_in cls s = true) \/
  (exists t, s = t ++ String (ascii_of_N 10) "" /\ t <> "" /\
             Re.all_in cls t = true).
Proof.
  unfold Re.match_plus. intros H. apply orb_true_iff in H as [H | H].
  - apply andb_true_iff in H as (Hn & Ha). left. split; [|exact Ha].
    intros ->. discriminate.
  - destruct (Re.before_final_newline s) as [t|] eqn:E; [|discriminate].
    apply andb_true_iff in H as (Hn & Ha). right. exists t.
    split; [now apply before_final_newline_spec|]. split; [|exact Ha].
    intros ->. discriminate.
Qed.

Lemma match_plus_all_in (cls : ascii -> bool) (s : string) :
  s <> "" -> Re.all_in cls s = true -> Re.match_plus cls s = true.
Proof.
  intros Hn Ha. unfold Re.match_plus. rewrite Ha.
  destruct (String.eqb_spec s ""); [contradiction | reflexivity].
Qed.



Lemma upper_empty (s : string) : upper s = "" <-> s = "".
Proof. destruct s; simpl; split; intros H; try reflexivity; discriminate. Qed.

Lemma rstrip_upper (s : string) : rstrip (upper s) = upper (rstrip s).
Proof.
  induction s as [|c s IH]; [reflexivity|]. simpl.
  rewrite IH, is_space_upper_char.
  destruct (String.eqb_spec (rstrip s) "") as [E|E].
  - rewrite E. simpl. now destruct (PyStr.is_space c).
  - destruct (String.eqb_spec (upper (rstrip s)) "") as [E'|E'];
      [apply (proj1 (upper_empty _)) in E'; now contradiction E
      | reflexivity].
Qed.

Lemma upper_strip_not_ends_blank (s : string) :
  ~ ends_blank (upper (strip s)).
Proof.
  unfold strip. rewrite <- rstrip_upper. apply rstrip_not_ends_blank.
Qed.

Lemma upper_fixed (s : string) :
  Re.all_in Re.asset_char s = true -> upper s = s.
Proof.
  induction s as [|c s IH]; [reflexivity|]. simpl. intros H.
  apply andb_true_iff in H as (Hc & Hs).
  now rewrite (asset_char_upper c Hc), (IH Hs).
Qed.

(** An identifier that passes the pattern after stripping. *)
Lemma matched_asset_id (s : string) :
  Re.match_plus Re.asset_char (upper (strip s)) = true ->
  upper (strip s) <> "" /\
  Re.all_in Re.asset_char (upper (strip s)) = true.
Proof.
  intros H. apply match_plus_spec in H as [H | (t & E & _)]; [exact H|].
  exfalso. apply (upper_strip_not_ends_blank s). rewrite E.
  exists t, (ascii_of_N 10). now split.
Qed.

Lemma validate_each_spec (v acc out : list string) :
  validate_each v acc = Ok out ->
  out = (acc ++ map (fun a => upper (strip a)) v)%list /\
  Forall asset_id_ok (map (fun a => upper (strip a)) v).
Proof.
  revert acc. induction v as [|a rest IH]; intros acc; simpl.
  - intros [= <-]. rewrite app_nil_r. split; [reflexivity | constructor].
  - destruct (String.eqb a ""); [discriminate|].
    destruct (20 <? String.length (upper (strip a)))%nat eqn:El;
      [discriminate|].
    destruct (Re.match_plus Re.asset_char (upper (strip a))) eqn:Em;
      [|discriminate].
    cbn [negb]. intros H. destruct (IH _ H) as (-> & Hrest).
    split; [now rewrite <- app_assoc|].
    constructor; [|exact Hrest].
    destruct (matched_asset_id a Em) as (Hn & Ha).
    split; [exact Hn|]. split; [|exact Ha].
    apply Nat.ltb_ge in El. exact El.
Qed.

Lemma validate_each_ok (v acc : list string) :
  Forall asset_id_ok v -> validate_each v acc = Ok (acc ++ v)%list.
Proof.
  intros H. revert acc. induction H as [|a rest (Hn & Hl & Ha) Hrest IH];
    intros acc; simpl.
  - now rewrite app_nil_r.
  - destruct (String.eqb_spec a ""); [contradiction|].
    rewrite (strip_fixed a (all_in_trimmed _ _ asset_char_not_blank Ha Hn)).
    rewrite (upper_fixed a Ha).
    assert (El : (20 <? String.length a)%nat = false)
      by now apply Nat.ltb_ge.
    rewrite El, (match_plus_all_in _ _ Hn Ha). cbn [negb].
    rewrite IH. now rewrite <- app_assoc.
Qed.

(** X26. What [validate_asset_ids] returns is the list it was given,
    of at most 100 identifiers, each stripped and put in upper case; every
    identifier it returns is not empty, has at most 20 characters and
    none but capital letters, digits, underscores and dashes.  The list
    returned is accepted again and returned as it is. *)
Theorem validate_asset_ids_normalises_the_identifiers
        (v validated_assets : list string) :
  validate_asset_ids v = Ok validated_assets ->
  validated_assets = map (fun asset_id => upper (strip asset_id)) v /\
  (length v <= 100)%nat /\
  Forall asset_id_ok validated_assets /\
  validate_asset_ids validated_assets = Ok validated_assets.
Proof.
  unfold validate_asset_ids.
  destruct (100 <? length v)%nat eqn:El; [discriminate|].
  apply Nat.ltb_ge in El. intros H.
  apply validate_each_spec in H as (-> & Hok). simpl.
  split; [reflexivity|]. split; [exact El|]. split; [exact Hok|].
  rewrite length_map.
  assert (El' : (100 <? length v)%nat = false) by now apply Nat.ltb_ge.
  rewrite El'. now rewrite (validate_each_ok _ [] Hok).
Qed.

Lemma validate_asset_ids_normalises_the_identifiers_witness :
  validate_asset_ids [" dt059 "; "Dt_60-a"] = Ok ["DT059"; "DT_60-A"] /\
  validate_asset_ids ["DT059"; "DT_60-A"] = Ok ["DT059"; "DT_60-A"] /\
  (exists e, validate_asset_ids ["DT 059"] = Raise e).
Proof.
  destruct (validate_asset_ids_normalises_the_identifiers
              [" dt059 "; "Dt_60-a"] ["DT059"; "DT_60-A"] eq_refl)
    as (_ & _ & _ & H).
  split; [reflexivity|]. split; [exact H|]. eexists. reflexivity.
Defined.

(** ** The window of accepted time ranges *)

(** X27. [validate_time_range] accepts an end exactly when it comes at
    least 7.2 seconds (0.002 hours) and at most 30 hours after the start,
    both bounds included.  A range that is shorter, though positive, is
    refused with the message that says 6 seconds: a range of 6 or of 7
    seconds is refused. *)
Theorem accepted_ranges_last_from_7200_ms_to_30_hours (start v : Z) :
  (validate_time_range start v = Ok v <->
   7200000 <= v - start <= 108000000000) /\
  (0 < v - start < 7200000 ->
   validate_time_range start v
   = Raise (mkExn ValueError "Time range must be at least 6 seconds")) /\
  (v - start <= 0 ->
   validate_time_range start v
   = Raise (mkExn ValueError "End time must be after start time")) /\
  (108000000000 < v - start ->
   exists message, validate_time_range start v
                   = Raise (mkExn ValueError message)).
Proof.
  unfold validate_time_range, PyTime.duration_hours.
  assert (Hgt : PyNum.gt ((v - start) # 3600000000) (30 # 1) = true <->
                108000000000 < v - start).
  { rewrite gt_true. unfold Qlt. simpl. lia. }
  assert (Hlt : PyNum.lt ((v - start) # 3600000000) (2 # 1000) = true <->
                v - start < 7200000).
  { unfold PyNum.lt. rewrite negb_true_iff.
    split.
    - intros H. destruct (Z_lt_ge_dec (v - start) 7200000) as [?|Hge];
        [assumption|].
      assert (Hle : Qle_bool (2 # 1000) ((v - start) # 3600000000) = true).
      { apply Qle_bool_iff. unfold Qle. simpl. lia. }
      congruence.
    - intros H. destruct (Qle_bool _ _) eqn:E; [|reflexivity].
      apply Qle_bool_iff in E. unfold Qle in E. simpl in E. lia. }
  destruct (Z.leb_spec v start) as [Hle | Hlt'].
  - split; [split; [discriminate | lia]|].
    split; [lia|]. split; [reflexivity | lia].
  - destruct (PyNum.gt ((v - start) # 3600000000) (30 # 1)) eqn:Eg.
    + assert (108000000000 < v - start) by now apply Hgt.
      split; [split; [discriminate | lia]|].
      split; [lia|]. split; [lia|]. intros _. eexists. reflexivity.
    + assert (~ 108000000000 < v - start).
      { intros H. apply Hgt in H. discriminate. }
      destruct (PyNum.lt ((v - start) # 3600000000) (2 # 1000)) eqn:El.
      * assert (v - start < 7200000) by now apply Hlt.
        split; [split; [discriminate | lia]|].
        split; [reflexivity|]. split; lia.
      * assert (~ v - start < 7200000).
        { intros H'. apply Hlt in H'. discriminate. }
        split; [split; [lia | reflexivity]|]. split; lia.
Qed.

Lemma accepted_ranges_last_from_7200_ms_to_30_hours_witness :
  validate_time_range Sample.t0 (Sample.t0 + 7200000)
  = Ok (Sample.t0 + 7200000) /\
  validate_time_range Sample.t0 (Sample.t0 + 7000000)
  = Raise (mkExn ValueError "Time range must be at least 6 seconds").
Proof.
  destruct (accepted_ranges_last_from_7200_ms_to_30_hours
              Sample.t0 (Sample.t0 + 7200000)) as (H & _).
  destruct (accepted_ranges_last_from_7200_ms_to_30_hours
              Sample.t0 (Sample.t0 + 7000000)) as (_ & H' & _).
  split; [apply H | apply H']; unfold Sample.t0; lia.
Defined.

(** X28. [validate_alarm_types] accepts a selection exactly when it is
    not empty and none of its entries is blank; it returns the entries
    stripped, in their order, so that a selection differs from its
    stripped form in nothing that the extraction sees.  What it returns is
    trimmed and is accepted again as it is. *)
Theorem validate_alarm_types_strips_the_selection (v out : list string) :
  ((exists out', validate_alarm_types v = Ok out') <->
   v <> [] /\ Forall (fun alarm => strip alarm <> "") v) /\
  (validate_alarm_types v = Ok out ->
   out = map strip v /\ tidy out /\
   validate_alarm_types out = Ok out /\
   validate_alarm_types (map strip v) = validate_alarm_types v).
Proof.
  assert (Hall : forall l,
             forallb (fun alarm => negb (String.eqb (strip alarm) "")) l = true
             <-> Forall (fun alarm => strip alarm <> "") l).
  { intros l. rewrite forallb_forall, List.Forall_forall.
    split; intros H a Ha; specialize (H a Ha).
    - intros E. rewrite E in H. discriminate.
    - now destruct (String.eqb_spec (strip a) ""). }
  assert (Hidem : forall l, map strip (map strip l) = map strip l).
  { intros l. rewrite map_map. apply map_ext. intros a.
    apply strip_idempotent. }
  assert (Hstripped : forall l,
             Forall (fun alarm => strip alarm <> "") l ->
             Forall (fun alarm => strip alarm <> "") (map strip l)).
  { intros l H. induction H as [|a l Ha Hl IH]; constructor;
      [now rewrite strip_idempotent | exact IH]. }
  unfold validate_alarm_types. split.
  - destruct v as [|a rest].
    + split; [intros (o & H); discriminate | intros (H & _); congruence].
    + destruct (forallb _ (a :: rest)) eqn:E.
      * split; [intros _; split; [discriminate | now apply Hall]|].
        intros _. eexists. reflexivity.
      * split; [intros (o & H); discriminate|].
        intros (_ & H). apply Hall in H. congruence.
  - destruct v as [|a rest]; [discriminate|].
    destruct (forallb _ (a :: rest)) eqn:E; [|discriminate].
    intros [= <-]. apply Hall in E. split; [reflexivity|].
    assert (Ht : tidy (map strip (a :: rest))).
    { unfold tidy. induction E as [|b l Hb Hl IH]; constructor;
        [now apply strip_trimmed | exact IH]. }
    split; [exact Ht|].
    pose proof (Hstripped _ E) as E'. apply Hall in E'.
    change (map strip (a :: rest)) with (strip a :: map strip rest) in *.
    rewrite E'.
    change (strip a :: map strip rest) with (map strip (a :: rest)).
    rewrite Hidem. split; reflexivity.
Qed.

Lemma validate_alarm_types_strips_the_selection_witness :
  validate_alarm_types [" Off Path "; "Steering Restricted"]
  = Ok ["Off Path"; "Steering Restricted"] /\
  validate_alarm_types ["Off Path"; "Steering Restricted"]
  = Ok ["Off Path"; "Steering Restricted"].
Proof.
  destruct (validate_alarm_types_strips_the_selection
              [" Off Path "; "Steering Restricted"]
              ["Off Path"; "Steering Restricted"]) as (_ & H).
  destruct (H eq_refl) as (_ & _ & H' & _).
  split; [reflexivity | exact H'].
Defined.

(** ** Jobs with events *)

Lemma to_alarm_events_ok (raws : list EnrichedEvent) :
  Forall (fun raw => vehicle (event raw) <> None) raws ->
  exists events, to_alarm_events raws = Ok events /\
                 Forall2 same_event (map event raws) events.
Proof.
  induction 1 as [|raw rest Hv Hrest (events & E & IH)]; simpl.
  - exists []. split; [reflexivity | constructor].
  - unfold to_alarm_event. destruct (vehicle (event raw)) as [v|] eqn:Ev;
      [|now contradiction Hv].
    rewrite E. eexists. split; [reflexivity|].
    constructor; [|exact IH]. unfold same_event. simpl. now rewrite Ev.
Qed.

Lemma to_alarm_events_raise (raws : list EnrichedEvent) :
  Exists (fun raw => vehicle (event raw) = None) raws ->
  exists e, to_alarm_events raws = Raise e.
Proof.
  induction 1 as [raw rest Hv | raw rest Hrest (e & E)]; simpl.
  - unfold to_alarm_event. rewrite Hv. eexists. reflexivity.
  - destruct (to_alarm_event raw); [|eexists; reflexivity].
    rewrite E. eexists. reflexivity.
Qed.

Section QuietJobs.

Variable env : Env.
Variable self : Extractor.
Hypothesis Hquiet : quiet env.
Hypothesis Hbenign : benign env.
Hypothesis Hreach : reachable env.

(** The extraction of a job whose locator is answered. *)
Lemma job_extraction_quiet (job : JobData) (points : list Point) :
  PyNum.gt (PyTime.duration_hours (tr_start (time_range (request job)))
                                  (tr_end (time_range (request job))))
           (30 # 1) = false ->
  QueryText.alarm_conditions (ALARM_TYPES self)
    (selected_alarms (alarm_filter (request job))) <> [] ->
  answer (store env 1 (locator_query self (request job))) = Some points ->
  Forall (fun ev => calm (vehicle ev)) (job_events env self job) ->
  exists w w',
    connect env new_world = (Ok true, w) /\
    extract_alarm_events env self
      (tr_start (time_range (request job)))
      (tr_end (time_range (request job)))
      (selected_alarms (alarm_filter (request job)))
      (selected_vehicles (alarm_filter (request job))) (30 # 1) None w
    = (Ok (enriched_from env self 2 (job_events env self job)), w') /\
    issued w'
    = connection_test :: locator_query self (request job)
        :: enrichment_queries self (job_events env self job).
Proof.
  intros Hd Hc Hans Hcalm.
  destruct (connect_reachable env Hquiet Hreach) as (w & Ec & Hcl & Hi & _).
  assert (Hrows : job_events env self job
                  = located (ALARM_TYPES self) points).
  { unfold job_events, rows_of. now rewrite Hans. }
  rewrite Hrows in *.
  destruct (extract_quiet env self Hquiet Hbenign
              (tr_start (time_range (request job)))
              (tr_end (time_range (request job)))
              (selected_alarms (alarm_filter (request job)))
              (selected_vehicles (alarm_filter (request job))) (30 # 1)
              None w (locator_query self (request job)) points I Hcl Hd Hc)
    as (w' & Ex & Hi' & _).
  - reflexivity.
  - now rewrite Hi.
  - exact Hcalm.
  - exists w, w'. split; [exact Ec|]. rewrite Hi in Ex, Hi'.
    split; [exact Ex | exact Hi'].
Qed.

End QuietJobs.

(** X29. When nobody cancels, no error of the store and no vehicle name
    has the word "cancelled" in it, the connection test and the locator's
    query are answered, and every classified row has a vehicle, the job
    ends [completed] with progress 100: its record and the stored results
    hold one event for each classified row, in the order of the rows, with
    the type, vehicle, instant and title of the row, and the summary
    counts them. *)
Theorem a_job_completes_with_one_event_for_each_classified_row
        (env : Env) (self : Extractor) (job_id : string) (srv : Server)
        (job : JobData) (points : list Point) :
  quiet env -> benign env -> reachable env ->
  active_extractions srv !! job_id = Some job ->
  PyNum.gt (PyTime.duration_hours (tr_start (time_range (request job)))
                                  (tr_end (time_range (request job))))
           (30 # 1) = false ->
  QueryText.alarm_conditions (ALARM_TYPES self)
    (selected_alarms (alarm_filter (request job))) <> [] ->
  answer (store env 1 (locator_query self (request job))) = Some points ->
  Forall (fun ev => calm (vehicle ev) /\ vehicle ev <> None)
         (job_events env self job) ->
  let out := run_alarm_extraction env self job_id srv in
  exists events,
    Forall2 same_event (job_events env self job) events /\
    job_field status job_id (fst out) = Some "completed" /\
    job_field progress job_id (fst out) = Some 100 /\
    job_field alarm_events job_id (fst out) = Some events /\
    job_field (fun j => total_events <$> summary j) job_id (fst out)
    = Some (Some (length (job_events env self job))) /\
    r_alarm_events <$> (extraction_results (fst out) !! job_id)
    = Some events /\
    issued (snd out)
    = connection_test :: locator_query self (request job)
        :: enrichment_queries self (job_events env self job).
Proof.
  intros Hq Hb Hr Hjob Hd Hc Hans Hev. cbv zeta.
  assert (Hcalm : Forall (fun ev => calm (vehicle ev))
                         (job_events env self job)).
  { eapply List.Forall_impl; [|exact Hev]. now intros ev (H & _). }
  destruct (job_extraction_quiet env self Hq Hb Hr job points Hd Hc Hans
                                 Hcalm) as (w & w' & Ec & Ex & Hi).
  destruct (to_alarm_events_ok
              (enriched_from env self 2 (job_events env self job)))
    as (events & Et & Hsame).
  { apply List.Forall_forall. intros raw Hraw.
    assert (Hin : In (event raw) (job_events env self job)).
    { rewrite <- (event_of_enriched_from env self 2). now apply in_map. }
    rewrite List.Forall_forall in Hev. now apply Hev in Hin. }
  rewrite event_of_enriched_from in Hsame.
  exists events. split; [exact Hsame|].
  unfold run_alarm_extraction, job_field. rewrite Hjob, Ec, Ex, Et.
  cbn [fst snd]. unfold update_job.
  cbn [active_extractions extraction_results].
  rewrite !lookup_alter_eq, Hjob, lookup_insert_eq. simpl.
  split; [reflexivity|]. split; [reflexivity|]. split; [reflexivity|].
  split; [|split; [reflexivity | exact Hi]].
  now rewrite (Forall2_length _ _ _ Hsame).
Qed.

Lemma a_job_completes_with_one_event_for_each_classified_row_witness :
  let out := run_alarm_extraction Sample.env_two_alarms Sample.extractor
               "job-1" (Sample.one_job ["Off Path"]) in
  job_field status "job-1" (fst out) = Some "completed" /\
  job_field (fun j => map ae_timestamp (alarm_events j)) "job-1" (fst out)
  = Some [Sample.t0 + 1800000000; Sample.t0 + 600000000] /\
  length (issued (snd out)) = 12%nat.
Proof.
  destruct (a_job_completes_with_one_event_for_each_classified_row
              Sample.env_two_alarms Sample.extractor "job-1"
              (Sample.one_job ["Off Path"]) (Sample.pending ["Off Path"])
              Fixture.rows_two_alarms)
    as (events & _ & Hs & _ & _ & _ & _ & Hi).
  - intros t. reflexivity.
  - intros n q m Hm. destruct n as [|[|n]]; simpl in Hm; discriminate.
  - exists []. reflexivity.
  - reflexivity.
  - reflexivity.
  - vm_compute. discriminate.
  - reflexivity.
  - vm_compute. repeat constructor; discriminate.
  - cbv zeta. split; [exact Hs|]. split; [vm_compute; reflexivity|].
    rewrite Hi. vm_compute. reflexivity.
Defined.

(** X30. In such a run, a single classified row without a vehicle makes
    the whole job fail: the conversion of that event into the response
    model raises, the job ends [failed] at progress 20 with the events of
    its record as they were and nothing stored in the results, although
    every query of the extraction has been sent and answered. *)
Theorem an_event_without_vehicle_fails_the_whole_job
        (env : Env) (self : Extractor) (job_id : string) (srv : Server)
        (job : JobData) (points : list Point) :
  quiet env -> benign env -> reachable env ->
  active_extractions srv !! job_id = Some job ->
  PyNum.gt (PyTime.duration_hours (tr_start (time_range (request job)))
                                  (tr_end (time_range (request job))))
           (30 # 1) = false ->
  QueryText.alarm_conditions (ALARM_TYPES self)
    (selected_alarms (alarm_filter (request job))) <> [] ->
  answer (store env 1 (locator_query self (request job))) = Some points ->
  Forall (fun ev => calm (vehicle ev)) (job_events env self job) ->
  Exists (fun ev => vehicle ev = None) (job_events env self job) ->
  let out := run_alarm_extraction env self job_id srv in
  job_field status job_id (fst out) = Some "failed" /\
  job_field progress job_id (fst out) = Some 20 /\
  job_field alarm_events job_id (fst out) = Some (alarm_events job) /\
  extraction_results (fst out) = extraction_results srv /\
  issued (snd out)
  = connection_test :: locator_query self (request job)
      :: enrichment_queries self (job_events env self job).
Proof.
  intros Hq Hb Hr Hjob Hd Hc Hans Hcalm Hnone. cbv zeta.
  destruct (job_extraction_quiet env self Hq Hb Hr job points Hd Hc Hans
                                 Hcalm) as (w & w' & Ec & Ex & Hi).
  destruct (to_alarm_events_raise
              (enriched_from env self 2 (job_events env self job)))
    as (e & Et).
  { apply List.Exists_exists in Hnone as (ev & Hin & Hv).
    rewrite <- (event_of_enriched_from env self 2) in Hin.
    apply in_map_iff in Hin as (raw & <- & Hraw).
    apply List.Exists_exists. now exists raw. }
  unfold run_alarm_extraction, job_field. rewrite Hjob, Ec, Ex, Et.
  cbn [fst snd]. unfold update_job.
  cbn [active_extractions extraction_results].
  rewrite !lookup_alter_eq, Hjob. simpl. auto.
Qed.

Lemma an_event_without_vehicle_fails_the_whole_job_witness :
  let out := run_alarm_extraction Fixture.env_unnamed Sample.extractor
               "job-1" (Sample.one_job ["Off Path"]) in
  job_field status "job-1" (fst out) = Some "failed" /\
  job_field alarm_events "job-1" (fst out) = Some [] /\
  extraction_results (fst out) !! "job-1" = None /\
  length (issued (snd out)) = 12%nat.
Proof.
  destruct (an_event_without_vehicle_fails_the_whole_job
              Fixture.env_unnamed Sample.extractor "job-1"
              (Sample.one_job ["Off Path"]) (Sample.pending ["Off Path"])
              Fixture.rows_unnamed) as (Hs & _ & He & Hr & Hi).
  - intros t. reflexivity.
  - intros n q m Hm. destruct n as [|[|n]]; simpl in Hm; discriminate.
  - exists []. reflexivity.
  - reflexivity.
  - reflexivity.
  - vm_compute. discriminate.
  - reflexivity.
  - vm_compute. repeat constructor.
  - vm_compute. apply Exists_cons_tl. apply Exists_cons_hd. reflexivity.
  - cbv zeta. split; [exact Hs|]. split; [exact He|].
    split; [rewrite Hr; reflexivity|]. rewrite Hi. vm_compute. reflexivity.
Defined.

(** ** Sample runs *)

(** On binary64 floats the product of 3.5 and 3.6 rounds to the float
    written 12.6. *)
Example speed_sample_in_binary64 :
  Binary64.speed_of_values Binary64.samples = Some Binary64.expected.
Proof. vm_compute. reflexivity. Qed.

Example classify_off_path :
  _classify_alarm DEFAULT_ALARM_TYPES "Vehicle OFF the planned Path" 
  = Some "Off Path" /\
  _classify_alarm DEFAULT_ALARM_TYPES "Tilt exceeded with dump bed raised"
  = Some "Tilt exceeded with dump bed raised" /\
  _classify_alarm DEFAULT_ALARM_TYPES "Low fuel" = None /\
  _classify_alarm ["Bump"; "Bump Detected: Dump"] "bump detected: dump"
  = Some "Bump".
Proof. vm_compute. auto. Qed.

Example render_instants :
  PyTime.strftime_seconds Sample.t0 = "2024-01-15T10:00:00Z" /\
  PyTime.strftime_micros (Sample.t0 - 500000)
  = "2024-01-15T09:59:59.500000Z" /\
  PyTime.strftime_seconds 951782400000000 = "2000-02-29T00:00:00Z".
Proof. vm_compute. auto. Qed.

(** The scenario of the design document: one hour, the type "Off Path"
    selected, two matching rows of DT059.  The job sends the smoke test,
    the locator's query and five windowed queries for each event, and
    completes with two events of one vehicle. *)
Example two_alarms_of_one_vehicle :
  let out := serve Sample.env_two_alarms Sample.extractor "job-1" 0
                   (Sample.body ["Off Path"]) Sample.no_jobs in
  fst (fst out) = Http200 "job-1" /\
  length (issued (snd out)) = 12%nat /\
  job_field status "job-1" (snd (fst out)) = Some "completed" /\
  job_field (fun j => map ae_alarm_type (alarm_events j)) "job-1"
            (snd (fst out)) = Some ["Off Path"; "Off Path"] /\
  job_field (fun j => unique_vehicles <$> summary j) "job-1"
            (snd (fst out)) = Some (Some 1%nat) /\
  sv_progress <$> (match get_extraction_status "job-1" (snd (fst out)) with
                   | Http200 view => Some view
                   | HttpError _ _ => None
                   end) = Some 100.
Proof. vm_compute. repeat split; reflexivity. Qed.

(** On binary64 floats a range of 7.2 seconds is the shortest that passes
    the lower bound: its duration in hours is the float written 0.002. *)
Example lower_bound_in_binary64 :
  map Binary64Range.too_short Binary64Range.samples
  = [true; true; false; false].
Proof. vm_compute. reflexivity. Qed.

(** The world that [connect] leaves when the store answers at once. *)
Example connect_leaves_the_connected_world :
  connect Sample.env_idle new_world = (Ok true, connected_world).
Proof. vm_compute. reflexivity. Qed.
